(** * Instruction cores of the two emulators: DuoVM and Nessy

    A shallow embedding of [duovm.c] and [nessy.c].  Machine integers are
    [Z] with every wrap-around written out ([u8], [u16]), C arrays are
    lists read and written by index, and the functions that mutate the
    machine through a pointer become computations in a small state monad
    (with a fatal-exit outcome for DuoVM, whose memory accessors call
    [exit]). *)

From Stdlib Require Import ZArith Lia Bool.
From stdpp Require Import base option list.

Local Open Scope Z_scope.

(** ** Fixed-width integers and arrays *)

(** Conversion to [uint8_t] and to [uint16_t]. *)
Definition u8 (v : Z) : Z := v mod 256.
Definition u16 (v : Z) : Z := v mod 65536.

(** [arr[i]] and [arr[i] = v] on a C array of bytes.  Every index the two
    programs compute is masked or range-reduced first, so it lies inside the
    array whenever the list has the declared length; outside it the read
    yields 0 and the write does nothing. *)
Definition aget (arr : list Z) (i : Z) : Z := default 0 (arr !! Z.to_nat i).
Definition aset (arr : list Z) (i v : Z) : list Z := <[Z.to_nat i := v]> arr.

(** Zero-initialised array of [n] bytes (static storage, [memset]). *)
Definition zeros (n : Z) : list Z := replicate (Z.to_nat n) 0.

(** All elements are bytes. *)
Definition is_u8 (v : Z) : bool := (0 <=? v) && (v <? 256).
Definition all_u8 (arr : list Z) : bool := forallb is_u8 arr.

(** C truth value of an integer. *)
Definition truthy (v : Z) : bool := negb (v =? 0).

(* ===================================================================== *)
(** ** DuoVM ([duovm.c]) *)
(* ===================================================================== *)

Module DuoVM.

Definition MEM_SIZE : Z := 65536.
Definition SRAM_START : Z := 224 * 256.
Definition SCREEN_W : Z := 36.
Definition SCREEN_H : Z := 24.

(** Key codes of [ncurses.h] used by [read_button]. *)
Definition KEY_DOWN : Z := 258.
Definition KEY_UP : Z := 259.
Definition KEY_LEFT : Z := 260.
Definition KEY_RIGHT : Z := 261.

(** Calls made on the terminal collaborator, newest first. *)
Inductive curses_call : Type :=
  | Mvaddch (y x ch : Z)
  | Refresh.

(** The globals of the program, plus the two ends of the terminal: the calls
    issued so far and the keys [getch] will still deliver. *)
Record VM : Type := mkVM {
  memory : list Z;
  PC : Z;
  A : Z;
  T : Z;
  D0 : Z;
  D1 : Z;
  C : bool;
  running : bool;
  waiting_key : bool;
  cur_x : Z;
  cur_y : Z;
  display : list curses_call;
  keys : list Z
}.

Definition set_memory (v : list Z) (s : VM) : VM :=
  mkVM v (PC s) (A s) (T s) (D0 s) (D1 s) (C s) (running s) (waiting_key s)
       (cur_x s) (cur_y s) (display s) (keys s).
Definition set_PC (v : Z) (s : VM) : VM :=
  mkVM (memory s) v (A s) (T s) (D0 s) (D1 s) (C s) (running s) (waiting_key s)
       (cur_x s) (cur_y s) (display s) (keys s).
Definition set_A (v : Z) (s : VM) : VM :=
  mkVM (memory s) (PC s) v (T s) (D0 s) (D1 s) (C s) (running s) (waiting_key s)
       (cur_x s) (cur_y s) (display s) (keys s).
Definition set_T (v : Z) (s : VM) : VM :=
  mkVM (memory s) (PC s) (A s) v (D0 s) (D1 s) (C s) (running s) (waiting_key s)
       (cur_x s) (cur_y s) (display s) (keys s).
Definition set_D0 (v : Z) (s : VM) : VM :=
  mkVM (memory s) (PC s) (A s) (T s) v (D1 s) (C s) (running s) (waiting_key s)
       (cur_x s) (cur_y s) (display s) (keys s).
Definition set_D1 (v : Z) (s : VM) : VM :=
  mkVM (memory s) (PC s) (A s) (T s) (D0 s) v (C s) (running s) (waiting_key s)
       (cur_x s) (cur_y s) (display s) (keys s).
Definition set_C (v : bool) (s : VM) : VM :=
  mkVM (memory s) (PC s) (A s) (T s) (D0 s) (D1 s) v (running s) (waiting_key s)
       (cur_x s) (cur_y s) (display s) (keys s).
Definition set_waiting_key (v : bool) (s : VM) : VM :=
  mkVM (memory s) (PC s) (A s) (T s) (D0 s) (D1 s) (C s) (running s) v
       (cur_x s) (cur_y s) (display s) (keys s).
Definition set_cur_x (v : Z) (s : VM) : VM :=
  mkVM (memory s) (PC s) (A s) (T s) (D0 s) (D1 s) (C s) (running s) (waiting_key s)
       v (cur_y s) (display s) (keys s).
Definition set_cur_y (v : Z) (s : VM) : VM :=
  mkVM (memory s) (PC s) (A s) (T s) (D0 s) (D1 s) (C s) (running s) (waiting_key s)
       (cur_x s) v (display s) (keys s).
Definition set_display (v : list curses_call) (s : VM) : VM :=
  mkVM (memory s) (PC s) (A s) (T s) (D0 s) (D1 s) (C s) (running s) (waiting_key s)
       (cur_x s) (cur_y s) v (keys s).
Definition set_keys (v : list Z) (s : VM) : VM :=
  mkVM (memory s) (PC s) (A s) (T s) (D0 s) (D1 s) (C s) (running s) (waiting_key s)
       (cur_x s) (cur_y s) (display s) v.

(** *** The monad of the interpreter

    A call either returns with a new machine, leaves the program through
    [exit(1)] after printing one of the two messages, or sits in [getch]
    because no key is pending. *)

Inductive Fault : Type :=
  | MemoryOOB (addr : Z)
  | WriteToROM (addr : Z).

Inductive Outcome (R : Type) : Type :=
  | Done (r : R) (s : VM)
  | Exit (f : Fault)
  | Blocked.
Arguments Done {R} r s.
Arguments Exit {R} f.
Arguments Blocked {R}.

Definition M (R : Type) : Type := VM -> Outcome R.

#[export] Instance M_ret : MRet M := fun _ r s => Done r s.
#[export] Instance M_bind : MBind M := fun _ _ k m s =>
  match m s with
  | Done r s' => k r s'
  | Exit f => Exit f
  | Blocked => Blocked
  end.

Definition gets {R} (f : VM -> R) : M R := fun s => Done (f s) s.
Definition modify (f : VM -> VM) : M unit := fun s => Done tt (f s).
Definition exit {R} (f : Fault) : M R := fun _ => Exit f.
Definition when (b : bool) (m : M unit) : M unit := if b then m else mret tt.

(** *** Memory *)

Definition check_addr (addr : Z) : M unit :=
  let addr := u16 addr in
  if MEM_SIZE <=? addr then exit (MemoryOOB addr) else mret tt.

(** The parameter is a [uint16_t]: the argument is converted on entry. *)
Definition mem_read (addr : Z) : M Z :=
  let addr := u16 addr in
  check_addr addr;;
  gets (fun s => aget (memory s) addr).

Definition mem_write (addr v : Z) : M unit :=
  let addr := u16 addr in
  let v := u8 v in
  check_addr addr;;
  if addr <? SRAM_START then exit (WriteToROM addr)
  else modify (fun s => set_memory (aset (memory s) addr v) s).

Definition mem_read16 (addr : Z) : M Z :=
  let addr := u16 addr in
  lo ← mem_read addr;
  hi ← mem_read (addr + 1);
  mret (u16 (Z.lor lo (Z.shiftl hi 8))).

(** *** Display *)

Definition mvaddch (y x ch : Z) (s : VM) : VM :=
  set_display (Mvaddch y x ch :: display s) s.
Definition refresh (s : VM) : VM := set_display (Refresh :: display s) s.

Definition clear_screen_vm (s : VM) : VM :=
  refresh
    (foldl (fun s y => foldl (fun s x => mvaddch y x 32 s) s (seqZ 0 SCREEN_W))
           s (seqZ 0 SCREEN_H)).

Definition put_char_vm (ch : Z) : M unit :=
  let ch := u8 ch in
  modify (fun s => mvaddch (cur_y s) (cur_x s) (if truthy ch then ch else 32) s);;
  modify (fun s => set_cur_x (u8 (cur_x s + 1)) s);;
  x ← gets cur_x;
  when (SCREEN_W <=? x) (
    modify (set_cur_x 0);;
    modify (fun s => set_cur_y (u8 (cur_y s + 1)) s);;
    y ← gets cur_y;
    when (SCREEN_H <=? y) (modify (set_cur_y 0)));;
  modify refresh.

(** *** Input *)

(** The [switch] of [read_button]: the button of a key, if it has one. *)
Definition button_of_key (c : Z) : option Z :=
  if c =? KEY_LEFT then Some 0
  else if c =? KEY_UP then Some 1
  else if c =? KEY_DOWN then Some 2
  else if c =? KEY_RIGHT then Some 3
  else if c =? 97 then Some 0
  else if c =? 119 then Some 1
  else if c =? 115 then Some 2
  else if c =? 100 then Some 3
  else if c =? 10 then Some 3
  else None.

(** The [while (1)] loop around [getch]: keys without a button are dropped. *)
Fixpoint scan_keys (ks : list Z) : option (Z * list Z) :=
  match ks with
  | [] => None
  | c :: rest =>
      match button_of_key c with
      | Some b => Some (b, rest)
      | None => scan_keys rest
      end
  end.

Definition read_button : M Z := fun s =>
  match scan_keys (keys s) with
  | Some (b, rest) => Done b (set_keys rest s)
  | None => Blocked
  end.

(** *** CPU *)

Definition write_alu_dest (dest val : Z) : M unit :=
  let val := u8 val in
  if dest =? 0 then a ← gets A; mem_write a val
  else modify (set_D0 val).

Definition carry_in (s : VM) : Z := if C s then 1 else 0.

(** [mem_read(PC++)] *)
Definition fetch : M Z :=
  pc ← gets PC;
  modify (set_PC (u16 (pc + 1)));;
  mem_read pc.

(** The body of [step] after the opcode fetch: a sequence of independent
    [if] statements on the fetched opcode. *)
Definition execute (opcode : Z) : M unit :=
  (* COP *)
  when (opcode =? 0x00) (
    pc ← gets PC; v ← mem_read16 pc; modify (set_A v);;
    modify (fun s => set_PC (u16 (PC s + 2)) s));;
  when (opcode =? 0x01) (v ← fetch; modify (set_D0 v));;
  when (opcode =? 0x02) (v ← fetch; modify (set_D1 v));;
  when (opcode =? 0x03) (a ← gets A; v ← mem_read a; modify (set_D0 v));;
  when (opcode =? 0x04) (a ← gets A; v ← mem_read a; modify (set_D1 v));;
  when (opcode =? 0x05) (
    a ← gets A; v ← mem_read a;
    modify (fun s => set_T (u16 (Z.lor (Z.land (T s) 0xFF00) v)) s));;
  when (opcode =? 0x06) (
    a ← gets A; v ← mem_read a;
    modify (fun s => set_T (u16 (Z.lor (Z.land (T s) 0x00FF) (Z.shiftl v 8))) s));;
  when (opcode =? 0x07) (modify (fun s => set_A (T s) s));;
  when (opcode =? 0x08) (modify (fun s => set_PC (T s) s));;
  (* Jumps *)
  when (opcode =? 0x20) (pc ← gets PC; t ← mem_read16 pc; modify (set_PC t));;
  when (opcode =? 0x21) (
    pc ← gets PC; t ← mem_read16 pc; c ← gets C;
    if c : bool then modify (set_PC t)
    else modify (fun s => set_PC (u16 (PC s + 2)) s));;
  when (opcode =? 0x22) (
    pc ← gets PC; t ← mem_read16 pc; c ← gets C;
    if negb (c : bool) then modify (set_PC t)
    else modify (fun s => set_PC (u16 (PC s + 2)) s));;
  (* Flags *)
  when (opcode =? 0x40) (modify (set_C false));;
  when (opcode =? 0x41) (modify (set_C true));;
  let alu := Z.land opcode 0xFE in
  let dst := Z.land opcode 1 in
  when (alu =? 0x60) (d0 ← gets D0; write_alu_dest dst d0);;
  when (alu =? 0x62) (
    r ← gets (fun s => u16 (D0 s + D1 s + carry_in s));
    modify (set_C (0xFF <? r));;
    write_alu_dest dst (Z.land r 0xFF));;
  when (alu =? 0x64) (
    r ← gets (fun s => D0 s - D1 s - carry_in s);
    modify (set_C (r <? 0));;
    write_alu_dest dst (Z.land r 0xFF));;
  when (alu =? 0x66) (v ← gets (fun s => Z.land (D0 s) (D1 s)); write_alu_dest dst v);;
  when (alu =? 0x68) (v ← gets (fun s => Z.lor (D0 s) (D1 s)); write_alu_dest dst v);;
  when (alu =? 0x6A) (v ← gets (fun s => Z.lxor (D0 s) (D1 s)); write_alu_dest dst v);;
  when (alu =? 0x6C) (
    v ← gets (fun s => Z.land (Z.lnot (D0 s)) 0xFF); write_alu_dest dst v);;
  when (alu =? 0x6E) (
    r ← gets (fun s => u16 (Z.lor (Z.shiftl (D0 s) 1) (carry_in s)));
    modify (set_C (0xFF <? r));;
    write_alu_dest dst (Z.land r 0xFF));;
  when (alu =? 0x70) (
    nextC ← gets (fun s => truthy (Z.land (D0 s) 1));
    r ← gets (fun s => u8 (Z.lor (Z.shiftr (D0 s) 1) (if C s then 0x80 else 0)));
    modify (set_C nextC);;
    write_alu_dest dst r);;
  (* I/O *)
  when (opcode =? 0xA0) (
    modify (set_waiting_key true);;
    b ← read_button;
    a ← gets A; mem_write a b;;
    modify (set_waiting_key false));;
  when (opcode =? 0xA1) (a ← gets A; ch ← mem_read a; put_char_vm ch);;
  when (opcode =? 0xA2) (a ← gets A; v ← mem_read a; modify (set_cur_x v));;
  when (opcode =? 0xA3) (a ← gets A; v ← mem_read a; modify (set_cur_y v));;
  when (opcode =? 0xA4) (modify clear_screen_vm).

Definition step : M unit :=
  opcode ← fetch;
  execute opcode.

(** The inner loop of [main]: [for (i = 0; i < 20000 && !waiting_key; i++)
    step();], with the bound as an argument. *)
Fixpoint burst (n : nat) : M unit :=
  match n with
  | O => mret tt
  | S n' =>
      w ← gets waiting_key;
      if w : bool then mret tt else step;; burst n'
  end.

(** The machine when [main] enters its loop: the loaded image, zeroed
    registers, cursor at the origin and a cleared screen. *)
Definition cold_start (image : list Z) (input : list Z) : VM :=
  clear_screen_vm (mkVM image 0 0 0 0 0 false true false 0 0 [] input).

(** *** Reachability

    [next_opcode s] is the byte the next [step] will decode.  A state is
    reached from [s0] by running whole instructions that return; [allowed]
    restricts the states an instruction may be started from. *)

Definition next_opcode (s : VM) : Z := aget (memory s) (u16 (PC s)).

Inductive reaches (allowed : VM -> bool) (s0 : VM) : VM -> Prop :=
  | reaches_refl : reaches allowed s0 s0
  | reaches_step s s' :
      reaches allowed s0 s ->
      allowed s = true ->
      step s = Done tt s' ->
      reaches allowed s0 s'.

Definition any_state (s : VM) : bool := true.

(** The next instruction is not a cursor-setting opcode whose byte [mem[A]]
    lies outside the screen: [0xA2] with a column of 36 or more, [0xA3] with
    a row of 24 or more. *)
Definition cursor_load_ok (s : VM) : bool :=
  let v := aget (memory s) (u16 (A s)) in
  if next_opcode s =? 0xA2 then (0 <=? v) && (v <? SCREEN_W)
  else if next_opcode s =? 0xA3 then (0 <=? v) && (v <? SCREEN_H)
  else true.

Definition cursor_ok (s : VM) : Prop :=
  (0 <= cur_x s < SCREEN_W) /\ (0 <= cur_y s < SCREEN_H).

(** The machine a call returned with ([d] if it did not return). *)
Definition after {R} (o : Outcome R) (d : VM) : VM :=
  match o with Done _ s => s | _ => d end.
Definition is_done {R} (o : Outcome R) : bool :=
  match o with Done _ _ => true | _ => false end.

(** *** Predicates on computations *)

(** [no_oob m]: running [m] never ends in the out-of-bounds abort. *)
Definition no_oob {R} (m : M R) : Prop :=
  forall s a, m s <> Exit (MemoryOOB a).

(** [preserves P m]: when [m] returns from a state satisfying [P], the state
    it returns with satisfies [P]. *)
Definition preserves {R} (P : VM -> Prop) (m : M R) : Prop :=
  forall s r s', P s -> m s = Done r s' -> P s'.

(** *** Small programs *)

(** [00 10 00] loads [A] with [0x0010]; [A2] then sets [cur_x] to the byte
    7 stored there. *)
Definition set_x_in_range_image : list Z :=
  aset (aset (aset (aset (aset (zeros MEM_SIZE) 0 0x00) 1 0x10) 2 0x00) 3 0xA2)
       0x10 7.

(** Scenario 1 of the specification: [01 2A 41 6E]. *)
Definition rol_image : list Z :=
  aset (aset (aset (aset (zeros MEM_SIZE) 0 0x01) 1 0x2A) 2 0x41) 3 0x6E.

(** A program of one byte: [0xA2] at address 0.  With [A = 0] the
    instruction loads [cur_x] with its own opcode, 162. *)
Definition set_x_image : list Z := aset (zeros MEM_SIZE) 0 0xA2.

(** [s] has the memory size, the [running] flag and the bytes below
    [SRAM_START] of [s0]. *)
Definition rom_kept (s0 s : VM) : Prop :=
  length (memory s) = length (memory s0) /\
  running s = running s0 /\
  forall a, 0 <= a < SRAM_START -> aget (memory s) a = aget (memory s0) a.

(** The opcodes some [if] of [step] reacts to: [0x00]-[0x08], the jumps,
    the two flag opcodes, the ALU block [0x60]-[0x71] (nine operations, each
    with its destination bit) and the I/O block. *)
Definition decodes (opcode : Z) : bool :=
  (opcode <=? 0x08)
  || ((0x20 <=? opcode) && (opcode <=? 0x22))
  || ((0x40 <=? opcode) && (opcode <=? 0x41))
  || ((0x60 <=? opcode) && (opcode <=? 0x71))
  || ((0xA0 <=? opcode) && (opcode <=? 0xA4)).

(** [n] instructions in a row, with no test of [waiting_key] in between. *)
Fixpoint steps (n : nat) : M unit :=
  match n with
  | O => mret tt
  | S n' => step;; steps n'
  end.

(** The cells of the screen in the order [clear_screen_vm] visits them. *)
Definition screen_cells : list (Z * Z) :=
  y ← seqZ 0 SCREEN_H; x ← seqZ 0 SCREEN_W; [(y, x)].

(** A key [read_button] drops. *)
Definition unmapped (c : Z) : Prop := button_of_key c = None.

(** *** The loader

    [load_hex] reads the program file through [fgets] into a buffer of
    [LINE_SIZE] characters and treats what each call delivers as one line.
    The two [sscanf] conversions are modelled as ISO C describes them;
    [None] marks the lines whose effect C does not define or that the line
    alone does not determine.  The file is taken to exist ([fopen] does not
    fail). *)

Definition LINE_SIZE : Z := 512.

(** The buffers that the successive calls [fgets(line, sizeof(line), f)]
    deliver for a file with the characters [input]: each call takes the
    characters up to and including the next newline, but no more than
    [LINE_SIZE - 1], so a longer line arrives in pieces.  [cur] holds what
    the call in progress has read. *)
Fixpoint fgets_lines (cur input : list Z) : list (list Z) :=
  match input with
  | [] => match cur with [] => [] | _ => [cur] end
  | c :: rest =>
      let cur := cur ++ [c] in
      if (c =? 10) || (Z.of_nat (length cur) =? LINE_SIZE - 1)
      then cur :: fgets_lines [] rest
      else fgets_lines cur rest
  end.

(** The string in a buffer: the characters before the first zero. *)
Fixpoint c_string (buf : list Z) : list Z :=
  match buf with
  | [] => []
  | c :: rest => if c =? 0 then [] else c :: c_string rest
  end.

(** [isxdigit] in the C locale, and the value of such a digit. *)
Definition is_xdigit (c : Z) : bool :=
  ((48 <=? c) && (c <=? 57)) || ((65 <=? c) && (c <=? 70))
  || ((97 <=? c) && (c <=? 102)).
Definition xdigit_value (c : Z) : Z :=
  if c <=? 57 then c - 48 else if c <=? 70 then c - 55 else c - 87.

(** The letter of the prefix [0x]. *)
Definition is_x (c : Z) : bool := (c =? 120) || (c =? 88).

(** The number spelled by the hexadecimal digits at the start of [cs],
    continuing [acc]. *)
Fixpoint scan_hex (cs : list Z) (acc : Z) : Z :=
  match cs with
  | c :: rest =>
      if is_xdigit c then scan_hex rest (16 * acc + xdigit_value c) else acc
  | [] => acc
  end.

(** [sscanf(line, "%hx:", &addr)] on a line that starts with a hexadecimal
    digit.  Undefined when the line starts with [0x] and no digit follows,
    and when the number does not fit [uint16_t]. *)
Definition scan_address (line : list Z) : option Z :=
  let digits :=
    match line with
    | 48 :: c :: rest =>
        if is_x c then
          match rest with
          | d :: _ => if is_xdigit d then Some rest else None
          | [] => None
          end
        else Some line
    | _ => Some line
    end in
  ds ← digits;
  let v := scan_hex ds 0 in
  if v <? 65536 then Some v else None.

(** [strchr(line, ':') + 1]; undefined when the line has no colon. *)
Fixpoint after_colon (line : list Z) : option (list Z) :=
  match line with
  | [] => None
  | c :: rest => if c =? 58 then Some rest else after_colon rest
  end.

(** The inner loop of [load_hex]: skip spaces, stop at a character that is
    no hexadecimal digit, otherwise convert with ["%02x"], store, advance
    [addr] (a [uint16_t]) and step two characters on.  [None] when the two
    characters are [0x] (no number is converted) and when the digit is the
    last character of the string (the step leaves the string for what the
    buffer holds behind it). *)
Fixpoint store_bytes (p : list Z) (addr : Z) (mem : list Z) : option (list Z) :=
  match p with
  | [] => Some mem
  | c :: rest =>
      if c =? 32 then store_bytes rest addr mem
      else if negb (is_xdigit c) then Some mem
      else
        match rest with
        | [] => None
        | c2 :: rest2 =>
            if (c =? 48) && is_x c2 then None
            else
              let v := if is_xdigit c2 then 16 * xdigit_value c + xdigit_value c2
                       else xdigit_value c in
              store_bytes rest2 (u16 (addr + 1)) (aset mem addr v)
        end
  end.

(** The body of the outer loop, for the string [line] in the buffer. *)
Definition load_line (line : list Z) (mem : list Z) : option (list Z) :=
  match line with
  | c :: _ =>
      if is_xdigit c then
        addr ← scan_address line;
        p ← after_colon line;
        store_bytes p addr mem
      else Some mem
  | [] => Some mem
  end.

(** [load_hex] on a file with the characters [file]. *)
Definition load_hex (file : list Z) (mem : list Z) : option (list Z) :=
  foldl (fun m buf => m ≫= load_line (c_string buf)) (Some mem)
        (fgets_lines [] file).

(** *** Program text

    A line as the loader expects it: four digits of address, a colon, and
    for each byte a space and two digits, then a newline. *)
Definition hex_digit (v : Z) : Z := if v <? 10 then 48 + v else 87 + v.
Definition hex2 (b : Z) : list Z := [hex_digit (b / 16); hex_digit (b mod 16)].
Definition hex_line (addr : Z) (bytes : list Z) : list Z :=
  hex2 (addr / 256) ++ hex2 (addr mod 256) ++ [58]
    ++ (b ← bytes; 32 :: hex2 b) ++ [10].

(** [bytes] stored from [addr] on, the address wrapping at [2 ^ 16]. *)
Fixpoint poke (mem : list Z) (addr : Z) (bytes : list Z) : list Z :=
  match bytes with
  | [] => mem
  | b :: rest => poke (aset mem addr b) (u16 (addr + 1)) rest
  end.

End DuoVM.

(* ===================================================================== *)
(** ** Nessy ([nessy.c]) *)
(* ===================================================================== *)

Module Nessy.

Definition u64 (v : Z) : Z := v mod 2 ^ 64.

(** Conversion to [int8_t] of a byte. *)
Definition s8 (v : Z) : Z := if u8 v <? 128 then u8 v else u8 v - 256.

Definition NES_RAM_SIZE : Z := 0x800.
Definition PRG_ROM_BANK_SIZE : Z := 0x4000.
Definition CHR_ROM_BANK_SIZE : Z := 0x2000.
Definition PPU_VRAM_SIZE : Z := 0x800.
Definition PPU_PALETTE_SIZE : Z := 0x20.
Definition OAM_SIZE : Z := 0x100.
Definition FRAME_WIDTH : Z := 256.
Definition FRAME_HEIGHT : Z := 240.

Definition FLAG_CARRY : Z := Z.shiftl 1 0.
Definition FLAG_ZERO : Z := Z.shiftl 1 1.
Definition FLAG_INTERRUPT : Z := Z.shiftl 1 2.
Definition FLAG_DECIMAL : Z := Z.shiftl 1 3.
Definition FLAG_BREAK : Z := Z.shiftl 1 4.
Definition FLAG_UNUSED : Z := Z.shiftl 1 5.
Definition FLAG_OVERFLOW : Z := Z.shiftl 1 6.
Definition FLAG_NEGATIVE : Z := Z.shiftl 1 7.

Record Cartridge : Type := mkCartridge {
  prg_rom : list Z;
  chr_rom : list Z;
  prg_rom_size : Z;
  chr_rom_size : Z
}.

Record PPU : Type := mkPPU {
  ctrl : Z;
  mask : Z;
  status : Z;
  oam_addr : Z;
  scroll_latch : Z;
  addr_latch : Z;
  vram_addr : Z;
  temp_addr : Z;
  fine_x : Z;
  read_buffer : Z;
  vram : list Z;
  palette : list Z;
  oam : list Z;
  framebuffer : list Z;
  scanline : Z;
  cycle : Z;
  nmi_triggered : bool
}.

Record CPU : Type := mkCPU {
  a : Z;
  x : Z;
  y : Z;
  sp : Z;
  p : Z;
  pc : Z;
  cycles : Z
}.

Record NES : Type := mkNES {
  cpu : CPU;
  ppu : PPU;
  cart : Cartridge;
  ram : list Z
}.

Record RomImage : Type := mkRomImage {
  rom_data : list Z;
  rom_size : Z
}.

Record AddrResult : Type := mkAddrResult {
  addr : Z;
  value : Z;
  page_crossed : bool
}.

(** Field assignments. *)
Definition set_chr_rom (v : list Z) (c : Cartridge) : Cartridge :=
  mkCartridge (prg_rom c) v (prg_rom_size c) (chr_rom_size c).

Definition set_ctrl (v : Z) (u : PPU) : PPU :=
  mkPPU v (mask u) (status u) (oam_addr u) (scroll_latch u) (addr_latch u)
        (vram_addr u) (temp_addr u) (fine_x u) (read_buffer u) (vram u)
        (palette u) (oam u) (framebuffer u) (scanline u) (cycle u) (nmi_triggered u).
Definition set_mask (v : Z) (u : PPU) : PPU :=
  mkPPU (ctrl u) v (status u) (oam_addr u) (scroll_latch u) (addr_latch u)
        (vram_addr u) (temp_addr u) (fine_x u) (read_buffer u) (vram u)
        (palette u) (oam u) (framebuffer u) (scanline u) (cycle u) (nmi_triggered u).
Definition set_status (v : Z) (u : PPU) : PPU :=
  mkPPU (ctrl u) (mask u) v (oam_addr u) (scroll_latch u) (addr_latch u)
        (vram_addr u) (temp_addr u) (fine_x u) (read_buffer u) (vram u)
        (palette u) (oam u) (framebuffer u) (scanline u) (cycle u) (nmi_triggered u).
Definition set_oam_addr (v : Z) (u : PPU) : PPU :=
  mkPPU (ctrl u) (mask u) (status u) v (scroll_latch u) (addr_latch u)
        (vram_addr u) (temp_addr u) (fine_x u) (read_buffer u) (vram u)
        (palette u) (oam u) (framebuffer u) (scanline u) (cycle u) (nmi_triggered u).
Definition set_scroll_latch (v : Z) (u : PPU) : PPU :=
  mkPPU (ctrl u) (mask u) (status u) (oam_addr u) v (addr_latch u)
        (vram_addr u) (temp_addr u) (fine_x u) (read_buffer u) (vram u)
        (palette u) (oam u) (framebuffer u) (scanline u) (cycle u) (nmi_triggered u).
Definition set_addr_latch (v : Z) (u : PPU) : PPU :=
  mkPPU (ctrl u) (mask u) (status u) (oam_addr u) (scroll_latch u) v
        (vram_addr u) (temp_addr u) (fine_x u) (read_buffer u) (vram u)
        (palette u) (oam u) (framebuffer u) (scanline u) (cycle u) (nmi_triggered u).
Definition set_vram_addr (v : Z) (u : PPU) : PPU :=
  mkPPU (ctrl u) (mask u) (status u) (oam_addr u) (scroll_latch u) (addr_latch u)
        v (temp_addr u) (fine_x u) (read_buffer u) (vram u)
        (palette u) (oam u) (framebuffer u) (scanline u) (cycle u) (nmi_triggered u).
Definition set_temp_addr (v : Z) (u : PPU) : PPU :=
  mkPPU (ctrl u) (mask u) (status u) (oam_addr u) (scroll_latch u) (addr_latch u)
        (vram_addr u) v (fine_x u) (read_buffer u) (vram u)
        (palette u) (oam u) (framebuffer u) (scanline u) (cycle u) (nmi_triggered u).
Definition set_fine_x (v : Z) (u : PPU) : PPU :=
  mkPPU (ctrl u) (mask u) (status u) (oam_addr u) (scroll_latch u) (addr_latch u)
        (vram_addr u) (temp_addr u) v (read_buffer u) (vram u)
        (palette u) (oam u) (framebuffer u) (scanline u) (cycle u) (nmi_triggered u).
Definition set_read_buffer (v : Z) (u : PPU) : PPU :=
  mkPPU (ctrl u) (mask u) (status u) (oam_addr u) (scroll_latch u) (addr_latch u)
        (vram_addr u) (temp_addr u) (fine_x u) v (vram u)
        (palette u) (oam u) (framebuffer u) (scanline u) (cycle u) (nmi_triggered u).
Definition set_vram (v : list Z) (u : PPU) : PPU :=
  mkPPU (ctrl u) (mask u) (status u) (oam_addr u) (scroll_latch u) (addr_latch u)
        (vram_addr u) (temp_addr u) (fine_x u) (read_buffer u) v
        (palette u) (oam u) (framebuffer u) (scanline u) (cycle u) (nmi_triggered u).
Definition set_palette (v : list Z) (u : PPU) : PPU :=
  mkPPU (ctrl u) (mask u) (status u) (oam_addr u) (scroll_latch u) (addr_latch u)
        (vram_addr u) (temp_addr u) (fine_x u) (read_buffer u) (vram u)
        v (oam u) (framebuffer u) (scanline u) (cycle u) (nmi_triggered u).
Definition set_oam (v : list Z) (u : PPU) : PPU :=
  mkPPU (ctrl u) (mask u) (status u) (oam_addr u) (scroll_latch u) (addr_latch u)
        (vram_addr u) (temp_addr u) (fine_x u) (read_buffer u) (vram u)
        (palette u) v (framebuffer u) (scanline u) (cycle u) (nmi_triggered u).
Definition set_scanline (v : Z) (u : PPU) : PPU :=
  mkPPU (ctrl u) (mask u) (status u) (oam_addr u) (scroll_latch u) (addr_latch u)
        (vram_addr u) (temp_addr u) (fine_x u) (read_buffer u) (vram u)
        (palette u) (oam u) (framebuffer u) v (cycle u) (nmi_triggered u).
Definition set_cycle (v : Z) (u : PPU) : PPU :=
  mkPPU (ctrl u) (mask u) (status u) (oam_addr u) (scroll_latch u) (addr_latch u)
        (vram_addr u) (temp_addr u) (fine_x u) (read_buffer u) (vram u)
        (palette u) (oam u) (framebuffer u) (scanline u) v (nmi_triggered u).
Definition set_nmi_triggered (v : bool) (u : PPU) : PPU :=
  mkPPU (ctrl u) (mask u) (status u) (oam_addr u) (scroll_latch u) (addr_latch u)
        (vram_addr u) (temp_addr u) (fine_x u) (read_buffer u) (vram u)
        (palette u) (oam u) (framebuffer u) (scanline u) (cycle u) v.

Definition set_a (v : Z) (c : CPU) : CPU := mkCPU v (x c) (y c) (sp c) (p c) (pc c) (cycles c).
Definition set_x (v : Z) (c : CPU) : CPU := mkCPU (a c) v (y c) (sp c) (p c) (pc c) (cycles c).
Definition set_y (v : Z) (c : CPU) : CPU := mkCPU (a c) (x c) v (sp c) (p c) (pc c) (cycles c).
Definition set_sp (v : Z) (c : CPU) : CPU := mkCPU (a c) (x c) (y c) v (p c) (pc c) (cycles c).
Definition set_p (v : Z) (c : CPU) : CPU := mkCPU (a c) (x c) (y c) (sp c) v (pc c) (cycles c).
Definition set_pc (v : Z) (c : CPU) : CPU := mkCPU (a c) (x c) (y c) (sp c) (p c) v (cycles c).
Definition set_cycles (v : Z) (c : CPU) : CPU := mkCPU (a c) (x c) (y c) (sp c) (p c) (pc c) v.

Definition set_cpu (v : CPU) (s : NES) : NES := mkNES v (ppu s) (cart s) (ram s).
Definition set_ppu (v : PPU) (s : NES) : NES := mkNES (cpu s) v (cart s) (ram s).
Definition set_cart (v : Cartridge) (s : NES) : NES := mkNES (cpu s) (ppu s) v (ram s).
Definition set_ram (v : list Z) (s : NES) : NES := mkNES (cpu s) (ppu s) (cart s) v.

(** *** The monad of the interpreter: functions that take [NES *nes] *)

Definition M (R : Type) : Type := NES -> R * NES.

#[export] Instance M_ret : MRet M := fun _ r s => (r, s).
#[export] Instance M_bind : MBind M := fun _ _ k m s =>
  let (r, s') := m s in k r s'.

Definition gets {R} (f : NES -> R) : M R := fun s => (f s, s).
Definition modify (f : NES -> NES) : M unit := fun s => (tt, f s).
(** Assignments through [cpu->] and [ppu->]. *)
Definition upd_cpu (f : CPU -> CPU) : M unit := modify (fun s => set_cpu (f (cpu s)) s).
Definition upd_ppu (f : PPU -> PPU) : M unit := modify (fun s => set_ppu (f (ppu s)) s).

(** *** Reset *)

Definition ppu_reset (u : PPU) : PPU :=
  mkPPU 0 0 0xA0 0 0 0 0 0 0 0 (zeros PPU_VRAM_SIZE) (zeros PPU_PALETTE_SIZE)
        (zeros OAM_SIZE) (zeros (FRAME_WIDTH * FRAME_HEIGHT)) 0 0 false.

Definition cpu_reset (c : CPU) (reset_vector : Z) : CPU :=
  mkCPU 0 0 0 0xFD (Z.lor FLAG_INTERRUPT FLAG_UNUSED) (u16 reset_vector) 7.

(** *** PPU bus *)

Definition ppu_mirror_vram_addr (addr : Z) : Z :=
  let addr := Z.land (u16 addr) 0x2FFF in
  if (0x3000 <=? addr) && (addr <=? 0x3EFF) then u16 (addr - 0x1000) else addr.

Definition ppu_read (nes : NES) (addr : Z) : Z :=
  let addr := Z.land (u16 addr) 0x3FFF in
  if addr <? 0x2000 then
    if chr_rom_size (cart nes) =? 0 then 0
    else aget (chr_rom (cart nes)) (addr mod chr_rom_size (cart nes))
  else if addr <? 0x3F00 then
    let addr := ppu_mirror_vram_addr addr in
    aget (vram (ppu nes)) (Z.land addr 0x7FF)
  else
    let addr := Z.lor 0x3F00 (Z.land addr 0x1F) in
    aget (palette (ppu nes)) (Z.land addr 0x1F).

Definition ppu_write (addr value : Z) (nes : NES) : NES :=
  let value := u8 value in
  let addr := Z.land (u16 addr) 0x3FFF in
  if addr <? 0x2000 then
    if chr_rom_size (cart nes) =? 0 then nes
    else set_cart (set_chr_rom (aset (chr_rom (cart nes))
                                     (addr mod chr_rom_size (cart nes)) value)
                               (cart nes)) nes
  else if addr <? 0x3F00 then
    let addr := ppu_mirror_vram_addr addr in
    set_ppu (set_vram (aset (vram (ppu nes)) (Z.land addr 0x7FF) value) (ppu nes)) nes
  else
    let addr := Z.lor 0x3F00 (Z.land addr 0x1F) in
    set_ppu (set_palette (aset (palette (ppu nes)) (Z.land addr 0x1F) value) (ppu nes)) nes.

(** [ppu->vram_addr += (ppu->ctrl & 0x04) ? 32 : 1] *)
Definition vram_addr_advance (u : PPU) : PPU :=
  set_vram_addr (u16 (vram_addr u + (if truthy (Z.land (ctrl u) 0x04) then 32 else 1))) u.

Definition ppu_read_register (addr : Z) : M Z :=
  let addr := u16 addr in
  match Z.land addr 0x7 with
  | 2 =>
      value ← gets (fun s => status (ppu s));
      upd_ppu (fun u => set_status (u8 (Z.land (status u) (Z.lnot 0x80))) u);;
      upd_ppu (set_addr_latch 0);;
      mret value
  | 4 => gets (fun s => aget (oam (ppu s)) (oam_addr (ppu s)))
  | 7 =>
      vram_addr0 ← gets (fun s => vram_addr (ppu s));
      value ← gets (fun s => ppu_read s vram_addr0);
      value ← (if vram_addr0 <? 0x3F00 then
                 buffered ← gets (fun s => read_buffer (ppu s));
                 upd_ppu (set_read_buffer value);;
                 mret buffered
               else
                 refill ← gets (fun s => ppu_read s (vram_addr0 - 0x1000));
                 upd_ppu (set_read_buffer refill);;
                 mret value);
      upd_ppu vram_addr_advance;;
      mret value
  | _ => mret 0
  end.

Definition ppu_write_register (addr value : Z) : M unit :=
  let addr := u16 addr in
  let value := u8 value in
  match Z.land addr 0x7 with
  | 0 =>
      upd_ppu (set_ctrl value);;
      upd_ppu (fun u => set_temp_addr
        (u16 (Z.lor (Z.land (temp_addr u) 0xF3FF) (Z.shiftl (Z.land value 0x03) 10))) u)
  | 1 => upd_ppu (set_mask value)
  | 3 => upd_ppu (set_oam_addr value)
  | 4 =>
      upd_ppu (fun u => set_oam (aset (oam u) (oam_addr u) value) u);;
      upd_ppu (fun u => set_oam_addr (u8 (oam_addr u + 1)) u)
  | 5 =>
      latch ← gets (fun s => scroll_latch (ppu s));
      if negb (truthy latch) then
        upd_ppu (set_fine_x (Z.land value 0x7));;
        upd_ppu (fun u => set_temp_addr
          (u16 (Z.lor (Z.land (temp_addr u) 0xFFE0) (Z.shiftr value 3))) u);;
        upd_ppu (set_scroll_latch 1)
      else
        upd_ppu (fun u => set_temp_addr
          (u16 (Z.lor (Z.land (temp_addr u) 0x8FFF) (Z.shiftl (Z.land value 0x07) 12))) u);;
        upd_ppu (fun u => set_temp_addr
          (u16 (Z.lor (Z.land (temp_addr u) 0xFC1F) (Z.shiftl (Z.land value 0xF8) 2))) u);;
        upd_ppu (set_scroll_latch 0)
  | 6 =>
      latch ← gets (fun s => addr_latch (ppu s));
      if negb (truthy latch) then
        upd_ppu (fun u => set_temp_addr
          (u16 (Z.lor (Z.land (temp_addr u) 0x00FF) (Z.shiftl (Z.land value 0x3F) 8))) u);;
        upd_ppu (set_addr_latch 1)
      else
        upd_ppu (fun u => set_temp_addr
          (u16 (Z.lor (Z.land (temp_addr u) 0xFF00) value)) u);;
        upd_ppu (fun u => set_vram_addr (temp_addr u) u);;
        upd_ppu (set_addr_latch 0)
  | 7 =>
      vram_addr0 ← gets (fun s => vram_addr (ppu s));
      modify (ppu_write vram_addr0 value);;
      upd_ppu vram_addr_advance
  | _ => mret tt
  end.

Definition ppu_step (u : PPU) : PPU :=
  let u := set_cycle (cycle u + 1) u in
  if 341 <=? cycle u then
    let u := set_cycle 0 u in
    let u := set_scanline (scanline u + 1) u in
    let u :=
      if scanline u =? 241 then
        let u := set_status (u8 (Z.lor (status u) 0x80)) u in
        if truthy (Z.land (ctrl u) 0x80) then set_nmi_triggered true u else u
      else u in
    if 262 <=? scanline u then
      let u := set_scanline 0 u in
      let u := set_status (u8 (Z.land (status u) (Z.lnot 0x80))) u in
      set_nmi_triggered false u
    else u
  else u.

(** *** CPU bus and stack *)

Definition cpu_push (value : Z) : M unit :=
  let value := u8 value in
  sp0 ← gets (fun s => sp (cpu s));
  upd_cpu (set_sp (u8 (sp0 - 1)));;
  modify (fun s => set_ram (aset (ram s) (0x100 + sp0) value) s).

Definition cpu_pop : M Z :=
  upd_cpu (fun c => set_sp (u8 (sp c + 1)) c);;
  gets (fun s => aget (ram s) (0x100 + sp (cpu s))).

Definition cpu_set_zn (value : Z) (c : CPU) : CPU :=
  let value := u8 value in
  let c :=
    if value =? 0 then set_p (u8 (Z.lor (p c) FLAG_ZERO)) c
    else set_p (u8 (Z.land (p c) (Z.lnot FLAG_ZERO))) c in
  if truthy (Z.land value 0x80) then set_p (u8 (Z.lor (p c) FLAG_NEGATIVE)) c
  else set_p (u8 (Z.land (p c) (Z.lnot FLAG_NEGATIVE))) c.

Definition cpu_read (addr : Z) : M Z :=
  let addr := u16 addr in
  if addr <? 0x2000 then gets (fun s => aget (ram s) (Z.land addr 0x7FF))
  else if addr <? 0x4000 then ppu_read_register addr
  else if 0x8000 <=? addr then
    prg_size ← gets (fun s => prg_rom_size (cart s));
    if prg_size =? PRG_ROM_BANK_SIZE then
      gets (fun s => aget (prg_rom (cart s)) ((addr - 0x8000) mod PRG_ROM_BANK_SIZE))
    else
      gets (fun s => aget (prg_rom (cart s)) ((addr - 0x8000) mod prg_size))
  else mret 0.

Definition cpu_write (addr value : Z) : M unit :=
  let addr := u16 addr in
  let value := u8 value in
  if addr <? 0x2000 then
    modify (fun s => set_ram (aset (ram s) (Z.land addr 0x7FF) value) s)
  else if addr <? 0x4000 then ppu_write_register addr value
  else mret tt.

Definition cpu_nmi : M unit :=
  pc0 ← gets (fun s => pc (cpu s)); cpu_push (u8 (Z.shiftr pc0 8));;
  pc0 ← gets (fun s => pc (cpu s)); cpu_push (u8 (Z.land pc0 0xFF));;
  p0 ← gets (fun s => p (cpu s)); cpu_push (Z.land p0 (Z.lnot FLAG_BREAK));;
  upd_cpu (fun c => set_p (u8 (Z.lor (p c) FLAG_INTERRUPT)) c);;
  lo ← cpu_read 0xFFFA;
  hi ← cpu_read 0xFFFB;
  upd_cpu (set_pc (u16 (Z.lor (Z.shiftl hi 8) lo))).

(** *** Addressing modes *)

(** [cpu_read(nes, nes->cpu.pc++)] *)
Definition fetch : M Z :=
  pc0 ← gets (fun s => pc (cpu s));
  upd_cpu (set_pc (u16 (pc0 + 1)));;
  cpu_read pc0.

Definition addr_immediate : M AddrResult :=
  pc0 ← gets (fun s => pc (cpu s));
  upd_cpu (set_pc (u16 (pc0 + 1)));;
  mret (mkAddrResult pc0 0 false).

Definition addr_zero_page : M AddrResult :=
  b ← fetch;
  mret (mkAddrResult (u8 b) 0 false).

Definition addr_zero_page_x : M AddrResult :=
  base ← fetch;
  x0 ← gets (fun s => x (cpu s));
  mret (mkAddrResult (u8 (u8 base + x0)) 0 false).

Definition addr_zero_page_y : M AddrResult :=
  base ← fetch;
  y0 ← gets (fun s => y (cpu s));
  mret (mkAddrResult (u8 (u8 base + y0)) 0 false).

Definition addr_absolute : M AddrResult :=
  lo ← fetch;
  hi ← fetch;
  mret (mkAddrResult (u16 (Z.lor (Z.shiftl hi 8) lo)) 0 false).

Definition addr_absolute_x : M AddrResult :=
  lo ← fetch;
  hi ← fetch;
  let base := u16 (Z.lor (Z.shiftl hi 8) lo) in
  x0 ← gets (fun s => x (cpu s));
  let addr := u16 (base + x0) in
  mret (mkAddrResult addr 0 (negb (Z.land addr 0xFF00 =? Z.land base 0xFF00))).

Definition addr_absolute_y : M AddrResult :=
  lo ← fetch;
  hi ← fetch;
  let base := u16 (Z.lor (Z.shiftl hi 8) lo) in
  y0 ← gets (fun s => y (cpu s));
  let addr := u16 (base + y0) in
  mret (mkAddrResult addr 0 (negb (Z.land addr 0xFF00 =? Z.land base 0xFF00))).

(** The two reads of the target are taken left to right. *)
Definition addr_indirect : M AddrResult :=
  lo ← fetch;
  hi ← fetch;
  let ptr := u16 (Z.lor (Z.shiftl hi 8) lo) in
  tlo ← cpu_read ptr;
  thi ← cpu_read (Z.lor (Z.land ptr 0xFF00) (Z.land (ptr + 1) 0xFF));
  mret (mkAddrResult (u16 (Z.lor tlo (Z.shiftl thi 8))) 0 false).

Definition addr_indexed_indirect : M AddrResult :=
  base ← fetch;
  x0 ← gets (fun s => x (cpu s));
  let ptr := u8 (u8 base + x0) in
  tlo ← cpu_read ptr;
  thi ← cpu_read (u8 (ptr + 1));
  mret (mkAddrResult (u16 (Z.lor tlo (Z.shiftl thi 8))) 0 false).

Definition addr_indirect_indexed : M AddrResult :=
  b ← fetch;
  let base := u8 b in
  tlo ← cpu_read base;
  thi ← cpu_read (u8 (base + 1));
  let addr := u16 (Z.lor tlo (Z.shiftl thi 8)) in
  y0 ← gets (fun s => y (cpu s));
  let final_addr := u16 (addr + y0) in
  mret (mkAddrResult final_addr 0
          (negb (Z.land final_addr 0xFF00 =? Z.land addr 0xFF00))).

(** *** Arithmetic helpers *)

(** [cpu->cycles += n] *)
Definition tick (n : Z) : M unit :=
  upd_cpu (fun c => set_cycles (u64 (cycles c + n)) c).

Definition cpu_branch (condition : bool) : M unit :=
  b ← fetch;
  let offset := s8 b in
  if condition then
    prev_pc ← gets (fun s => pc (cpu s));
    upd_cpu (set_pc (u16 (prev_pc + offset)));;
    tick 1;;
    pc1 ← gets (fun s => pc (cpu s));
    if negb (Z.land prev_pc 0xFF00 =? Z.land pc1 0xFF00) then tick 1 else mret tt
  else mret tt.

Definition cpu_adc (value : Z) (c : CPU) : CPU :=
  let value := u8 value in
  let sum := u16 (a c + value + (if truthy (Z.land (p c) FLAG_CARRY) then 1 else 0)) in
  let c :=
    if 0xFF <? sum then set_p (u8 (Z.lor (p c) FLAG_CARRY)) c
    else set_p (u8 (Z.land (p c) (Z.lnot FLAG_CARRY))) c in
  let result := u8 sum in
  let c :=
    if truthy (Z.land (Z.land (Z.lnot (Z.lxor (a c) value)) (Z.lxor (a c) result)) 0x80)
    then set_p (u8 (Z.lor (p c) FLAG_OVERFLOW)) c
    else set_p (u8 (Z.land (p c) (Z.lnot FLAG_OVERFLOW))) c in
  let c := set_a result c in
  cpu_set_zn (a c) c.

Definition cpu_sbc (value : Z) (c : CPU) : CPU :=
  let value := u8 value in
  cpu_adc (u8 (Z.lnot value)) c.

Definition cpu_compare (reg value : Z) (c : CPU) : CPU :=
  let reg := u8 reg in
  let value := u8 value in
  let diff := u16 (reg - value) in
  let c :=
    if value <=? reg then set_p (u8 (Z.lor (p c) FLAG_CARRY)) c
    else set_p (u8 (Z.land (p c) (Z.lnot FLAG_CARRY))) c in
  cpu_set_zn (u8 diff) c.

(** *** Instruction bodies

    The [switch] of [cpu_step] repeats one body per mnemonic, once for each
    addressing mode; [op_*] is that body, applied to the [AddrResult] of the
    case.  The cycle count of a case follows its body. *)

(** [cpu->p |= f] and [cpu->p &= ~f] *)
Definition flag_set (f : Z) : M unit :=
  upd_cpu (fun c => set_p (u8 (Z.lor (p c) f)) c).
Definition flag_clear (f : Z) : M unit :=
  upd_cpu (fun c => set_p (u8 (Z.land (p c) (Z.lnot f))) c).

(** [cpu_branch(nes, cpu->p & f)] and [cpu_branch(nes, !(cpu->p & f))] *)
Definition branch_if (f : Z) : M unit :=
  cond ← gets (fun s => truthy (Z.land (p (cpu s)) f));
  cpu_branch cond.
Definition branch_unless (f : Z) : M unit :=
  cond ← gets (fun s => negb (truthy (Z.land (p (cpu s)) f)));
  cpu_branch cond.

Definition penalty (ar : AddrResult) : Z := if page_crossed ar then 1 else 0.

Definition op_ora (ar : AddrResult) : M unit :=
  v ← cpu_read (addr ar);
  upd_cpu (fun c => set_a (u8 (Z.lor (a c) v)) c);;
  upd_cpu (fun c => cpu_set_zn (a c) c).

Definition op_and (ar : AddrResult) : M unit :=
  v ← cpu_read (addr ar);
  upd_cpu (fun c => set_a (u8 (Z.land (a c) v)) c);;
  upd_cpu (fun c => cpu_set_zn (a c) c).

Definition op_eor (ar : AddrResult) : M unit :=
  v ← cpu_read (addr ar);
  upd_cpu (fun c => set_a (u8 (Z.lxor (a c) v)) c);;
  upd_cpu (fun c => cpu_set_zn (a c) c).

Definition op_adc (ar : AddrResult) : M unit :=
  v ← cpu_read (addr ar);
  upd_cpu (cpu_adc v).

Definition op_sbc (ar : AddrResult) : M unit :=
  v ← cpu_read (addr ar);
  upd_cpu (cpu_sbc v).

Definition op_cmp (ar : AddrResult) : M unit :=
  v ← cpu_read (addr ar);
  upd_cpu (fun c => cpu_compare (a c) v c).

Definition op_cpx (ar : AddrResult) : M unit :=
  v ← cpu_read (addr ar);
  upd_cpu (fun c => cpu_compare (x c) v c).

Definition op_cpy (ar : AddrResult) : M unit :=
  v ← cpu_read (addr ar);
  upd_cpu (fun c => cpu_compare (y c) v c).

Definition op_lda (ar : AddrResult) : M unit :=
  v ← cpu_read (addr ar);
  upd_cpu (set_a v);;
  upd_cpu (fun c => cpu_set_zn (a c) c).

Definition op_ldx (ar : AddrResult) : M unit :=
  v ← cpu_read (addr ar);
  upd_cpu (set_x v);;
  upd_cpu (fun c => cpu_set_zn (x c) c).

Definition op_ldy (ar : AddrResult) : M unit :=
  v ← cpu_read (addr ar);
  upd_cpu (set_y v);;
  upd_cpu (fun c => cpu_set_zn (y c) c).

Definition op_sta (ar : AddrResult) : M unit :=
  v ← gets (fun s => a (cpu s)); cpu_write (addr ar) v.

Definition op_stx (ar : AddrResult) : M unit :=
  v ← gets (fun s => x (cpu s)); cpu_write (addr ar) v.

Definition op_sty (ar : AddrResult) : M unit :=
  v ← gets (fun s => y (cpu s)); cpu_write (addr ar) v.

Definition op_asl (ar : AddrResult) : M unit :=
  value ← cpu_read (addr ar);
  upd_cpu (fun c => set_p (u8 (Z.lor (Z.land (p c) (Z.lnot FLAG_CARRY))
                                     (Z.land (Z.shiftr value 7) FLAG_CARRY))) c);;
  let value := u8 (Z.shiftl value 1) in
  cpu_write (addr ar) value;;
  upd_cpu (cpu_set_zn value).

Definition op_rol (ar : AddrResult) : M unit :=
  value ← cpu_read (addr ar);
  carry ← gets (fun s => if truthy (Z.land (p (cpu s)) FLAG_CARRY) then 1 else 0);
  upd_cpu (fun c => set_p (u8 (Z.lor (Z.land (p c) (Z.lnot FLAG_CARRY))
                                     (Z.land (Z.shiftr value 7) FLAG_CARRY))) c);;
  let value := u8 (Z.lor (Z.shiftl value 1) carry) in
  cpu_write (addr ar) value;;
  upd_cpu (cpu_set_zn value).

Definition op_lsr (ar : AddrResult) : M unit :=
  value ← cpu_read (addr ar);
  upd_cpu (fun c => set_p (u8 (Z.lor (Z.land (p c) (Z.lnot FLAG_CARRY))
                                     (Z.land value 1))) c);;
  let value := u8 (Z.shiftr value 1) in
  cpu_write (addr ar) value;;
  upd_cpu (cpu_set_zn value).

Definition op_ror (ar : AddrResult) : M unit :=
  value ← cpu_read (addr ar);
  carry ← gets (fun s => if truthy (Z.land (p (cpu s)) FLAG_CARRY) then 0x80 else 0);
  upd_cpu (fun c => set_p (u8 (Z.lor (Z.land (p c) (Z.lnot FLAG_CARRY))
                                     (Z.land value 1))) c);;
  let value := u8 (Z.lor (Z.shiftr value 1) carry) in
  cpu_write (addr ar) value;;
  upd_cpu (cpu_set_zn value).

Definition op_inc (ar : AddrResult) : M unit :=
  v ← cpu_read (addr ar);
  let value := u8 (v + 1) in
  cpu_write (addr ar) value;;
  upd_cpu (cpu_set_zn value).

Definition op_dec (ar : AddrResult) : M unit :=
  v ← cpu_read (addr ar);
  let value := u8 (v - 1) in
  cpu_write (addr ar) value;;
  upd_cpu (cpu_set_zn value).

Definition op_bit (ar : AddrResult) : M unit :=
  value ← cpu_read (addr ar);
  upd_cpu (fun c => set_p
    (u8 (Z.lor (Z.lor (Z.land (p c)
                         (Z.lnot (Z.lor (Z.lor FLAG_ZERO FLAG_NEGATIVE) FLAG_OVERFLOW)))
                      (Z.land value FLAG_NEGATIVE))
               (if truthy (Z.land value 0x40) then FLAG_OVERFLOW else 0))) c);;
  a0 ← gets (fun s => a (cpu s));
  if Z.land a0 value =? 0 then flag_set FLAG_ZERO else mret tt.

(** *** The interpreter *)

(** The [switch (opcode)] of [cpu_step]. *)
Definition cpu_exec (opcode : Z) : M unit :=
  match opcode with
  | 0x00 =>
      upd_cpu (fun c => set_pc (u16 (pc c + 1)) c);;
      pc0 ← gets (fun s => pc (cpu s)); cpu_push (u8 (Z.shiftr pc0 8));;
      pc0 ← gets (fun s => pc (cpu s)); cpu_push (u8 (Z.land pc0 0xFF));;
      p0 ← gets (fun s => p (cpu s)); cpu_push (Z.lor (Z.lor p0 FLAG_BREAK) FLAG_UNUSED);;
      flag_set FLAG_INTERRUPT;;
      lo ← cpu_read 0xFFFE;
      hi ← cpu_read 0xFFFF;
      upd_cpu (set_pc (u16 (Z.lor lo (Z.shiftl hi 8))));;
      tick 7
  | 0x01 => ar ← addr_indexed_indirect; op_ora ar;; tick 6
  | 0x05 => ar ← addr_zero_page; op_ora ar;; tick 3
  | 0x06 => ar ← addr_zero_page; op_asl ar;; tick 5
  | 0x08 =>
      p0 ← gets (fun s => p (cpu s)); cpu_push (Z.lor (Z.lor p0 FLAG_BREAK) FLAG_UNUSED);;
      tick 3
  | 0x09 => ar ← addr_immediate; op_ora ar;; tick 2
  | 0x0A =>
      upd_cpu (fun c => set_p (u8 (Z.lor (Z.land (p c) (Z.lnot FLAG_CARRY))
                                         (Z.land (Z.shiftr (a c) 7) FLAG_CARRY))) c);;
      upd_cpu (fun c => set_a (u8 (Z.shiftl (a c) 1)) c);;
      upd_cpu (fun c => cpu_set_zn (a c) c);;
      tick 2
  | 0x0D => ar ← addr_absolute; op_ora ar;; tick 4
  | 0x0E => ar ← addr_absolute; op_asl ar;; tick 6
  | 0x10 => branch_unless FLAG_NEGATIVE;; tick 2
  | 0x11 => ar ← addr_indirect_indexed; op_ora ar;; tick (5 + penalty ar)
  | 0x15 => ar ← addr_zero_page_x; op_ora ar;; tick 4
  | 0x16 => ar ← addr_zero_page_x; op_asl ar;; tick 6
  | 0x18 => flag_clear FLAG_CARRY;; tick 2
  | 0x19 => ar ← addr_absolute_y; op_ora ar;; tick (4 + penalty ar)
  | 0x1D => ar ← addr_absolute_x; op_ora ar;; tick (4 + penalty ar)
  | 0x1E => ar ← addr_absolute_x; op_asl ar;; tick 7
  | 0x20 =>
      ar ← addr_absolute;
      pc0 ← gets (fun s => pc (cpu s)); cpu_push (u8 (Z.shiftr (pc0 - 1) 8));;
      pc0 ← gets (fun s => pc (cpu s)); cpu_push (u8 (Z.land (pc0 - 1) 0xFF));;
      upd_cpu (set_pc (addr ar));;
      tick 6
  | 0x21 => ar ← addr_indexed_indirect; op_and ar;; tick 6
  | 0x24 => ar ← addr_zero_page; op_bit ar;; tick 3
  | 0x25 => ar ← addr_zero_page; op_and ar;; tick 3
  | 0x26 => ar ← addr_zero_page; op_rol ar;; tick 5
  | 0x28 =>
      v ← cpu_pop; upd_cpu (set_p v);;
      flag_set FLAG_UNUSED;;
      tick 4
  | 0x29 => ar ← addr_immediate; op_and ar;; tick 2
  | 0x2A =>
      carry ← gets (fun s => if truthy (Z.land (p (cpu s)) FLAG_CARRY) then 1 else 0);
      upd_cpu (fun c => set_p (u8 (Z.lor (Z.land (p c) (Z.lnot FLAG_CARRY))
                                         (Z.land (Z.shiftr (a c) 7) FLAG_CARRY))) c);;
      upd_cpu (fun c => set_a (u8 (Z.lor (Z.shiftl (a c) 1) carry)) c);;
      upd_cpu (fun c => cpu_set_zn (a c) c);;
      tick 2
  | 0x2C => ar ← addr_absolute; op_bit ar;; tick 4
  | 0x2D => ar ← addr_absolute; op_and ar;; tick 4
  | 0x2E => ar ← addr_absolute; op_rol ar;; tick 6
  | 0x30 => branch_if FLAG_NEGATIVE;; tick 2
  | 0x31 => ar ← addr_indirect_indexed; op_and ar;; tick (5 + penalty ar)
  | 0x35 => ar ← addr_zero_page_x; op_and ar;; tick 4
  | 0x36 => ar ← addr_zero_page_x; op_rol ar;; tick 6
  | 0x38 => flag_set FLAG_CARRY;; tick 2
  | 0x39 => ar ← addr_absolute_y; op_and ar;; tick (4 + penalty ar)
  | 0x3D => ar ← addr_absolute_x; op_and ar;; tick (4 + penalty ar)
  | 0x3E => ar ← addr_absolute_x; op_rol ar;; tick 7
  | 0x40 =>
      v ← cpu_pop; upd_cpu (set_p v);;
      lo ← cpu_pop; upd_cpu (set_pc lo);;
      hi ← cpu_pop; upd_cpu (fun c => set_pc (u16 (Z.lor (pc c) (Z.shiftl hi 8))) c);;
      tick 6
  | 0x41 => ar ← addr_indexed_indirect; op_eor ar;; tick 6
  | 0x45 => ar ← addr_zero_page; op_eor ar;; tick 3
  | 0x46 => ar ← addr_zero_page; op_lsr ar;; tick 5
  | 0x48 => a0 ← gets (fun s => a (cpu s)); cpu_push a0;; tick 3
  | 0x49 => ar ← addr_immediate; op_eor ar;; tick 2
  | 0x4A =>
      upd_cpu (fun c => set_p (u8 (Z.lor (Z.land (p c) (Z.lnot FLAG_CARRY))
                                         (Z.land (a c) 1))) c);;
      upd_cpu (fun c => set_a (u8 (Z.shiftr (a c) 1)) c);;
      upd_cpu (fun c => cpu_set_zn (a c) c);;
      tick 2
  | 0x4C => ar ← addr_absolute; upd_cpu (set_pc (addr ar));; tick 3
  | 0x4D => ar ← addr_absolute; op_eor ar;; tick 4
  | 0x4E => ar ← addr_absolute; op_lsr ar;; tick 6
  | 0x50 => branch_unless FLAG_OVERFLOW;; tick 2
  | 0x51 => ar ← addr_indirect_indexed; op_eor ar;; tick (5 + penalty ar)
  | 0x55 => ar ← addr_zero_page_x; op_eor ar;; tick 4
  | 0x56 => ar ← addr_zero_page_x; op_lsr ar;; tick 6
  | 0x58 => flag_clear FLAG_INTERRUPT;; tick 2
  | 0x59 => ar ← addr_absolute_y; op_eor ar;; tick (4 + penalty ar)
  | 0x5D => ar ← addr_absolute_x; op_eor ar;; tick (4 + penalty ar)
  | 0x5E => ar ← addr_absolute_x; op_lsr ar;; tick 7
  | 0x60 =>
      lo ← cpu_pop; upd_cpu (set_pc lo);;
      hi ← cpu_pop; upd_cpu (fun c => set_pc (u16 (Z.lor (pc c) (Z.shiftl hi 8))) c);;
      upd_cpu (fun c => set_pc (u16 (pc c + 1)) c);;
      tick 6
  | 0x61 => ar ← addr_indexed_indirect; op_adc ar;; tick 6
  | 0x65 => ar ← addr_zero_page; op_adc ar;; tick 3
  | 0x66 => ar ← addr_zero_page; op_ror ar;; tick 5
  | 0x68 =>
      v ← cpu_pop; upd_cpu (set_a v);;
      upd_cpu (fun c => cpu_set_zn (a c) c);;
      tick 4
  | 0x69 => ar ← addr_immediate; op_adc ar;; tick 2
  | 0x6A =>
      carry ← gets (fun s => if truthy (Z.land (p (cpu s)) FLAG_CARRY) then 0x80 else 0);
      upd_cpu (fun c => set_p (u8 (Z.lor (Z.land (p c) (Z.lnot FLAG_CARRY))
                                         (Z.land (a c) 1))) c);;
      upd_cpu (fun c => set_a (u8 (Z.lor (Z.shiftr (a c) 1) carry)) c);;
      upd_cpu (fun c => cpu_set_zn (a c) c);;
      tick 2
  | 0x6C => ar ← addr_indirect; upd_cpu (set_pc (addr ar));; tick 5
  | 0x6D => ar ← addr_absolute; op_adc ar;; tick 4
  | 0x6E => ar ← addr_absolute; op_ror ar;; tick 6
  | 0x70 => branch_if FLAG_OVERFLOW;; tick 2
  | 0x71 => ar ← addr_indirect_indexed; op_adc ar;; tick (5 + penalty ar)
  | 0x75 => ar ← addr_zero_page_x; op_adc ar;; tick 4
  | 0x76 => ar ← addr_zero_page_x; op_ror ar;; tick 6
  | 0x78 => flag_set FLAG_INTERRUPT;; tick 2
  | 0x79 => ar ← addr_absolute_y; op_adc ar;; tick (4 + penalty ar)
  | 0x7D => ar ← addr_absolute_x; op_adc ar;; tick (4 + penalty ar)
  | 0x7E => ar ← addr_absolute_x; op_ror ar;; tick 7
  | 0x81 => ar ← addr_indexed_indirect; op_sta ar;; tick 6
  | 0x84 => ar ← addr_zero_page; op_sty ar;; tick 3
  | 0x85 => ar ← addr_zero_page; op_sta ar;; tick 3
  | 0x86 => ar ← addr_zero_page; op_stx ar;; tick 3
  | 0x88 =>
      upd_cpu (fun c => set_y (u8 (y c - 1)) c);;
      upd_cpu (fun c => cpu_set_zn (y c) c);; tick 2
  | 0x8A =>
      upd_cpu (fun c => set_a (x c) c);;
      upd_cpu (fun c => cpu_set_zn (a c) c);; tick 2
  | 0x8C => ar ← addr_absolute; op_sty ar;; tick 4
  | 0x8D => ar ← addr_absolute; op_sta ar;; tick 4
  | 0x8E => ar ← addr_absolute; op_stx ar;; tick 4
  | 0x90 => branch_unless FLAG_CARRY;; tick 2
  | 0x91 => ar ← addr_indirect_indexed; op_sta ar;; tick 6
  | 0x94 => ar ← addr_zero_page_x; op_sty ar;; tick 4
  | 0x95 => ar ← addr_zero_page_x; op_sta ar;; tick 4
  | 0x96 => ar ← addr_zero_page_y; op_stx ar;; tick 4
  | 0x98 =>
      upd_cpu (fun c => set_a (y c) c);;
      upd_cpu (fun c => cpu_set_zn (a c) c);; tick 2
  | 0x99 => ar ← addr_absolute_y; op_sta ar;; tick 5
  | 0x9A => upd_cpu (fun c => set_sp (x c) c);; tick 2
  | 0x9D => ar ← addr_absolute_x; op_sta ar;; tick 5
  | 0xA0 => ar ← addr_immediate; op_ldy ar;; tick 2
  | 0xA1 => ar ← addr_indexed_indirect; op_lda ar;; tick 6
  | 0xA2 => ar ← addr_immediate; op_ldx ar;; tick 2
  | 0xA4 => ar ← addr_zero_page; op_ldy ar;; tick 3
  | 0xA5 => ar ← addr_zero_page; op_lda ar;; tick 3
  | 0xA6 => ar ← addr_zero_page; op_ldx ar;; tick 3
  | 0xA8 =>
      upd_cpu (fun c => set_y (a c) c);;
      upd_cpu (fun c => cpu_set_zn (y c) c);; tick 2
  | 0xA9 => ar ← addr_immediate; op_lda ar;; tick 2
  | 0xAA =>
      upd_cpu (fun c => set_x (a c) c);;
      upd_cpu (fun c => cpu_set_zn (x c) c);; tick 2
  | 0xAC => ar ← addr_absolute; op_ldy ar;; tick 4
  | 0xAD => ar ← addr_absolute; op_lda ar;; tick 4
  | 0xAE => ar ← addr_absolute; op_ldx ar;; tick 4
  | 0xB0 => branch_if FLAG_CARRY;; tick 2
  | 0xB1 => ar ← addr_indirect_indexed; op_lda ar;; tick (5 + penalty ar)
  | 0xB4 => ar ← addr_zero_page_x; op_ldy ar;; tick 4
  | 0xB5 => ar ← addr_zero_page_x; op_lda ar;; tick 4
  | 0xB6 => ar ← addr_zero_page_y; op_ldx ar;; tick 4
  | 0xB8 => flag_clear FLAG_OVERFLOW;; tick 2
  | 0xB9 => ar ← addr_absolute_y; op_lda ar;; tick (4 + penalty ar)
  | 0xBA =>
      upd_cpu (fun c => set_x (sp c) c);;
      upd_cpu (fun c => cpu_set_zn (x c) c);; tick 2
  | 0xBC => ar ← addr_absolute_x; op_ldy ar;; tick (4 + penalty ar)
  | 0xBD => ar ← addr_absolute_x; op_lda ar;; tick (4 + penalty ar)
  | 0xBE => ar ← addr_absolute_y; op_ldx ar;; tick (4 + penalty ar)
  | 0xC0 => ar ← addr_immediate; op_cpy ar;; tick 2
  | 0xC1 => ar ← addr_indexed_indirect; op_cmp ar;; tick 6
  | 0xC4 => ar ← addr_zero_page; op_cpy ar;; tick 3
  | 0xC5 => ar ← addr_zero_page; op_cmp ar;; tick 3
  | 0xC6 => ar ← addr_zero_page; op_dec ar;; tick 5
  | 0xC8 =>
      upd_cpu (fun c => set_y (u8 (y c + 1)) c);;
      upd_cpu (fun c => cpu_set_zn (y c) c);; tick 2
  | 0xC9 => ar ← addr_immediate; op_cmp ar;; tick 2
  | 0xCA =>
      upd_cpu (fun c => set_x (u8 (x c - 1)) c);;
      upd_cpu (fun c => cpu_set_zn (x c) c);; tick 2
  | 0xCC => ar ← addr_absolute; op_cpy ar;; tick 4
  | 0xCD => ar ← addr_absolute; op_cmp ar;; tick 4
  | 0xCE => ar ← addr_absolute; op_dec ar;; tick 6
  | 0xD0 => branch_unless FLAG_ZERO;; tick 2
  | 0xD1 => ar ← addr_indirect_indexed; op_cmp ar;; tick (5 + penalty ar)
  | 0xD5 => ar ← addr_zero_page_x; op_cmp ar;; tick 4
  | 0xD6 => ar ← addr_zero_page_x; op_dec ar;; tick 6
  | 0xD8 => flag_clear FLAG_DECIMAL;; tick 2
  | 0xD9 => ar ← addr_absolute_y; op_cmp ar;; tick (4 + penalty ar)
  | 0xDD => ar ← addr_absolute_x; op_cmp ar;; tick (4 + penalty ar)
  | 0xDE => ar ← addr_absolute_x; op_dec ar;; tick 7
  | 0xE0 => ar ← addr_immediate; op_cpx ar;; tick 2
  | 0xE1 => ar ← addr_indexed_indirect; op_sbc ar;; tick 6
  | 0xE4 => ar ← addr_zero_page; op_cpx ar;; tick 3
  | 0xE5 => ar ← addr_zero_page; op_sbc ar;; tick 3
  | 0xE6 => ar ← addr_zero_page; op_inc ar;; tick 5
  | 0xE8 =>
      upd_cpu (fun c => set_x (u8 (x c + 1)) c);;
      upd_cpu (fun c => cpu_set_zn (x c) c);; tick 2
  | 0xE9 => ar ← addr_immediate; op_sbc ar;; tick 2
  | 0xEA => tick 2
  | 0xEC => ar ← addr_absolute; op_cpx ar;; tick 4
  | 0xED => ar ← addr_absolute; op_sbc ar;; tick 4
  | 0xEE => ar ← addr_absolute; op_inc ar;; tick 6
  | 0xF0 => branch_if FLAG_ZERO;; tick 2
  | 0xF1 => ar ← addr_indirect_indexed; op_sbc ar;; tick (5 + penalty ar)
  | 0xF5 => ar ← addr_zero_page_x; op_sbc ar;; tick 4
  | 0xF6 => ar ← addr_zero_page_x; op_inc ar;; tick 6
  | 0xF8 => flag_set FLAG_DECIMAL;; tick 2
  | 0xF9 => ar ← addr_absolute_y; op_sbc ar;; tick (4 + penalty ar)
  | 0xFD => ar ← addr_absolute_x; op_sbc ar;; tick (4 + penalty ar)
  | 0xFE => ar ← addr_absolute_x; op_inc ar;; tick 7
  | _ => tick 2
  end.

Definition cpu_step : M unit :=
  opcode ← fetch;
  cpu_exec opcode.

(** *** Loading a cartridge *)

(** [memcpy(dst, src, n)] into the array [dst].  C defines the copy only
    when both arrays hold [n] bytes.  [parse_ines] does not bound [n] by the
    size of the destination: [None] stands for a copy that leaves one of the
    two arrays, after which the contents of the cartridge are whatever the
    bytes behind it have become. *)
Definition memcpy (dst src : list Z) (n : Z) : option (list Z) :=
  if (n <=? Z.of_nat (length dst)) && (n <=? Z.of_nat (length src))
  then Some (take (Z.to_nat n) src ++ drop (Z.to_nat n) dst)
  else None.

(** The bytes ["NES\x1A"]. *)
Definition ines_magic : list Z := [0x4E; 0x45; 0x53; 0x1A].

(** [parse_ines(image, cart)]: the returned flag and the cartridge left in
    [*cart] (untouched when the flag is [false]).  The flag is settled by
    the four tests, before anything is copied; the cartridge is [None] when
    one of the two copies leaves its array. *)
Definition parse_ines (image : RomImage) (cart : Cartridge)
  : bool * option Cartridge :=
  if rom_size image <? 16 then (false, Some cart) else
  let header := rom_data image in
  if negb (bool_decide (take 4 header = ines_magic)) then (false, Some cart) else
  let prg_banks := aget header 4 in
  let chr_banks := aget header 5 in
  let flags6 := aget header 6 in
  let mapper := u8 (Z.shiftr flags6 4) in
  if negb (mapper =? 0) then (false, Some cart) else
  let offset := 16 in
  let offset := if truthy (Z.land flags6 0x04) then offset + 512 else offset in
  let prg_size := prg_banks * PRG_ROM_BANK_SIZE in
  let chr_size := chr_banks * CHR_ROM_BANK_SIZE in
  if rom_size image <? offset + prg_size + chr_size then (false, Some cart) else
  let cart := mkCartridge (zeros (PRG_ROM_BANK_SIZE * 2)) (zeros CHR_ROM_BANK_SIZE) 0 0 in
  let cart := mkCartridge (prg_rom cart) (chr_rom cart)
    (if truthy prg_size then prg_size else PRG_ROM_BANK_SIZE) (chr_rom_size cart) in
  (true,
   prg ← memcpy (prg_rom cart) (drop (Z.to_nat offset) (rom_data image)) prg_size;
   let cart := mkCartridge prg (chr_rom cart) (prg_rom_size cart) (chr_rom_size cart) in
   let offset := offset + prg_size in
   let cart := mkCartridge (prg_rom cart) (chr_rom cart) (prg_rom_size cart) chr_size in
   if 0 <? chr_size then
     chr ← memcpy (chr_rom cart) (drop (Z.to_nat offset) (rom_data image)) chr_size;
     Some (set_chr_rom chr cart)
   else Some cart).

(** *** The driver *)

(** [memset(&nes, 0, sizeof(nes))] *)
Definition nes_zero : NES :=
  mkNES (mkCPU 0 0 0 0 0 0 0)
        (mkPPU 0 0 0 0 0 0 0 0 0 0 (zeros PPU_VRAM_SIZE) (zeros PPU_PALETTE_SIZE)
               (zeros OAM_SIZE) (zeros (FRAME_WIDTH * FRAME_HEIGHT)) 0 0 false)
        (mkCartridge (zeros (PRG_ROM_BANK_SIZE * 2)) (zeros CHR_ROM_BANK_SIZE) 0 0)
        (zeros NES_RAM_SIZE).

(** How [main] gets to its loop: it takes the [return 1] that follows a
    failed [parse_ines], or it goes on with a cartridge that a copy has
    overrun, or it enters the loop with a machine. *)
Inductive Start : Type :=
| Refused
| Overrun
| Started (s : NES).

(** [main] from the parsed image to the first iteration of its loop. *)
Definition power_on (image : RomImage) : Start :=
  let nes := nes_zero in
  let (ok, parsed) := parse_ines image (cart nes) in
  if negb ok then Refused else
  match parsed with
  | None => Overrun
  | Some cart' =>
      let nes := set_cart cart' nes in
      let nes := set_ppu (ppu_reset (ppu nes)) nes in
      let (lo, nes) := cpu_read 0xFFFC nes in
      let (hi, nes) := cpu_read 0xFFFD nes in
      let reset_vector := Z.lor lo (Z.shiftl hi 8) in
      Started (set_cpu (cpu_reset (cpu nes) reset_vector) nes)
  end.

(** One iteration of the loop of [main], up to the frame test: service a
    pending NMI, execute one instruction, run three PPU cycles. *)
Definition run_instruction : M unit :=
  nmi ← gets (fun s => nmi_triggered (ppu s));
  (if nmi : bool then cpu_nmi;; upd_ppu (set_nmi_triggered false) else mret tt);;
  cpu_step;;
  upd_ppu ppu_step;;
  upd_ppu ppu_step;;
  upd_ppu ppu_step.

(** *** Well-formed machines *)

(** Every [uint8_t] cell a CPU read can return holds a byte. *)
Definition bytes_ok (s : NES) : Prop :=
  all_u8 (ram s) = true /\
  all_u8 (prg_rom (cart s)) = true /\
  all_u8 (chr_rom (cart s)) = true /\
  all_u8 (vram (ppu s)) = true /\
  all_u8 (palette (ppu s)) = true /\
  all_u8 (oam (ppu s)) = true /\
  0 <= status (ppu s) < 256 /\
  0 <= read_buffer (ppu s) < 256.

(** Bit 5 of [P], as the mask test [(P & 0x20) == 0x20] and as a bit. *)
Definition unused_set (s : NES) : Prop :=
  Z.land (p (cpu s)) FLAG_UNUSED = FLAG_UNUSED.
Definition unused_bit (s : NES) : Prop := Z.testbit (p (cpu s)) 5 = true.

(** [keeps P m]: [m] takes a machine satisfying [P] to one satisfying [P]. *)
Definition keeps {R} (P : NES -> Prop) (m : M R) : Prop :=
  forall s, P s -> P (snd (m s)).

(** The opcode fetch followed by the fetch of a 16-bit operand, as
    [cpu_step] performs them for an absolute-mode instruction. *)
Definition operand16 : M AddrResult := fetch;; addr_absolute.

(** *** The iNES format, as the specification words it *)

(** The mapper number of an iNES header: the upper nibble of byte 6 is its
    low nibble, the upper nibble of byte 7 its high nibble. *)
Definition spec_mapper_number (header : list Z) : Z :=
  Z.lor (Z.shiftr (aget header 6) 4) (Z.land (aget header 7) 0xF0).

(** An image with the given bank counts and flag bytes and a zero payload
    of exactly the announced size. *)
Definition ines_image (prg_banks chr_banks flags6 flags7 : Z) : RomImage :=
  let body := prg_banks * PRG_ROM_BANK_SIZE + chr_banks * CHR_ROM_BANK_SIZE in
  mkRomImage
    (ines_magic ++ [prg_banks; chr_banks; flags6; flags7; 0; 0; 0; 0; 0; 0; 0; 0]
       ++ zeros body)
    (16 + body).

(** *** Example machines *)

(** The machine after [ppu_reset], before any register access. *)
Definition latch_example : NES := set_ppu (ppu_reset (ppu nes_zero)) nes_zero.

(** [latch_example] with the given bytes stored in RAM and the CPU reset to
    start at [start]. *)
Definition ram_example (start : Z) (cells : list (Z * Z)) : NES :=
  set_cpu (cpu_reset (cpu latch_example) start)
    (set_ram (foldl (fun r c => aset r (fst c) (snd c)) (ram latch_example) cells)
             latch_example).

(** Scenario 5: [JSR $0300] at [0x0200] and [RTS] at [0x0300]. *)
Definition jsr_example : NES :=
  ram_example 0x0200 [(0x200, 0x20); (0x201, 0x00); (0x202, 0x03); (0x300, 0x60)].

(** [n] instructions in a row. *)
Definition run_steps (n : nat) (s : NES) : NES :=
  Nat.iter n (fun s => snd (cpu_step s)) s.

(** A one-bank cartridge whose reset vector points to [0x8000], where it
    holds [LDA #$00; PHA; PHA; PHA; RTI]. *)
Definition rti_rom : RomImage :=
  mkRomImage
    (ines_magic ++ [1; 0; 0; 0; 0; 0; 0; 0; 0; 0; 0; 0]
       ++ foldl (fun r c => aset r (fst c) (snd c)) (zeros PRG_ROM_BANK_SIZE)
            [(0, 0xA9); (1, 0x00); (2, 0x48); (3, 0x48); (4, 0x48); (5, 0x40);
             (0x3FFC, 0x00); (0x3FFD, 0x80)])
    (16 + PRG_ROM_BANK_SIZE).

(** Scenario 7: [JMP ($10FF)] at [0x0200]; addresses [0x10FF], [0x1000] and
    [0x1100] are the RAM cells [0x0FF], [0x000] and [0x100]. *)
Definition jmp_example : NES :=
  ram_example 0x0200
    [(0x200, 0x6C); (0x201, 0xFF); (0x202, 0x10);
     (0x0FF, 0x34); (0x000, 0x12); (0x100, 0x56)].

(** The registers of scenario 3: [A = 0x50], carry clear. *)
Definition adc_example : CPU := mkCPU 0x50 0 0 0xFD 0x24 0x8000 7.

(** The machine [main] starts its loop with for the cartridge [rti_rom]. *)
Definition rti_machine : NES :=
  match power_on rti_rom with Started s => s | _ => nes_zero end.

(** The position of the PPU in its frame: 262 scanlines of 341 cycles. *)
Definition dot (u : PPU) : Z := scanline u * 341 + cycle u.
Definition DOTS_PER_FRAME : Z := 262 * 341.

(** [cycle] and [scanline] are inside the frame. *)
Definition in_frame (u : PPU) : Prop :=
  0 <= cycle u < 341 /\ 0 <= scanline u < 262.

(** [s] agrees with [s0] on what the CPU has no way to change: the program
    ROM and the two sizes of the cartridge, the framebuffer, and the
    position and the NMI request of the PPU. *)
Definition untouched (s0 s : NES) : Prop :=
  prg_rom (cart s) = prg_rom (cart s0) /\
  prg_rom_size (cart s) = prg_rom_size (cart s0) /\
  chr_rom_size (cart s) = chr_rom_size (cart s0) /\
  framebuffer (ppu s) = framebuffer (ppu s0) /\
  scanline (ppu s) = scanline (ppu s0) /\
  cycle (ppu s) = cycle (ppu s0) /\
  nmi_triggered (ppu s) = nmi_triggered (ppu s0).

(** *** Writing frames *)

(** The bytes of the header [render_frame] prints: [P6], the two sizes and
    the maximal value, each line ended by a newline. *)
Definition ppm_header : list Z :=
  [80; 54; 10; 50; 53; 54; 32; 50; 52; 48; 10; 50; 53; 53; 10].

(** The bytes [render_frame] writes to the file it has opened: the header
    and, for every cell of the framebuffer, its shade three times. *)
Definition render_frame (nes : NES) : list Z :=
  ppm_header ++
  (i ← seqZ 0 (FRAME_WIDTH * FRAME_HEIGHT);
   let shade := aget (framebuffer (ppu nes)) i in [shade; shade; shade]).

(** The locals of [main] in its loop, and the frames written so far, newest
    first, each with the number that names its file. *)
Record Driver : Type := mkDriver {
  machine : NES;
  rendered : Z;
  last_scanline : Z;
  frames_out : list (Z * list Z)
}.

(** The state of [main] when it enters its loop. *)
Definition main_start (nes : NES) : Driver :=
  mkDriver nes 0 (scanline (ppu nes)) [].

(** The body of the loop of [main]. *)
Definition main_iteration (d : Driver) : Driver :=
  let nes := snd (run_instruction (machine d)) in
  let frame_done := (scanline (ppu nes) =? 0) && (last_scanline d =? 261) in
  mkDriver nes
    (if frame_done then rendered d + 1 else rendered d)
    (scanline (ppu nes))
    (if frame_done then (rendered d, render_frame nes) :: frames_out d
     else frames_out d).

(** [while (rendered < frames)], with a bound on the iterations. *)
Fixpoint main_loop (fuel : nat) (frames : Z) (d : Driver) : Driver :=
  match fuel with
  | O => d
  | S fuel' =>
      if rendered d <? frames then main_loop fuel' frames (main_iteration d)
      else d
  end.

(** *** Tables read off the [switch] of [cpu_step] *)

(** The opcodes that have a [case]. *)
Definition decoded_opcodes : list Z :=
  [0x00; 0x01; 0x05; 0x06; 0x08; 0x09; 0x0A; 0x0D; 0x0E; 0x10; 0x11; 0x15; 0x16;
   0x18; 0x19; 0x1D; 0x1E; 0x20; 0x21; 0x24; 0x25; 0x26; 0x28; 0x29; 0x2A; 0x2C;
   0x2D; 0x2E; 0x30; 0x31; 0x35; 0x36; 0x38; 0x39; 0x3D; 0x3E; 0x40; 0x41; 0x45;
   0x46; 0x48; 0x49; 0x4A; 0x4C; 0x4D; 0x4E; 0x50; 0x51; 0x55; 0x56; 0x58; 0x59;
   0x5D; 0x5E; 0x60; 0x61; 0x65; 0x66; 0x68; 0x69; 0x6A; 0x6C; 0x6D; 0x6E; 0x70;
   0x71; 0x75; 0x76; 0x78; 0x79; 0x7D; 0x7E; 0x81; 0x84; 0x85; 0x86; 0x88; 0x8A;
   0x8C; 0x8D; 0x8E; 0x90; 0x91; 0x94; 0x95; 0x96; 0x98; 0x99; 0x9A; 0x9D; 0xA0;
   0xA1; 0xA2; 0xA4; 0xA5; 0xA6; 0xA8; 0xA9; 0xAA; 0xAC; 0xAD; 0xAE; 0xB0; 0xB1;
   0xB4; 0xB5; 0xB6; 0xB8; 0xB9; 0xBA; 0xBC; 0xBD; 0xBE; 0xC0; 0xC1; 0xC4; 0xC5;
   0xC6; 0xC8; 0xC9; 0xCA; 0xCC; 0xCD; 0xCE; 0xD0; 0xD1; 0xD5; 0xD6; 0xD8; 0xD9;
   0xDD; 0xDE; 0xE0; 0xE1; 0xE4; 0xE5; 0xE6; 0xE8; 0xE9; 0xEA; 0xEC; 0xED; 0xEE;
   0xF0; 0xF1; 0xF5; 0xF6; 0xF8; 0xF9; 0xFD; 0xFE].

Definition is_decoded (opcode : Z) : bool := existsb (Z.eqb opcode) decoded_opcodes.

(** The eight branch opcodes, each with the flag of [P] it tests and the
    value of the flag on which it branches. *)
Definition branch_test (opcode : Z) : option (Z * bool) :=
  match opcode with
  | 0x10 => Some (7, false)
  | 0x30 => Some (7, true)
  | 0x50 => Some (6, false)
  | 0x70 => Some (6, true)
  | 0x90 => Some (0, false)
  | 0xB0 => Some (0, true)
  | 0xD0 => Some (1, false)
  | 0xF0 => Some (1, true)
  | _ => None
  end.

End Nessy.

(* ===================================================================== *)
(** ** Facts about fixed-width values *)
(* ===================================================================== *)


Lemma testbit_u8 v n : Z.testbit (u8 v) n = (n <? 8) && Z.testbit v n.
Proof.
  unfold u8. change 256 with (2 ^ 8).
  destruct (Z.ltb_spec n 8) as [Hlt|Hge]; cbn [andb].
  - destruct (Z.neg_nonneg_cases n) as [Hn|Hn].
    + now rewrite !Z.testbit_neg_r.
    + apply Z.mod_pow2_bits_low. lia.
  - apply Z.mod_pow2_bits_high. lia.
Qed.

Lemma testbit_u16 v n : Z.testbit (u16 v) n = (n <? 16) && Z.testbit v n.
Proof.
  unfold u16. change 65536 with (2 ^ 16).
  destruct (Z.ltb_spec n 16) as [Hlt|Hge]; cbn [andb].
  - destruct (Z.neg_nonneg_cases n) as [Hn|Hn].
    + now rewrite !Z.testbit_neg_r.
    + apply Z.mod_pow2_bits_low. lia.
  - apply Z.mod_pow2_bits_high. lia.
Qed.

Lemma u8_range v : 0 <= u8 v < 256.
Proof. unfold u8. apply Z.mod_pos_bound. lia. Qed.

Lemma u16_range v : 0 <= u16 v < 65536.
Proof. unfold u16. apply Z.mod_pos_bound. lia. Qed.

Lemma u8_u8 v : u8 (u8 v) = u8 v.
Proof. unfold u8. apply Z.mod_mod. lia. Qed.

Lemma u16_u16 v : u16 (u16 v) = u16 v.
Proof. unfold u16. apply Z.mod_mod. lia. Qed.

Lemma u8_small v : 0 <= v < 256 -> u8 v = v.
Proof. intros H. unfold u8. now apply Z.mod_small. Qed.

Lemma u16_small v : 0 <= v < 65536 -> u16 v = v.
Proof. intros H. unfold u16. now apply Z.mod_small. Qed.

(** A mask with one bit selects that bit. *)
Lemma truthy_land_pow2 v k :
  0 <= k -> truthy (Z.land v (2 ^ k)) = Z.testbit v k.
Proof.
  intros Hk. unfold truthy.
  destruct (Z.testbit v k) eqn:E.
  - apply negb_true_iff, Z.eqb_neq. intros H0.
    assert (Hb : Z.testbit (Z.land v (2 ^ k)) k = true)
      by (rewrite Z.land_spec, E, Z.pow2_bits_true by lia; reflexivity).
    rewrite H0, Z.bits_0 in Hb. discriminate.
  - apply negb_false_iff, Z.eqb_eq. apply Z.bits_inj'. intros n Hn.
    rewrite Z.land_spec, Z.bits_0, Z.pow2_bits_eqb by lia.
    destruct (Z.eqb_spec k n) as [->|]; [now rewrite E | apply andb_false_r].
Qed.

(** Bit 7 of a byte is its sign. *)
Lemma testbit7_byte v : 0 <= v < 256 -> Z.testbit v 7 = (128 <=? v).
Proof.
  intros H. rewrite Z.testbit_odd, Z.shiftr_div_pow2 by lia.
  change (2 ^ 7) with 128.
  destruct (Z.leb_spec 128 v).
  - replace (v / 128) with 1 by (apply Z.div_unique with (v - 128); lia).
    reflexivity.
  - now rewrite Z.div_small by lia.
Qed.

(** Rewriting of [Z.testbit] through the bitwise operators; the index must
    be known to be non-negative. *)
Ltac bits :=
  repeat first
    [ rewrite testbit_u8 | rewrite testbit_u16
    | rewrite Z.lor_spec | rewrite Z.land_spec | rewrite Z.lxor_spec
    | rewrite Z.lnot_spec by lia
    | rewrite Z.shiftl_spec by lia
    | rewrite Z.shiftr_spec by lia ].

Ltac is_pos_const c :=
  lazymatch c with
  | xH => idtac
  | xO ?q => is_pos_const q
  | xI ?q => is_pos_const q
  end.
Ltac is_Z_const c :=
  lazymatch c with
  | Z0 => idtac
  | Zpos ?q => is_pos_const q
  | Zneg ?q => is_pos_const q
  end.

(** Case split of a goal on the values of [n], from [lo] up to the bound the
    hypotheses put on [n]; values the hypotheses exclude produce no case. *)
Ltac each_value n lo :=
  first
    [ solve [ exfalso; lia ]
    | let lo' := eval vm_compute in (lo + 1) in
      destruct (Z.eq_dec n lo) as [->|?];
      [ try solve [ exfalso; lia ] | each_value n lo' ] ].

(** Evaluation of the closed arithmetic [bits] leaves behind. *)
Ltac closed_bits :=
  repeat match goal with
    | |- context [Z.testbit ?c ?n] =>
        is_Z_const c; is_Z_const n;
        let b := eval vm_compute in (Z.testbit c n) in
        change (Z.testbit c n) with b
    | |- context [Z.testbit ?c (Zneg ?q)] =>
        change (Z.testbit c (Zneg q)) with false
    | |- context [?u - ?v] =>
        is_Z_const u; is_Z_const v;
        let r := eval vm_compute in (u - v) in change (u - v) with r
    | |- context [?u + ?v] =>
        is_Z_const u; is_Z_const v;
        let r := eval vm_compute in (u + v) in change (u + v) with r
    | |- context [?u <? ?v] =>
        is_Z_const u; is_Z_const v;
        let r := eval vm_compute in (u <? v) in change (u <? v) with r
    end;
  cbn [andb orb negb xorb];
  rewrite ?andb_true_r, ?andb_false_r, ?orb_true_r, ?orb_false_r.

(* ===================================================================== *)
(** ** Properties of DuoVM *)
(* ===================================================================== *)

Module DuoVMProofs.
Import DuoVM.

Lemma bind_done {R S} (m : M R) (k : R -> M S) s r s1 :
  m s = Done r s1 -> (m ≫= k) s = k r s1.
Proof. intros H. unfold mbind, M_bind. now rewrite H. Qed.

Lemma bind_inv {R S} (m : M R) (k : R -> M S) s x s' :
  (m ≫= k) s = Done x s' ->
  exists r s1, m s = Done r s1 /\ k r s1 = Done x s'.
Proof.
  unfold mbind, M_bind. destruct (m s) as [r s1| |]; try discriminate.
  intros H. now exists r, s1.
Qed.

(** *** The address check cannot fail *)

Lemma check_addr_done addr s : check_addr addr s = Done tt s.
Proof.
  unfold check_addr, MEM_SIZE. cbv zeta. pose proof (u16_range addr).
  destruct (Z.leb_spec 65536 (u16 addr)); [lia | reflexivity].
Qed.

Lemma mem_read_done addr s :
  mem_read addr s = Done (aget (memory s) (u16 addr)) s.
Proof. unfold mem_read. now rewrite (bind_done _ _ _ _ _ (check_addr_done (u16 addr) s)). Qed.

Lemma mem_write_cases addr v s :
  (u16 addr < SRAM_START /\ mem_write addr v s = Exit (WriteToROM (u16 addr))) \/
  (SRAM_START <= u16 addr /\
   mem_write addr v s = Done tt (set_memory (aset (memory s) (u16 addr) (u8 v)) s)).
Proof.
  unfold mem_write. rewrite (bind_done _ _ _ _ _ (check_addr_done (u16 addr) s)).
  destruct (Z.ltb_spec (u16 addr) SRAM_START); [left | right]; now split.
Qed.

Lemma mem_read16_done addr s :
  mem_read16 addr s =
  Done (u16 (Z.lor (aget (memory s) (u16 addr))
                   (Z.shiftl (aget (memory s) (u16 (u16 addr + 1))) 8))) s.
Proof.
  unfold mem_read16.
  rewrite (bind_done _ _ _ _ _ (mem_read_done (u16 addr) s)).
  rewrite (bind_done _ _ _ _ _ (mem_read_done (u16 addr + 1) s)).
  now rewrite u16_u16.
Qed.

Lemma no_oob_ret {R} (r : R) : no_oob (mret r).
Proof. intros s a. discriminate. Qed.

Lemma no_oob_bind {R S} (m : M R) (k : R -> M S) :
  no_oob m -> (forall r, no_oob (k r)) -> no_oob (m ≫= k).
Proof.
  intros Hm Hk s a. unfold mbind, M_bind.
  destruct (m s) as [r s1|f|] eqn:E; [apply Hk | | discriminate].
  intros [= ->]. exact (Hm s a E).
Qed.

Lemma no_oob_gets {R} (f : VM -> R) : no_oob (gets f).
Proof. intros s a. discriminate. Qed.

Lemma no_oob_modify f : no_oob (modify f).
Proof. intros s a. discriminate. Qed.

Lemma no_oob_when b m : no_oob m -> no_oob (when b m).
Proof. destruct b; [trivial | intros _; apply no_oob_ret]. Qed.

Lemma no_oob_if {R} (b : bool) (m1 m2 : M R) :
  no_oob m1 -> no_oob m2 -> no_oob (if b then m1 else m2).
Proof. now destruct b. Qed.

Lemma no_oob_mem_read addr : no_oob (mem_read addr).
Proof. intros s a. now rewrite mem_read_done. Qed.

Lemma no_oob_mem_write addr v : no_oob (mem_write addr v).
Proof.
  intros s a. destruct (mem_write_cases addr v s) as [[_ ->]|[_ ->]]; discriminate.
Qed.

Lemma no_oob_mem_read16 addr : no_oob (mem_read16 addr).
Proof. intros s a. now rewrite mem_read16_done. Qed.

Lemma no_oob_read_button : no_oob read_button.
Proof.
  intros s a. unfold read_button.
  destruct (scan_keys (keys s)) as [[b rest]|]; discriminate.
Qed.

Create HintDb no_oob.
#[local] Hint Resolve no_oob_ret no_oob_gets no_oob_modify no_oob_when no_oob_if
  no_oob_mem_read no_oob_mem_write no_oob_mem_read16 no_oob_read_button : no_oob.

Ltac no_oob_steps :=
  repeat match goal with
    | |- no_oob _ => solve [ auto with no_oob ]
    | |- no_oob (_ ≫= _) => apply no_oob_bind; [ | intros ? ]
    | |- no_oob (when _ _) => apply no_oob_when
    | |- no_oob (if _ then _ else _) => apply no_oob_if
    end.

Lemma no_oob_fetch : no_oob fetch.
Proof. unfold fetch. no_oob_steps. Qed.

Lemma no_oob_write_alu_dest dest val : no_oob (write_alu_dest dest val).
Proof. unfold write_alu_dest. cbv zeta. no_oob_steps. Qed.

Lemma no_oob_put_char_vm ch : no_oob (put_char_vm ch).
Proof. unfold put_char_vm. cbv zeta. no_oob_steps. Qed.

#[local] Hint Resolve no_oob_fetch no_oob_write_alu_dest no_oob_put_char_vm : no_oob.

Lemma no_oob_execute opcode : no_oob (execute opcode).
Proof. unfold execute. cbv zeta. no_oob_steps. Qed.

Lemma no_oob_step : no_oob step.
Proof. unfold step. apply no_oob_bind; [apply no_oob_fetch | apply no_oob_execute]. Qed.

(** C9: the out-of-bounds abort of DuoVM is unreachable.  The accessors
    take their address as a 16-bit value, so [check_addr] always passes:
    [mem_read] always returns the addressed byte, [mem_write] can only stop
    with the ROM-write message, no instruction ends in the out-of-bounds
    abort, and [mem_read16] at [0xFFFF] takes its high byte from address 0. *)
Theorem oob_abort_unreachable :
  (forall addr s, check_addr addr s = Done tt s) /\
  (forall addr s, mem_read addr s = Done (aget (memory s) (u16 addr)) s) /\
  (forall addr v s f, mem_write addr v s = Exit f -> f = WriteToROM (u16 addr)) /\
  (forall s a, step s <> Exit (MemoryOOB a)) /\
  (forall s, mem_read16 0xFFFF s =
             Done (u16 (Z.lor (aget (memory s) 0xFFFF)
                              (Z.shiftl (aget (memory s) 0x0000) 8))) s).
Proof.
  split; [exact check_addr_done |].
  split; [exact mem_read_done |].
  split.
  - intros addr v s f H.
    destruct (mem_write_cases addr v s) as [[_ E]|[_ E]]; rewrite E in H;
      [now injection H as <- | discriminate].
  - split; [exact no_oob_step |].
    intros s. now rewrite mem_read16_done.
Qed.

(** *** The cursor *)

Section Preserves.
Variable P : VM -> Prop.

Lemma preserves_ret {R} (r : R) : preserves P (mret r).
Proof. intros s r' s' HP [= _ <-]. exact HP. Qed.

Lemma preserves_bind {R S} (m : M R) (k : R -> M S) :
  preserves P m -> (forall r, preserves P (k r)) -> preserves P (m ≫= k).
Proof.
  intros Hm Hk s x s' HP H.
  destruct (bind_inv _ _ _ _ _ H) as (r & s1 & E1 & E2).
  exact (Hk r s1 x s' (Hm s r s1 HP E1) E2).
Qed.

Lemma preserves_gets {R} (f : VM -> R) : preserves P (gets f).
Proof. intros s r s' HP [= _ <-]. exact HP. Qed.

Lemma preserves_modify f : (forall s, P s -> P (f s)) -> preserves P (modify f).
Proof. intros Hf s r s' HP H. inversion H; subst. now apply Hf. Qed.

Lemma preserves_exit {R} f : preserves P (exit (R:=R) f).
Proof. intros s r s' _ [=]. Qed.

Lemma preserves_when b m : (b = true -> preserves P m) -> preserves P (when b m).
Proof. destruct b; intros H; [now apply H | apply preserves_ret]. Qed.

Lemma preserves_if {R} (b : bool) (m1 m2 : M R) :
  preserves P m1 -> preserves P m2 -> preserves P (if b then m1 else m2).
Proof. now destruct b. Qed.

Lemma preserves_mem_read addr : preserves P (mem_read addr).
Proof. intros s r s' HP. rewrite mem_read_done. now intros [= _ <-]. Qed.

Lemma preserves_mem_read16 addr : preserves P (mem_read16 addr).
Proof. intros s r s' HP. rewrite mem_read16_done. now intros [= _ <-]. Qed.
End Preserves.

Lemma preserves_mem_write addr v : preserves cursor_ok (mem_write addr v).
Proof.
  intros s r s' HP H.
  destruct (mem_write_cases addr v s) as [[_ E]|[_ E]]; rewrite E in H;
    [discriminate | inversion H; subst; exact HP].
Qed.

Lemma preserves_read_button : preserves cursor_ok read_button.
Proof.
  intros s r s' HP. unfold read_button.
  destruct (scan_keys (keys s)) as [[b rest]|]; [ | discriminate ].
  intros [= _ <-]. exact HP.
Qed.

(** [put_char_vm] wraps the column at [SCREEN_W] and the row at [SCREEN_H]. *)
Lemma preserves_put_char_vm ch : preserves cursor_ok (put_char_vm ch).
Proof.
  intros s r s' [Hx Hy]. unfold SCREEN_W, SCREEN_H in Hx, Hy.
  unfold put_char_vm, mbind, M_bind, modify, gets, when. cbn.
  assert (Ex : u8 (cur_x s + 1) = cur_x s + 1)
    by (unfold u8; apply Z.mod_small; lia).
  rewrite Ex. unfold SCREEN_W, SCREEN_H.
  destruct (Z.leb_spec 36 (cur_x s + 1)); cbn.
  - assert (Ey : u8 (cur_y s + 1) = cur_y s + 1)
      by (unfold u8; apply Z.mod_small; lia).
    rewrite Ey.
    destruct (Z.leb_spec 24 (cur_y s + 1)); cbn; intros H1; inversion H1; subst;
      unfold cursor_ok, SCREEN_W, SCREEN_H; cbn; lia.
  - intros H1; inversion H1; subst. unfold cursor_ok, SCREEN_W, SCREEN_H; cbn; lia.
Qed.

Lemma foldl_cursor {X} (f : VM -> X -> VM) (l : list X) s :
  (forall s x, cur_x (f s x) = cur_x s /\ cur_y (f s x) = cur_y s) ->
  cur_x (foldl f s l) = cur_x s /\ cur_y (foldl f s l) = cur_y s.
Proof.
  intros Hf. revert s. induction l as [|x l IH]; intros s; [easy|].
  cbn. destruct (IH (f s x)) as [-> ->]. apply Hf.
Qed.

Lemma clear_cells_cursor (rows cols : list Z) s :
  let s' := foldl (fun s y => foldl (fun s x => mvaddch y x 32 s) s cols) s rows in
  cur_x s' = cur_x s /\ cur_y s' = cur_y s.
Proof.
  apply foldl_cursor. intros s1 y. apply foldl_cursor. intros s2 x.
  split; reflexivity.
Qed.

Lemma refresh_cursor s :
  cur_x (refresh s) = cur_x s /\ cur_y (refresh s) = cur_y s.
Proof. split; reflexivity. Qed.

Lemma clear_screen_vm_cursor s :
  cur_x (clear_screen_vm s) = cur_x s /\ cur_y (clear_screen_vm s) = cur_y s.
Proof.
  unfold clear_screen_vm.
  destruct (clear_cells_cursor (seqZ 0 SCREEN_H) (seqZ 0 SCREEN_W) s) as [Ex Ey].
  cbv zeta in Ex, Ey.
  destruct (refresh_cursor
    (foldl (fun s y => foldl (fun s x => mvaddch y x 32 s) s (seqZ 0 SCREEN_W))
           s (seqZ 0 SCREEN_H))) as [-> ->].
  now split.
Qed.

Lemma preserves_clear_screen_vm : preserves cursor_ok (modify clear_screen_vm).
Proof.
  apply preserves_modify. intros s [Hx Hy]. unfold cursor_ok.
  now destruct (clear_screen_vm_cursor s) as [-> ->].
Qed.

Create HintDb cursor.
#[local] Hint Resolve preserves_ret preserves_gets preserves_exit
  preserves_mem_read preserves_mem_read16 preserves_mem_write
  preserves_read_button preserves_put_char_vm preserves_clear_screen_vm : cursor.

(** One syntactic step through a computation that leaves the cursor alone;
    a guard that contradicts a hypothesis on the opcode closes its branch. *)
Ltac cursor_steps :=
  repeat match goal with
    | |- preserves _ _ => solve [ auto with cursor ]
    | |- preserves _ (_ ≫= _) => apply preserves_bind; [ | intros ? ]
    | |- preserves _ (when _ _) =>
        apply preserves_when; intros ?; try (exfalso; lia)
    | |- preserves _ (if _ then _ else _) => apply preserves_if
    | |- preserves _ (modify _) =>
        apply preserves_modify; let s := fresh "s" in
        let H := fresh "H" in intros s H; exact H
    end.

Lemma preserves_fetch : preserves cursor_ok fetch.
Proof. unfold fetch. cursor_steps. Qed.

Lemma preserves_write_alu_dest dest val :
  preserves cursor_ok (write_alu_dest dest val).
Proof. unfold write_alu_dest. cbv zeta. cursor_steps. Qed.

#[local] Hint Resolve preserves_fetch preserves_write_alu_dest : cursor.

Lemma preserves_execute opcode :
  opcode <> 0xA2 -> opcode <> 0xA3 -> preserves cursor_ok (execute opcode).
Proof.
  intros H2 H3.
  assert (E2 : (opcode =? 0xA2) = false) by now apply Z.eqb_neq.
  assert (E3 : (opcode =? 0xA3) = false) by now apply Z.eqb_neq.
  unfold execute. cbv zeta. rewrite E2, E3. cursor_steps.
Qed.

Lemma fetch_done s :
  fetch s = Done (next_opcode s) (set_PC (u16 (PC s + 1)) s).
Proof. unfold fetch, mbind, M_bind, gets, modify. now rewrite mem_read_done. Qed.

(** Evaluation of [execute] at a numeral opcode, up to the memory reads. *)
Ltac closed_guards :=
  repeat match goal with
    | |- context [?u =? ?v] =>
        is_Z_const u; is_Z_const v;
        let r := eval vm_compute in (u =? v) in change (u =? v) with r
    | |- context [Z.land ?u ?v] =>
        is_Z_const u; is_Z_const v;
        let r := eval vm_compute in (Z.land u v) in change (Z.land u v) with r
    end.

Ltac run_execute :=
  unfold execute; cbv zeta; closed_guards;
  cbv beta iota delta [mbind M_bind mret M_ret gets modify when];
  rewrite mem_read_done; cbv beta iota.

Lemma execute_set_x s :
  execute 0xA2 s = Done tt (set_cur_x (aget (memory s) (u16 (A s))) s).
Proof. run_execute. reflexivity. Qed.

Lemma execute_set_y s :
  execute 0xA3 s = Done tt (set_cur_y (aget (memory s) (u16 (A s))) s).
Proof. run_execute. reflexivity. Qed.

(** One instruction keeps the cursor in the grid unless it is a [0xA2] or
    [0xA3] that loads a byte lying outside. *)
Lemma step_keeps_cursor s s' :
  cursor_load_ok s = true ->
  step s = Done tt s' -> cursor_ok s -> cursor_ok s'.
Proof.
  unfold cursor_load_ok. cbv zeta. intros Hop H [Hx Hy].
  unfold step in H. rewrite (bind_done _ _ _ _ _ (fetch_done s)) in H.
  destruct (Z.eqb_spec (next_opcode s) 0xA2) as [E2|H2].
  { rewrite E2, execute_set_x in H. inversion H; subst.
    apply andb_true_iff in Hop as [Hlo Hhi].
    apply Z.leb_le in Hlo. apply Z.ltb_lt in Hhi.
    split; [exact (conj Hlo Hhi) | exact Hy]. }
  destruct (Z.eqb_spec (next_opcode s) 0xA3) as [E3|H3].
  { rewrite E3, execute_set_y in H. inversion H; subst.
    apply andb_true_iff in Hop as [Hlo Hhi].
    apply Z.leb_le in Hlo. apply Z.ltb_lt in Hhi.
    split; [exact Hx | exact (conj Hlo Hhi)]. }
  refine (preserves_execute _ H2 H3 _ _ _ _ H). exact (conj Hx Hy).
Qed.

Lemma cold_start_cursor image input : cursor_ok (cold_start image input).
Proof.
  unfold cold_start, cursor_ok.
  match goal with |- context [clear_screen_vm ?s] =>
    destruct (clear_screen_vm_cursor s) as [-> ->] end.
  unfold SCREEN_W, SCREEN_H. cbn. lia.
Qed.

(** C8 (amended): the cursor stays inside the 36 x 24 grid in every state
    reached from cold start by DuoVM instructions, as long as every [0xA2]
    executed on the way loads a byte below 36 and every [0xA3] a byte below
    24; the two opcodes store [mem[A]] unchecked. *)
Theorem cursor_in_grid_when_loads_in_range image input s :
  reaches cursor_load_ok (cold_start image input) s -> cursor_ok s.
Proof.
  induction 1 as [|s s' _ IH Hop Hstep].
  - apply cold_start_cursor.
  - exact (step_keeps_cursor s s' Hop Hstep IH).
Qed.

Lemma reaches_after allowed s0 s :
  reaches allowed s0 s ->
  allowed s = true ->
  is_done (step s) = true ->
  reaches allowed s0 (after (step s) s).
Proof.
  intros Hr Hop Hd. apply (reaches_step allowed s0 s _ Hr Hop).
  destruct (step s) as [[] s1| |]; [reflexivity | discriminate | discriminate].
Qed.

(** Two instructions of [set_x_in_range_image]: the [0xA2] loads 7. *)
Lemma cursor_in_grid_witness :
  let s0 := cold_start set_x_in_range_image [] in
  let s1 := after (step s0) s0 in
  let s2 := after (step s1) s1 in
  cursor_ok s2 /\ cur_x s2 = 7.
Proof.
  intros s0 s1 s2. split; [|vm_compute; reflexivity].
  apply (cursor_in_grid_when_loads_in_range set_x_in_range_image []).
  apply (reaches_after cursor_load_ok s0 s1);
    [apply (reaches_after cursor_load_ok s0 s0); [apply reaches_refl | |] | |];
    vm_compute; reflexivity.
Defined.

(** C8 as stated fails: one [0xA2] instruction from cold start leaves
    [cur_x = 162], outside [0, 36). *)
Lemma cursor_in_grid_counterexample :
  ~ (forall image input s,
        reaches any_state (cold_start image input) s -> cursor_ok s).
Proof.
  intros H.
  pose (s0 := cold_start set_x_image []).
  assert (Hr : reaches any_state s0 (after (step s0) s0))
    by (apply reaches_after; [apply reaches_refl | reflexivity
                             | vm_compute; reflexivity]).
  destruct (H _ _ _ Hr) as [[_ Hx] _].
  assert (E : cur_x (after (step s0) s0) = 162) by (vm_compute; reflexivity).
  rewrite E in Hx. unfold SCREEN_W in Hx. lia.
Qed.

(** *** Scenarios of the specification *)

(** Scenario 1: [D0 <- 0x2A; SEC; ROL -> mem[A]] with [A = 0xE000] leaves
    [0x55] at [0xE000] and clears the carry. *)
Example rol_scenario :
  let s := after ((step;; step;; step) (set_A 0xE000 (cold_start rol_image [])))
                 (cold_start rol_image []) in
  aget (memory s) 0xE000 = 0x55 /\ C s = false /\ PC s = 4.
Proof. vm_compute. repeat split. Qed.

(** Scenario 2: at column 35 a character moves the cursor to column 0 of
    the next row, and from the last row to row 0. *)
Example cursor_wrap_scenario :
  let s0 := set_cur_x 35 (cold_start rol_image []) in
  let s1 := after (put_char_vm 90 s0) s0 in
  let s2 := after (put_char_vm 90 (set_cur_x 35 (set_cur_y 23 s0))) s0 in
  (cur_x s1 = 0 /\ cur_y s1 = 1) /\ (cur_x s2 = 0 /\ cur_y s2 = 0).
Proof. vm_compute. repeat split. Qed.

(** A write below [SRAM_START] stops the machine with the ROM-write message. *)
Example rom_write_scenario :
  mem_write 0xDFFF 1 (cold_start rol_image []) = Exit (WriteToROM 0xDFFF).
Proof. vm_compute. reflexivity. Qed.

End DuoVMProofs.

(* ===================================================================== *)
(** ** Properties of Nessy *)
(* ===================================================================== *)

Module NessyProofs.
Import Nessy.

(** *** Status flags *)

Lemma p_set_p v c : p (set_p v c) = v.
Proof. reflexivity. Qed.
Lemma p_set_a v c : p (set_a v c) = p c.
Proof. reflexivity. Qed.
Lemma a_set_p v c : a (set_p v c) = a c.
Proof. reflexivity. Qed.
Lemma a_set_a v c : a (set_a v c) = v.
Proof. reflexivity. Qed.

Lemma if_set_p (b : bool) v1 v2 c :
  (if b then set_p v1 c else set_p v2 c) = set_p (if b then v1 else v2) c.
Proof. now destruct b. Qed.

(** [if (b) p |= 1 << k; else p &= ~(1 << k);] writes [b] into bit [k]. *)
Lemma testbit_assign (b : bool) pv k n :
  0 <= k < 8 -> 0 <= n ->
  Z.testbit (if b then u8 (Z.lor pv (2 ^ k)) else u8 (Z.land pv (Z.lnot (2 ^ k)))) n
  = if n =? k then b else (n <? 8) && Z.testbit pv n.
Proof.
  intros Hk Hn.
  destruct b; bits; rewrite Z.pow2_bits_eqb by lia;
    rewrite (Z.eqb_sym k n);
    destruct (Z.eqb_spec n k) as [->|Hne]; cbn;
    rewrite ?orb_true_r, ?orb_false_r, ?andb_true_r, ?andb_false_r; try reflexivity.
  destruct (Z.ltb_spec k 8); [reflexivity | lia].
Qed.

Lemma cpu_set_zn_frame v c :
  a (cpu_set_zn v c) = a c /\ x (cpu_set_zn v c) = x c /\
  y (cpu_set_zn v c) = y c /\ sp (cpu_set_zn v c) = sp c /\
  pc (cpu_set_zn v c) = pc c /\ cycles (cpu_set_zn v c) = cycles c.
Proof.
  unfold cpu_set_zn. cbv zeta.
  destruct (u8 v =? 0), (truthy (Z.land (u8 v) 128)); repeat split.
Qed.

Lemma cpu_set_zn_p v c n :
  0 <= n ->
  Z.testbit (p (cpu_set_zn v c)) n =
  if n =? 1 then u8 v =? 0
  else if n =? 7 then Z.testbit (u8 v) 7
  else (n <? 8) && Z.testbit (p c) n.
Proof.
  intros Hn. unfold cpu_set_zn. cbv zeta. rewrite !if_set_p, !p_set_p.
  change FLAG_ZERO with (2 ^ 1). change FLAG_NEGATIVE with (2 ^ 7).
  change 128 with (2 ^ 7). rewrite truthy_land_pow2 by lia.
  rewrite !testbit_assign by lia.
  destruct (Z.eqb_spec n 7) as [->|H7]; [reflexivity|].
  destruct (Z.eqb_spec n 1) as [->|H1]; [reflexivity|].
  now destruct (n <? 8).
Qed.

(** The flags [cpu_adc] computes, bit by bit of the new [P]. *)
Lemma cpu_adc_p v c n :
  0 <= n ->
  let sum := u16 (a c + u8 v + (if Z.testbit (p c) 0 then 1 else 0)) in
  Z.testbit (p (cpu_adc v c)) n =
  if n =? 1 then u8 sum =? 0
  else if n =? 7 then Z.testbit (u8 sum) 7
  else if n =? 6 then
    negb (xorb (Z.testbit (a c) 7) (Z.testbit (u8 v) 7))
    && xorb (Z.testbit (a c) 7) (Z.testbit (u8 sum) 7)
  else if n =? 0 then 0xFF <? sum
  else (n <? 8) && Z.testbit (p c) n.
Proof.
  intros Hn. unfold cpu_adc. cbv zeta. rewrite !if_set_p.
  rewrite cpu_set_zn_p by exact Hn.
  rewrite ?a_set_a, ?p_set_a, ?a_set_p, ?p_set_p.
  change FLAG_CARRY with (2 ^ 0). change FLAG_OVERFLOW with (2 ^ 6).
  change 128 with (2 ^ 7).
  rewrite !truthy_land_pow2 by lia.
  rewrite Z.land_spec, Z.lxor_spec, Z.lnot_spec, Z.lxor_spec by lia.
  rewrite !testbit_assign by lia.
  rewrite u8_u8.
  destruct (Z.eqb_spec n 1) as [->|H1]; [reflexivity|].
  destruct (Z.eqb_spec n 7) as [->|H7]; [reflexivity|].
  destruct (Z.eqb_spec n 6) as [->|H6]; [reflexivity|].
  destruct (Z.eqb_spec n 0) as [->|H0]; [reflexivity|].
  now destruct (n <? 8).
Qed.

Lemma cpu_adc_frame v c :
  a (cpu_adc v c) = u8 (u16 (a c + u8 v + (if Z.testbit (p c) 0 then 1 else 0))) /\
  x (cpu_adc v c) = x c /\ y (cpu_adc v c) = y c /\ sp (cpu_adc v c) = sp c /\
  pc (cpu_adc v c) = pc c /\ cycles (cpu_adc v c) = cycles c.
Proof.
  unfold cpu_adc. cbv zeta. rewrite !if_set_p.
  match goal with |- context [cpu_set_zn ?w ?d] =>
    destruct (cpu_set_zn_frame w d) as (-> & -> & -> & -> & -> & ->) end.
  rewrite ?a_set_a, ?a_set_p.
  change FLAG_CARRY with (2 ^ 0). rewrite truthy_land_pow2 by lia.
  repeat split.
Qed.

(** *** ADC *)

(** C5: [cpu_adc] on an accumulator [A] and operand byte [M] with carry-in
    [C] computes [r = A + M + C]; the new carry is [r > 0xFF], the new [A]
    is [r mod 256], [V] is set exactly when the two's-complement sum of
    [A], [M] and [C] leaves [-128, 127], [Z] and [N] describe the new [A],
    the other flags and every other register are unchanged. *)
Theorem adc_spec (c : CPU) (m : Z) :
  0 <= a c < 256 -> 0 <= m < 256 ->
  let cin := if Z.testbit (p c) 0 then 1 else 0 in
  let r := a c + m + cin in
  let signed_sum := s8 (a c) + s8 m + cin in
  let c' := cpu_adc m c in
  a c' = r mod 256 /\
  Z.testbit (p c') 0 = (0xFF <? r) /\
  Z.testbit (p c') 6 = negb ((-128 <=? signed_sum) && (signed_sum <=? 127)) /\
  Z.testbit (p c') 1 = (a c' =? 0) /\
  Z.testbit (p c') 7 = Z.testbit (a c') 7 /\
  (forall n, 2 <= n <= 5 -> Z.testbit (p c') n = Z.testbit (p c) n) /\
  x c' = x c /\ y c' = y c /\ sp c' = sp c /\ pc c' = pc c /\
  cycles c' = cycles c.
Proof.
  intros Ha Hm cin r signed_sum c'.
  assert (Hcin : 0 <= cin <= 1) by (subst cin; destruct (Z.testbit (p c) 0); lia).
  assert (Hsum : u16 (a c + u8 m + cin) = r)
    by (rewrite (u8_small m Hm); apply u16_small; subst r; lia).
  destruct (cpu_adc_frame m c) as (Ea & Ex & Ey & Es & Epc & Ecy).
  fold cin in Ea. rewrite Hsum in Ea. fold c' in Ea, Ex, Ey, Es, Epc, Ecy.
  assert (Hp : forall n, 0 <= n -> Z.testbit (p c') n = _)
    by (intros n Hn; exact (cpu_adc_p m c n Hn)).
  cbv zeta in Hp. fold cin in Hp. rewrite Hsum in Hp.
  split; [exact Ea|].
  split; [now rewrite Hp by lia|].
  split.
  - rewrite Hp by lia. cbn [Z.eqb]. subst signed_sum. unfold s8.
    rewrite (u8_small m Hm), (u8_small (a c) Ha).
    rewrite (testbit7_byte (a c) Ha), (testbit7_byte m Hm),
      (testbit7_byte (u8 r) (u8_range r)).
    unfold u8.
    destruct (Z.leb_spec 128 (a c)), (Z.leb_spec 128 m),
      (Z.leb_spec 128 (r mod 256)), (Z.ltb_spec (a c) 128), (Z.ltb_spec m 128);
      try lia; cbn [xorb negb andb];
      match goal with |- _ = negb ((?u <=? ?v) && (?w <=? ?z)) =>
        destruct (Z.leb_spec u v), (Z.leb_spec w z) end;
      cbn [negb andb]; try reflexivity; exfalso; subst r;
      Z.div_mod_to_equations; lia.
  - split; [rewrite Hp, Ea by lia; reflexivity|].
    split; [rewrite Hp, Ea by lia; reflexivity|].
    split; [|now repeat split].
    intros n Hn. rewrite Hp by lia.
    destruct (Z.eqb_spec n 1), (Z.eqb_spec n 7), (Z.eqb_spec n 6),
      (Z.eqb_spec n 0), (Z.ltb_spec n 8); try lia. reflexivity.
Qed.

(** Scenario 3 of the specification: [A = 0x50], [M = 0x50], [C = 0]. *)
Lemma adc_spec_witness :
  let c' := cpu_adc 0x50 adc_example in
  a c' = 0xA0 /\ Z.testbit (p c') 0 = false /\ Z.testbit (p c') 6 = true /\
  Z.testbit (p c') 1 = false /\ Z.testbit (p c') 7 = true.
Proof.
  destruct (adc_spec adc_example 0x50) as (Ha & HC & HV & HZ & HN & _);
    [cbn; lia | lia |].
  cbv zeta. rewrite Ha, HC, HV, HZ, HN, Ha. repeat split.
Defined.

(** *** PPU registers *)

Lemma land7_mod8 v : Z.land v 7 = v mod 8.
Proof. change 7 with (Z.ones 3). rewrite Z.land_ones by lia. reflexivity. Qed.

(** A CPU access to [0x2000-0x3FFF] is an access to a PPU register. *)
Lemma cpu_write_ppu ad v s :
  0x2000 <= ad < 0x4000 ->
  cpu_write ad v s = ppu_write_register ad v s.
Proof.
  intros H. unfold cpu_write. cbv zeta. rewrite (u16_small ad) by lia.
  destruct (Z.ltb_spec ad 0x2000); [lia|].
  destruct (Z.ltb_spec ad 0x4000); [|lia].
  unfold ppu_write_register. cbv zeta. now rewrite (u16_small ad), u8_u8 by lia.
Qed.

Lemma cpu_read_ppu ad s :
  0x2000 <= ad < 0x4000 ->
  cpu_read ad s = ppu_read_register ad s.
Proof.
  intros H. unfold cpu_read. cbv zeta. rewrite (u16_small ad) by lia.
  destruct (Z.ltb_spec ad 0x2000); [lia|].
  destruct (Z.ltb_spec ad 0x4000); [|lia].
  unfold ppu_read_register. cbv zeta. now rewrite (u16_small ad) by lia.
Qed.

Lemma ppu_write_register_0 ad v s :
  0 <= ad < 65536 -> ad mod 8 = 0 ->
  ppu_write_register ad v s =
  (tt, set_ppu
         (set_temp_addr
            (u16 (Z.lor (Z.land (temp_addr (ppu s)) 0xF3FF)
                        (Z.shiftl (Z.land (u8 v) 0x03) 10)))
            (set_ctrl (u8 v) (ppu s))) s).
Proof.
  intros Ha H. unfold ppu_write_register. cbv zeta.
  rewrite (u16_small ad), land7_mod8, H by lia. reflexivity.
Qed.

(** C10: a write to PPU register 0 stores the value in [ctrl] and copies its
    bits 0-1 into bits 10-11 of [temp_addr]; the other bits of [temp_addr],
    [vram_addr], [fine_x] and the two write latches keep their values. *)
Theorem ppu_ctrl_write_effect (s : NES) (ad v : Z) :
  0x2000 <= ad < 0x4000 -> ad mod 8 = 0 ->
  let s' := snd (cpu_write ad v s) in
  ctrl (ppu s') = u8 v /\
  Z.testbit (temp_addr (ppu s')) 10 = Z.testbit v 0 /\
  Z.testbit (temp_addr (ppu s')) 11 = Z.testbit v 1 /\
  (forall n, 0 <= n < 16 -> n <> 10 -> n <> 11 ->
     Z.testbit (temp_addr (ppu s')) n = Z.testbit (temp_addr (ppu s)) n) /\
  vram_addr (ppu s') = vram_addr (ppu s) /\
  fine_x (ppu s') = fine_x (ppu s) /\
  scroll_latch (ppu s') = scroll_latch (ppu s) /\
  addr_latch (ppu s') = addr_latch (ppu s).
Proof.
  intros Ha H8 s'. subst s'.
  rewrite cpu_write_ppu, ppu_write_register_0 by lia.
  cbn [snd ppu set_ppu set_temp_addr set_ctrl ctrl temp_addr vram_addr fine_x
       scroll_latch addr_latch].
  split; [reflexivity|].
  split; [bits; closed_bits; reflexivity|].
  split; [bits; closed_bits; reflexivity|].
  split; [|repeat split].
  intros n Hn H10 H11.
  each_value n 0; bits; closed_bits; reflexivity.
Qed.

(** A write of [0x03] to [$2000] on the machine as [main] zeroes it. *)
Lemma ppu_ctrl_write_witness :
  let s' := snd (cpu_write 0x2000 0x03 nes_zero) in
  ctrl (ppu s') = 0x03 /\
  Z.testbit (temp_addr (ppu s')) 10 = true /\
  Z.testbit (temp_addr (ppu s')) 11 = true /\
  vram_addr (ppu s') = 0 /\ scroll_latch (ppu s') = 0 /\ addr_latch (ppu s') = 0.
Proof.
  destruct (ppu_ctrl_write_effect nes_zero 0x2000 0x03)
    as (Hc & H10 & H11 & _ & Hv & _ & Hs & Hl); [lia | reflexivity |].
  cbv zeta. rewrite Hc, H10, H11, Hv, Hs, Hl. repeat split.
Defined.

Lemma ppu_read_register_2 ad s :
  0 <= ad < 65536 -> ad mod 8 = 2 ->
  ppu_read_register ad s =
  (status (ppu s),
   set_ppu (set_addr_latch 0
              (set_status (u8 (Z.land (status (ppu s)) (Z.lnot 0x80))) (ppu s))) s).
Proof.
  intros Ha H. unfold ppu_read_register. cbv zeta.
  rewrite (u16_small ad), land7_mod8, H by lia. reflexivity.
Qed.

(** What a read of PPU register 2 does: it returns [status], clears bit 7
    of it and resets [addr_latch]; [scroll_latch] is not touched. *)
Lemma status_read_effect (s : NES) (ad : Z) :
  0x2000 <= ad < 0x4000 -> ad mod 8 = 2 ->
  let r := cpu_read ad s in
  fst r = status (ppu s) /\
  Z.testbit (status (ppu (snd r))) 7 = false /\
  (forall n, 0 <= n < 7 ->
     Z.testbit (status (ppu (snd r))) n = Z.testbit (status (ppu s)) n) /\
  addr_latch (ppu (snd r)) = 0 /\
  scroll_latch (ppu (snd r)) = scroll_latch (ppu s).
Proof.
  intros Ha H r. subst r. rewrite cpu_read_ppu, ppu_read_register_2 by lia.
  cbn [fst snd ppu set_ppu set_addr_latch set_status status addr_latch scroll_latch].
  split; [reflexivity|].
  split; [bits; closed_bits; reflexivity|].
  split; [|split; reflexivity].
  intros n Hn. bits. change 128 with (2 ^ 7). rewrite Z.pow2_bits_eqb by lia.
  destruct (Z.ltb_spec n 8); [|lia]. destruct (Z.eqb_spec 7 n); [lia|].
  cbn [andb negb]. apply andb_true_r.
Qed.

(** With [scroll_latch] set, a write to register 5 is a second write: it
    leaves [fine_x] alone and clears the latch. *)
Lemma scroll_second_write (s : NES) (ad v : Z) :
  0x2000 <= ad < 0x4000 -> ad mod 8 = 5 ->
  scroll_latch (ppu s) <> 0 ->
  let s' := snd (cpu_write ad v s) in
  fine_x (ppu s') = fine_x (ppu s) /\ scroll_latch (ppu s') = 0.
Proof.
  intros Ha H Hl s'. subst s'. rewrite cpu_write_ppu by lia.
  unfold ppu_write_register. cbv zeta.
  rewrite (u16_small ad), land7_mod8, H by lia.
  cbn [Z.land Pos.land]. unfold mbind, M_bind, gets.
  unfold truthy. destruct (Z.eqb_spec (scroll_latch (ppu s)) 0); [contradiction|].
  cbn. split; reflexivity.
Qed.

(** C2 fails on the code at this input.  From the reset PPU, a first write
    to [$2005] sets [scroll_latch]; the read of [$2002] returns the status
    [0xA0], clears bit 7 and resets [addr_latch], but [scroll_latch] is still
    1, so the next write to [$2005] is handled as a second write: [fine_x]
    keeps the 5 of the first write instead of taking the 6 of [0x5E]. *)
Theorem status_read_keeps_scroll_latch :
  let s1 := snd (cpu_write 0x2005 0x7D latch_example) in
  let r := cpu_read 0x2002 s1 in
  let s3 := snd (cpu_write 0x2005 0x5E (snd r)) in
  (scroll_latch (ppu s1) = 1 /\ fine_x (ppu s1) = 5) /\
  (fst r = 0xA0 /\ status (ppu (snd r)) = 0x20 /\ addr_latch (ppu (snd r)) = 0) /\
  scroll_latch (ppu (snd r)) = 1 /\
  (fine_x (ppu s3) = 5 /\ scroll_latch (ppu s3) = 0).
Proof. vm_compute. repeat split. Qed.

(** *** Loading a cartridge *)

(** Success of [parse_ines] means the upper nibble of byte 6 is zero; byte 7
    is never read. *)
Lemma parse_ines_mapper_check image cart0 :
  fst (parse_ines image cart0) = true ->
  u8 (Z.shiftr (aget (rom_data image) 6) 4) = 0.
Proof.
  unfold parse_ines. cbv zeta.
  destruct (rom_size image <? 16); [discriminate|].
  destruct (negb (bool_decide _)); [discriminate|].
  destruct (Z.eqb_spec (u8 (Z.shiftr (aget (rom_data image) 6) 4)) 0) as [E|E];
    [intros _; exact E | discriminate].
Qed.

(** [parse_ines] never consults byte 7: changing it changes nothing. *)
Lemma parse_ines_ignores_byte7 data size b cart0 :
  0 <= aget data 4 ->
  parse_ines (mkRomImage (<[7%nat := b]> data) size) cart0 =
  parse_ines (mkRomImage data size) cart0.
Proof.
  intros Hprg. unfold parse_ines. cbn [rom_size rom_data]. cbv zeta.
  rewrite (take_insert_ge data 4 7) by lia.
  assert (Hget : forall i, 0 <= i < 7 -> aget (<[7%nat := b]> data) i = aget data i)
    by (intros i Hi; unfold aget; rewrite list_lookup_insert_ne by lia; reflexivity).
  rewrite !Hget by lia.
  assert (Hdrop : forall n, 16 <= n -> drop (Z.to_nat n) (<[7%nat := b]> data) =
                                       drop (Z.to_nat n) data)
    by (intros n Hn; apply drop_insert_lt; lia).
  unfold PRG_ROM_BANK_SIZE.
  destruct (truthy (Z.land (aget data 6) 4)); rewrite !Hdrop by lia; reflexivity.
Qed.

(** A copy is defined exactly when it fits both arrays. *)
Lemma memcpy_defined dst src n :
  is_Some (memcpy dst src n) <->
  n <= Z.of_nat (length dst) /\ n <= Z.of_nat (length src).
Proof.
  unfold memcpy.
  destruct (Z.leb_spec n (Z.of_nat (length dst))),
           (Z.leb_spec n (Z.of_nat (length src))); cbn [andb];
    (split; [intros [x Hx]; try discriminate; lia | intros []; try lia; eauto]).
Qed.

(** The cartridge of a successful [parse_ines] whose copies stay inside
    the arrays: both announced sizes fit, and they are the sizes recorded. *)
Lemma parse_ines_sizes image cart0 c :
  fst (parse_ines image cart0) = true ->
  snd (parse_ines image cart0) = Some c ->
  let prg_size := aget (rom_data image) 4 * PRG_ROM_BANK_SIZE in
  let chr_size := aget (rom_data image) 5 * CHR_ROM_BANK_SIZE in
  prg_size <= 2 * PRG_ROM_BANK_SIZE /\ chr_size <= CHR_ROM_BANK_SIZE /\
  prg_rom_size c = (if truthy prg_size then prg_size else PRG_ROM_BANK_SIZE) /\
  chr_rom_size c = chr_size.
Proof.
  unfold parse_ines. cbv zeta.
  destruct (rom_size image <? 16); [discriminate|].
  destruct (negb (bool_decide _)); [discriminate|].
  destruct (negb (u8 (Z.shiftr (aget (rom_data image) 6) 4) =? 0)); [discriminate|].
  match goal with |- context [rom_size image <? ?bound] =>
    destruct (rom_size image <? bound) end; [discriminate|].
  intros _. cbn [snd prg_rom chr_rom prg_rom_size chr_rom_size].
  match goal with |- context [memcpy ?d ?src ?n ≫= _] =>
    pose proof (proj1 (memcpy_defined d src n)) as Hp;
    destruct (memcpy d src n) as [prg|]; [|discriminate] end.
  specialize (Hp (mk_is_Some _ _ eq_refl)).
  assert (Lz : Z.of_nat (length (zeros (PRG_ROM_BANK_SIZE * 2))) = 2 * PRG_ROM_BANK_SIZE)
    by (unfold zeros; rewrite length_replicate; unfold PRG_ROM_BANK_SIZE; lia).
  assert (Lc : Z.of_nat (length (zeros CHR_ROM_BANK_SIZE)) = CHR_ROM_BANK_SIZE)
    by (unfold zeros; rewrite length_replicate; unfold CHR_ROM_BANK_SIZE; lia).
  cbn [mbind option_bind prg_rom chr_rom prg_rom_size chr_rom_size].
  destruct (Z.ltb_spec 0 (aget (rom_data image) 5 * CHR_ROM_BANK_SIZE)) as [Hc|Hc].
  - match goal with |- context [memcpy ?d ?src ?n ≫= _] =>
      pose proof (proj1 (memcpy_defined d src n)) as Hq;
      destruct (memcpy d src n) as [chr|]; [|discriminate] end.
    specialize (Hq (mk_is_Some _ _ eq_refl)).
    cbn [mbind option_bind]. intros [= <-].
    cbn [prg_rom_size chr_rom_size set_chr_rom]. repeat split; lia.
  - intros [= <-]. cbn [prg_rom_size chr_rom_size].
    repeat split; unfold CHR_ROM_BANK_SIZE in *; lia.
Qed.

(** C3 fails on the code at this input: a well-formed one-bank image whose
    byte 6 is [0x00] and whose byte 7 is [0x10] has mapper number 16, and
    [parse_ines] accepts it ([main] goes on to run it as mapper 0). *)
Theorem mapper_byte7_not_checked :
  spec_mapper_number (rom_data (ines_image 1 0 0x00 0x10)) = 16 /\
  fst (parse_ines (ines_image 1 0 0x00 0x10) (cart nes_zero)) = true /\
  exists s, power_on (ines_image 1 0 0x00 0x10) = Started s.
Proof.
  split; [reflexivity|]. split; [vm_compute; reflexivity|].
  assert (H : match power_on (ines_image 1 0 0x00 0x10) with
              | Started _ => True | _ => False end) by (vm_compute; exact I).
  destruct (power_on (ines_image 1 0 0x00 0x10)) as [| |s];
    [destruct H | destruct H | exists s; reflexivity].
Qed.

(** C4 fails on the code at these inputs: an image with three PRG banks and
    one with two CHR banks both pass every test of [parse_ines], which
    returns [true] for them; no test bounds the bank counts, and the copy of
    49152 bytes leaves the 32768-byte [prg_rom], that of 16384 bytes the
    8192-byte [chr_rom].  [main] does not take its [return 1]. *)
Theorem bank_counts_not_checked :
  (let image := ines_image 3 0 0 0 in
   fst (parse_ines image (cart nes_zero)) = true /\
   aget (rom_data image) 4 * PRG_ROM_BANK_SIZE = 49152 /\
   Z.of_nat (length (prg_rom (cart nes_zero))) = 32768 /\
   snd (parse_ines image (cart nes_zero)) = None /\
   power_on image = Overrun) /\
  (let image := ines_image 1 2 0 0 in
   fst (parse_ines image (cart nes_zero)) = true /\
   aget (rom_data image) 5 * CHR_ROM_BANK_SIZE = 16384 /\
   Z.of_nat (length (chr_rom (cart nes_zero))) = 8192 /\
   snd (parse_ines image (cart nes_zero)) = None /\
   power_on image = Overrun).
Proof. vm_compute. repeat split. Qed.

(** *** Reads through the CPU bus *)

Lemma bind_eq {R S} (m : M R) (k : R -> M S) s r s1 :
  m s = (r, s1) -> (m ≫= k) s = k r s1.
Proof. intros E. unfold mbind, M_bind. now rewrite E. Qed.

Lemma bind_assoc {R S U} (m : M R) (k1 : R -> M S) (k2 : S -> M U) s :
  ((m ≫= k1) ≫= k2) s = (m ≫= (fun r => k1 r ≫= k2)) s.
Proof. unfold mbind, M_bind. now destruct (m s). Qed.

Lemma bind_ret {R S} (r : R) (k : R -> M S) s : (mret r ≫= k) s = k r s.
Proof. reflexivity. Qed.

(** Run the computation at the head of the goal with its known result. *)
Ltac run E := rewrite ?bind_assoc; rewrite !(bind_eq _ _ _ _ _ E).

Lemma aget_u8 arr i : all_u8 arr = true -> 0 <= aget arr i < 256.
Proof.
  intros H. unfold aget. destruct (arr !! Z.to_nat i) as [v|] eqn:E; cbn; [|lia].
  unfold all_u8 in H. rewrite forallb_forall in H.
  apply list_elem_of_lookup_2, list_elem_of_In, H in E.
  unfold is_u8 in E. apply andb_true_iff in E as [E1 E2].
  apply Z.leb_le in E1. apply Z.ltb_lt in E2. lia.
Qed.

Lemma ppu_read_u8 s ad : bytes_ok s -> 0 <= ppu_read s ad < 256.
Proof.
  intros (_ & _ & Hchr & Hvram & Hpal & _). unfold ppu_read. cbv zeta.
  repeat match goal with |- context [if ?b then _ else _] => destruct b end;
    try lia; now apply aget_u8.
Qed.

(** Case split on a scrutinee that is matched against numerals. *)
Ltac split_numeral :=
  repeat match goal with
    | |- context [match ?q with xH => _ | xO _ => _ | xI _ => _ end] =>
        is_var q; destruct q
    end.

(** A register read changes nothing outside the PPU, returns a byte and
    keeps the machine well formed. *)
Lemma ppu_read_register_spec ad s :
  let r := ppu_read_register ad s in
  (cpu (snd r) = cpu s /\ ram (snd r) = ram s /\ cart (snd r) = cart s) /\
  (bytes_ok s -> 0 <= fst r < 256 /\ bytes_ok (snd r)).
Proof.
  unfold ppu_read_register. cbv zeta.
  destruct (Z.land (u16 ad) 7) as [|q|q]; split_numeral;
    try (split; [repeat split | intros Hok; split; [cbn; lia | exact Hok]]).
  - (* 7: data *)
    unfold mbind, M_bind, gets, upd_ppu, modify, mret, M_ret.
    destruct (vram_addr (ppu s) <? 16128); cbn [fst snd];
      (split; [repeat split|]); intros Hok;
      pose proof (ppu_read_u8 s (vram_addr (ppu s)) Hok);
      pose proof (ppu_read_u8 s (vram_addr (ppu s) - 4096) Hok);
      destruct Hok as (H1 & H2 & H3 & H4 & H5 & H6 & H7 & H8);
      (split; [assumption | unfold bytes_ok; cbn [ram cart ppu set_ppu prg_rom chr_rom vram palette oam status read_buffer vram_addr_advance set_vram_addr set_read_buffer]; repeat split; first [assumption | lia]]).
  - (* 4: OAM data *)
    split; [repeat split|]. intros Hok. split; [|exact Hok].
    destruct Hok as (_ & _ & _ & _ & _ & Hoam & _). now apply aget_u8.
  - (* 2: status *)
    unfold mbind, M_bind, gets, upd_ppu, modify, mret, M_ret. cbn [fst snd].
    split; [repeat split|]. intros (H1 & H2 & H3 & H4 & H5 & H6 & H7 & H8).
    split; [exact H7|].
    unfold bytes_ok.
    cbn [ram cart ppu set_ppu prg_rom chr_rom vram palette oam status
         read_buffer set_status set_addr_latch].
    pose proof (u8_range (Z.land (status (ppu s)) (Z.lnot 128))).
    repeat split; first [assumption | lia].
Qed.

Lemma cpu_read_spec ad s :
  let r := cpu_read ad s in
  (cpu (snd r) = cpu s /\ ram (snd r) = ram s /\ cart (snd r) = cart s) /\
  (bytes_ok s -> 0 <= fst r < 256 /\ bytes_ok (snd r)).
Proof.
  unfold cpu_read. cbv zeta.
  destruct (u16 ad <? 8192).
  { split; [repeat split|]. intros Hok. split; [|exact Hok].
    destruct Hok as (Hram & _). now apply aget_u8. }
  destruct (u16 ad <? 16384); [apply ppu_read_register_spec|].
  destruct (32768 <=? u16 ad).
  - unfold mbind, M_bind, gets.
    destruct (prg_rom_size (cart s) =? PRG_ROM_BANK_SIZE); cbn [fst snd];
      (split; [repeat split|]); intros Hok; (split; [|exact Hok]);
      destruct Hok as (_ & Hprg & _); now apply aget_u8.
  - split; [repeat split|]. intros Hok. split; [cbn; lia | exact Hok].
Qed.

Lemma fetch_spec s :
  let r := fetch s in
  (cpu (snd r) = set_pc (u16 (pc (cpu s) + 1)) (cpu s) /\
   ram (snd r) = ram s /\ cart (snd r) = cart s) /\
  (bytes_ok s -> 0 <= fst r < 256 /\ bytes_ok (snd r)).
Proof.
  unfold fetch, mbind, M_bind, gets, upd_cpu, modify. cbv zeta.
  match goal with |- context [cpu_read ?ad ?t] =>
    destruct (cpu_read_spec ad t) as [(Ec & Er & Ek) Hb];
    destruct (cpu_read ad t) as [v t'] end.
  cbn [fst snd] in *. split; [repeat split; assumption|].
  intros Hok. apply Hb. exact Hok.
Qed.

(** *** Words and their bytes *)

Lemma testbit_above v k n :
  0 <= k -> 0 <= v < 2 ^ k -> k <= n -> Z.testbit v n = false.
Proof.
  intros Hk Hv Hn. rewrite <- (Z.mod_small v (2 ^ k)) by lia.
  apply Z.mod_pow2_bits_high. lia.
Qed.

(** A value below [2 ^ k] fits under a value shifted left by [k]. *)
Lemma lor_shiftl_add hi lo k :
  0 <= k -> 0 <= lo < 2 ^ k -> Z.lor (Z.shiftl hi k) lo = hi * 2 ^ k + lo.
Proof.
  intros Hk Hlo. rewrite Z.shiftl_mul_pow2 by lia.
  rewrite <- Z.lxor_lor, <- Z.add_nocarry_lxor; trivial;
    apply Z.bits_inj'; intros n Hn; rewrite Z.land_spec, Z.bits_0;
    (destruct (Z.lt_ge_cases n k);
      [ rewrite Z.mul_pow2_bits_low by lia; reflexivity
      | rewrite (testbit_above lo k n) by lia; apply andb_false_r ]).
Qed.

Lemma land_FF v : Z.land v 0xFF = v mod 256.
Proof. change 0xFF with (Z.ones 8). now rewrite Z.land_ones by lia. Qed.

Lemma land_FF00 v : 0 <= v < 65536 -> Z.land v 0xFF00 = Z.shiftl (v / 256) 8.
Proof.
  intros Hv. apply Z.bits_inj'. intros n Hn.
  change 256 with (2 ^ 8). rewrite <- Z.shiftr_div_pow2 by lia.
  destruct (Z.lt_ge_cases n 16) as [Hlt|Hge].
  - each_value n 0; bits; closed_bits; reflexivity.
  - bits. rewrite (testbit_above v 16 n) by lia.
    rewrite (testbit_above v 16 (n - 8 + 8)) by lia. reflexivity.
Qed.

(** The word assembled from a low and a high byte. *)
Lemma word_of_bytes lo hi :
  0 <= lo < 256 -> 0 <= hi < 256 ->
  let w := u16 (Z.lor lo (Z.shiftl hi 8)) in
  w = hi * 256 + lo /\ Z.land w 0xFF = lo /\ Z.shiftr w 8 = hi.
Proof.
  intros Hlo Hhi w. subst w.
  rewrite Z.lor_comm, (lor_shiftl_add hi lo 8) by lia.
  change (2 ^ 8) with 256. rewrite u16_small by lia.
  rewrite land_FF, Z.shiftr_div_pow2 by lia. change (2 ^ 8) with 256.
  repeat split; Z.div_mod_to_equations; lia.
Qed.

(** The bytes [cpu_step] pushes for a word [q] (possibly [-1]) give back
    [q] modulo [2 ^ 16]. *)
Lemma bytes_of_word q :
  u16 (Z.lor (u8 (Z.land q 0xFF)) (Z.shiftl (u8 (Z.shiftr q 8)) 8)) = u16 q.
Proof.
  rewrite land_FF, Z.shiftr_div_pow2 by lia. change (2 ^ 8) with 256.
  rewrite Z.lor_comm, lor_shiftl_add by (pose proof (u8_range (q mod 256)); lia).
  unfold u8, u16. change (2 ^ 8) with 256. Z.div_mod_to_equations. lia.
Qed.

(** The address the indirect [JMP] takes its high byte from: the successor
    of [ptr] inside the page of [ptr]. *)
Lemma indirect_high_address ptr :
  0 <= ptr < 65536 ->
  let hi_addr := Z.lor (Z.land ptr 0xFF00) (Z.land (ptr + 1) 0xFF) in
  (hi_addr = u16 (ptr + 1) <-> Z.land ptr 0xFF <> 0xFF) /\
  (Z.land ptr 0xFF = 0xFF -> hi_addr = Z.land ptr 0xFF00).
Proof.
  intros Hp hi_addr. subst hi_addr.
  rewrite (land_FF00 ptr Hp), !land_FF.
  rewrite lor_shiftl_add by (pose proof (Z.mod_pos_bound (ptr + 1) 256); lia).
  rewrite Z.shiftl_mul_pow2 by lia.
  unfold u16. change (2 ^ 8) with 256.
  split; [split|]; intros; Z.div_mod_to_equations; lia.
Qed.

(** *** Indirect JMP *)

Lemma cpu_exec_jmp_indirect :
  cpu_exec 0x6C = (ar ← addr_indirect; upd_cpu (set_pc (addr ar));; tick 5).
Proof. reflexivity. Qed.

(** C6: the indirect [JMP] loads [PC] with the byte at the operand [ptr] as
    low byte and the byte at [(ptr & 0xFF00) | ((ptr + 1) & 0xFF)] as high
    byte.  That address is [ptr + 1] exactly when the low byte of [ptr] is
    not [0xFF]; when it is [0xFF] the high byte comes from [ptr & 0xFF00]. *)
Theorem jmp_indirect_page_wrap (s : NES) :
  bytes_ok s -> fst (fetch s) = 0x6C ->
  let ptr := addr (fst (operand16 s)) in
  let s3 := snd (operand16 s) in
  let hi_addr := Z.lor (Z.land ptr 0xFF00) (Z.land (ptr + 1) 0xFF) in
  let tlo := fst (cpu_read ptr s3) in
  let thi := fst (cpu_read hi_addr (snd (cpu_read ptr s3))) in
  let pc' := pc (cpu (snd (cpu_step s))) in
  (Z.land pc' 0xFF = tlo /\ Z.shiftr pc' 8 = thi) /\
  (hi_addr = u16 (ptr + 1) <-> Z.land ptr 0xFF <> 0xFF) /\
  (Z.land ptr 0xFF = 0xFF -> hi_addr = Z.land ptr 0xFF00).
Proof.
  intros Hok Hop. unfold operand16, cpu_step.
  destruct (fetch_spec s) as [_ H1]. destruct (H1 Hok) as [_ Hok1]. clear H1.
  destruct (fetch s) as [op s1] eqn:E1. cbn [fst snd] in Hop, Hok1. subst op.
  run E1. rewrite cpu_exec_jmp_indirect.
  unfold addr_indirect, addr_absolute.
  destruct (fetch_spec s1) as [_ H2]. destruct (H2 Hok1) as [_ Hok2]. clear H2.
  destruct (fetch s1) as [lo s2] eqn:E2. cbn [fst snd] in Hok2.
  run E2.
  destruct (fetch_spec s2) as [_ H3]. destruct (H3 Hok2) as [_ Hok3]. clear H3.
  destruct (fetch s2) as [hi s3] eqn:E3. cbn [fst snd] in Hok3.
  run E3.
  cbv zeta. cbn [mret M_ret fst snd addr].
  set (ptr := u16 (Z.lor (Z.shiftl hi 8) lo)).
  set (hi_addr := Z.lor (Z.land ptr 0xFF00) (Z.land (ptr + 1) 0xFF)).
  destruct (cpu_read_spec ptr s3) as [_ H4]. destruct (H4 Hok3) as [Htlo Hok4].
  clear H4. destruct (cpu_read ptr s3) as [tlo s4] eqn:E4.
  cbn [fst snd] in Htlo, Hok4 |- *.
  run E4.
  destruct (cpu_read_spec hi_addr s4) as [_ H5]. destruct (H5 Hok4) as [Hthi _].
  clear H5. destruct (cpu_read hi_addr s4) as [thi s5] eqn:E5.
  cbn [fst snd] in Hthi |- *.
  run E5.
  split; [|exact (indirect_high_address ptr (u16_range _))].
  cbn [mbind M_bind mret M_ret upd_cpu modify tick snd cpu set_cpu pc set_pc
       set_cycles addr].
  destruct (word_of_bytes tlo thi Htlo Hthi) as (_ & Hl & Hh). now split.
Qed.

(** Scenario 7 of the specification: [JMP ($10FF)] at [0x0200], with
    [0x34] at [0x10FF], [0x12] at [0x1000] and [0x56] at [0x1100]. *)
Lemma jmp_indirect_witness :
  fst (cpu_read 0x10FF jmp_example) = 0x34 /\
  fst (cpu_read 0x1000 jmp_example) = 0x12 /\
  fst (cpu_read 0x1100 jmp_example) = 0x56 /\
  addr (fst (operand16 jmp_example)) = 0x10FF /\
  Z.land (pc (cpu (snd (cpu_step jmp_example)))) 0xFF = 0x34 /\
  Z.shiftr (pc (cpu (snd (cpu_step jmp_example)))) 8 = 0x12 /\
  pc (cpu (snd (cpu_step jmp_example))) = 0x1234.
Proof.
  assert (Hok : bytes_ok jmp_example)
    by (repeat split; solve [vm_compute; reflexivity | vm_compute; discriminate]).
  assert (Hop : fst (fetch jmp_example) = 0x6C) by (vm_compute; reflexivity).
  destruct (jmp_indirect_page_wrap jmp_example Hok Hop) as [[Hl Hh] _].
  rewrite Hl, Hh.
  repeat split; vm_compute; reflexivity.
Defined.

(** *** The stack *)

Lemma aget_aset_eq arr i v :
  0 <= i < Z.of_nat (length arr) -> aget (aset arr i v) i = v.
Proof.
  intros H. unfold aget, aset. rewrite list_lookup_insert_eq by lia. reflexivity.
Qed.

Lemma length_aset arr i v : length (aset arr i v) = length arr.
Proof. apply length_insert. Qed.

Lemma aget_aset_ne arr i j v :
  0 <= i -> 0 <= j -> i <> j -> aget (aset arr i v) j = aget arr j.
Proof.
  intros Hi Hj Hne. unfold aget, aset. rewrite list_lookup_insert_ne by lia.
  reflexivity.
Qed.

Lemma cpu_exec_jsr :
  cpu_exec 0x20 =
  (ar ← addr_absolute;
   pc0 ← gets (fun s => pc (cpu s)); cpu_push (u8 (Z.shiftr (pc0 - 1) 8));;
   pc0 ← gets (fun s => pc (cpu s)); cpu_push (u8 (Z.land (pc0 - 1) 0xFF));;
   upd_cpu (set_pc (addr ar));;
   tick 6).
Proof. reflexivity. Qed.

Lemma cpu_exec_rts :
  cpu_exec 0x60 =
  (lo ← cpu_pop; upd_cpu (set_pc lo);;
   hi ← cpu_pop; upd_cpu (fun c => set_pc (u16 (Z.lor (pc c) (Z.shiftl hi 8))) c);;
   upd_cpu (fun c => set_pc (u16 (pc c + 1)) c);;
   tick 6).
Proof. reflexivity. Qed.

(** Evaluation of straight-line code on the registers and the memory. *)
Ltac nes_simpl :=
  cbv beta iota zeta delta
      [mbind M_bind mret M_ret gets modify upd_cpu upd_ppu tick cpu_push cpu_pop
       flag_set flag_clear];
  cbn [fst snd cpu ppu cart ram set_cpu set_ppu set_ram set_cart
       a x y sp p pc cycles set_a set_x set_y set_sp set_p set_pc set_cycles
       addr value page_crossed].

(** The effect of [JSR]: the address of the last operand byte goes to the
    stack, high byte first, and [PC] takes the operand. *)
Lemma jsr_effect (s : NES) :
  0 <= sp (cpu s) < 256 ->
  Z.of_nat (length (ram s)) = NES_RAM_SIZE ->
  fst (fetch s) = 0x20 ->
  let target := addr (fst (operand16 s)) in
  let ret := u16 (pc (cpu s) + 3) in
  let s1 := snd (cpu_step s) in
  pc (cpu s1) = target /\
  sp (cpu s1) = u8 (sp (cpu s) - 2) /\
  aget (ram s1) (0x100 + sp (cpu s)) = u8 (Z.shiftr (ret - 1) 8) /\
  aget (ram s1) (0x100 + u8 (sp (cpu s) - 1)) = u8 (Z.land (ret - 1) 0xFF).
Proof.
  intros Hsp Hlen Hop. unfold operand16, cpu_step. unfold NES_RAM_SIZE in Hlen.
  destruct (fetch_spec s) as [(Ec1 & Er1 & _) _].
  destruct (fetch s) as [op s1] eqn:E1. cbn [fst snd] in Hop, Ec1, Er1. subst op.
  run E1. rewrite cpu_exec_jsr. unfold addr_absolute.
  destruct (fetch_spec s1) as [(Ec2 & Er2 & _) _].
  destruct (fetch s1) as [lo s2] eqn:E2. cbn [fst snd] in Ec2, Er2. run E2.
  destruct (fetch_spec s2) as [(Ec3 & Er3 & _) _].
  destruct (fetch s2) as [hi s3] eqn:E3. cbn [fst snd] in Ec3, Er3. run E3.
  cbv zeta. nes_simpl.
  rewrite Er3, Er2, Er1, Ec3, Ec2, Ec1. nes_simpl.
  assert (Epc : u16 (u16 (u16 (pc (cpu s) + 1) + 1) + 1) = u16 (pc (cpu s) + 3))
    by (unfold u16; Z.div_mod_to_equations; lia).
  rewrite Epc, !u8_u8.
  assert (Esp1 : u8 (sp (cpu s) - 1) <> sp (cpu s))
    by (unfold u8; Z.div_mod_to_equations; lia).
  pose proof (u8_range (sp (cpu s) - 1)).
  split; [reflexivity|].
  split; [unfold u8; Z.div_mod_to_equations; lia|].
  split.
  - rewrite aget_aset_ne, aget_aset_eq by lia. reflexivity.
  - rewrite aget_aset_eq by (rewrite length_aset; lia). reflexivity.
Qed.

(** The effect of [RTS]: [PC] is the popped word plus one. *)
Lemma rts_effect (s : NES) :
  fst (fetch s) = 0x60 ->
  let sp1 := u8 (sp (cpu s) + 1) in
  let sp2 := u8 (sp1 + 1) in
  let s' := snd (cpu_step s) in
  pc (cpu s') =
    u16 (u16 (Z.lor (aget (ram s) (0x100 + sp1))
                    (Z.shiftl (aget (ram s) (0x100 + sp2)) 8)) + 1) /\
  sp (cpu s') = sp2.
Proof.
  intros Hop. unfold cpu_step.
  destruct (fetch_spec s) as [(Ec1 & Er1 & _) _].
  destruct (fetch s) as [op s1] eqn:E1. cbn [fst snd] in Hop, Ec1, Er1. subst op.
  run E1. rewrite cpu_exec_rts. cbv zeta. nes_simpl.
  rewrite Er1, Ec1. nes_simpl. split; reflexivity.
Qed.

(** C7: [JSR] pushes the address of its last operand byte, high byte first,
    and jumps to the operand; an [RTS] executed later with the same stack
    pointer and the same two stack bytes resumes at the byte after the
    operand, with the stack pointer [JSR] started from. *)
Theorem jsr_rts_round_trip (s : NES) :
  0 <= sp (cpu s) < 256 ->
  Z.of_nat (length (ram s)) = NES_RAM_SIZE ->
  fst (fetch s) = 0x20 ->
  let target := addr (fst (operand16 s)) in
  let ret := u16 (pc (cpu s) + 3) in
  let s1 := snd (cpu_step s) in
  let hi_slot := 0x100 + sp (cpu s) in
  let lo_slot := 0x100 + u8 (sp (cpu s) - 1) in
  (pc (cpu s1) = target /\
   sp (cpu s1) = u8 (sp (cpu s) - 2) /\
   aget (ram s1) hi_slot = u8 (Z.shiftr (ret - 1) 8) /\
   aget (ram s1) lo_slot = u8 (Z.land (ret - 1) 0xFF)) /\
  (forall s2,
     sp (cpu s2) = sp (cpu s1) ->
     aget (ram s2) hi_slot = aget (ram s1) hi_slot ->
     aget (ram s2) lo_slot = aget (ram s1) lo_slot ->
     fst (fetch s2) = 0x60 ->
     pc (cpu (snd (cpu_step s2))) = ret /\
     sp (cpu (snd (cpu_step s2))) = sp (cpu s)).
Proof.
  intros Hsp Hlen Hop target ret s1 hi_slot lo_slot.
  destruct (jsr_effect s Hsp Hlen Hop) as (Hpc & Hsp1 & Hhi & Hlo).
  fold target ret s1 hi_slot lo_slot in Hpc, Hsp1, Hhi, Hlo.
  split; [now repeat split|].
  intros s2 Esp Ehi Elo Hop2.
  destruct (rts_effect s2 Hop2) as [Hpc2 Hsp2]. cbv zeta in Hpc2, Hsp2.
  rewrite Esp, Hsp1 in Hpc2, Hsp2.
  assert (E1 : u8 (u8 (sp (cpu s) - 2) + 1) = u8 (sp (cpu s) - 1))
    by (unfold u8; Z.div_mod_to_equations; lia).
  assert (E2 : u8 (u8 (sp (cpu s) - 1) + 1) = sp (cpu s))
    by (unfold u8; Z.div_mod_to_equations; lia).
  rewrite E1, E2 in Hpc2, Hsp2.
  fold hi_slot lo_slot in Hpc2. rewrite Ehi, Elo, Hhi, Hlo in Hpc2.
  rewrite bytes_of_word in Hpc2.
  split; [|exact Hsp2].
  rewrite Hpc2. subst ret. unfold u16. Z.div_mod_to_equations. lia.
Qed.

(** [JSR $0300] at [0x0200] with an [RTS] at [0x0300]. *)
Lemma jsr_rts_witness :
  let s1 := snd (cpu_step jsr_example) in
  pc (cpu s1) = 0x0300 /\ sp (cpu s1) = 0xFB /\
  pc (cpu (snd (cpu_step s1))) = 0x0203 /\
  sp (cpu (snd (cpu_step s1))) = 0xFD.
Proof.
  assert (Hsp : 0 <= sp (cpu jsr_example) < 256)
    by (split; solve [vm_compute; reflexivity | vm_compute; discriminate]).
  assert (Hlen : Z.of_nat (length (ram jsr_example)) = NES_RAM_SIZE)
    by (vm_compute; reflexivity).
  assert (Hop : fst (fetch jsr_example) = 0x20) by (vm_compute; reflexivity).
  destruct (jsr_rts_round_trip jsr_example Hsp Hlen Hop) as [(Hpc & Hsp1 & _) Hrts].
  assert (Hop2 : fst (fetch (snd (cpu_step jsr_example))) = 0x60)
    by (vm_compute; reflexivity).
  destruct (Hrts (snd (cpu_step jsr_example)) eq_refl eq_refl eq_refl Hop2)
    as [Hpc2 Hsp2].
  cbv zeta. rewrite Hpc, Hsp1, Hpc2, Hsp2.
  repeat split; vm_compute; reflexivity.
Defined.

(** *** Which instructions keep the unused flag *)

Lemma unused_set_iff s : unused_set s <-> unused_bit s.
Proof.
  unfold unused_set, unused_bit. change FLAG_UNUSED with (2 ^ 5). split; intros H.
  - rewrite <- (truthy_land_pow2 _ 5), H by lia. reflexivity.
  - apply Z.bits_inj'. intros n Hn. rewrite Z.land_spec, Z.pow2_bits_eqb by lia.
    destruct (Z.eqb_spec 5 n) as [<-|]; [now rewrite H | apply andb_false_r].
Qed.

Lemma keeps_ret {R} P (r : R) : keeps P (mret r).
Proof. intros s H. exact H. Qed.

Lemma keeps_gets {R} P (f : NES -> R) : keeps P (gets f).
Proof. intros s H. exact H. Qed.

Lemma keeps_bind {R S} P (m : M R) (k : R -> M S) :
  keeps P m -> (forall r, keeps P (k r)) -> keeps P (m ≫= k).
Proof.
  intros Hm Hk s H. unfold mbind, M_bind.
  specialize (Hm s H). destruct (m s) as [r s1]. exact (Hk r s1 Hm).
Qed.

Lemma keeps_if {R} P (b : bool) (m1 m2 : M R) :
  keeps P m1 -> keeps P m2 -> keeps P (if b then m1 else m2).
Proof. now destruct b. Qed.

(** Computations that leave the CPU registers alone. *)
Lemma keeps_cpu_frame {R} (m : M R) :
  (forall s, cpu (snd (m s)) = cpu s) -> keeps unused_bit m.
Proof. intros Hm s H. unfold unused_bit. now rewrite Hm. Qed.

Lemma keeps_upd_cpu (f : CPU -> CPU) :
  (forall c, Z.testbit (p c) 5 = true -> Z.testbit (p (f c)) 5 = true) ->
  keeps unused_bit (upd_cpu f).
Proof. intros Hf s H. exact (Hf (cpu s) H). Qed.

Lemma keeps_upd_ppu (f : PPU -> PPU) : keeps unused_bit (upd_ppu f).
Proof. intros s H. exact H. Qed.

Lemma ppu_write_register_cpu ad v s :
  cpu (snd (ppu_write_register ad v s)) = cpu s.
Proof.
  unfold ppu_write_register. cbv zeta.
  destruct (Z.land (u16 ad) 7) as [|q|q]; split_numeral; try reflexivity;
    unfold mbind, M_bind, gets, upd_ppu, modify; cbn [fst snd].
  - unfold ppu_write. cbv zeta.
    repeat match goal with |- context [if ?b then _ else _] => destruct b end;
      reflexivity.
  - destruct (negb (truthy (scroll_latch (ppu s)))); reflexivity.
  - destruct (negb (truthy (addr_latch (ppu s)))); reflexivity.
Qed.

Lemma cpu_write_cpu ad v s : cpu (snd (cpu_write ad v s)) = cpu s.
Proof.
  unfold cpu_write. cbv zeta.
  destruct (u16 ad <? 8192); [reflexivity|].
  destruct (u16 ad <? 16384); [apply ppu_write_register_cpu | reflexivity].
Qed.

Lemma keeps_cpu_read ad : keeps unused_bit (cpu_read ad).
Proof. apply keeps_cpu_frame. intros s. apply cpu_read_spec. Qed.

Lemma keeps_cpu_write ad v : keeps unused_bit (cpu_write ad v).
Proof. apply keeps_cpu_frame. intros s. apply cpu_write_cpu. Qed.

Lemma keeps_cpu_push v : keeps unused_bit (cpu_push v).
Proof. intros s H. exact H. Qed.

Lemma keeps_cpu_pop : keeps unused_bit cpu_pop.
Proof. intros s H. exact H. Qed.

Lemma keeps_tick n : keeps unused_bit (tick n).
Proof. intros s H. exact H. Qed.

(** Bit 5 through the flag computations. *)
Lemma p5_set_zn v c :
  Z.testbit (p c) 5 = true -> Z.testbit (p (cpu_set_zn v c)) 5 = true.
Proof. intros H. rewrite cpu_set_zn_p by lia. exact H. Qed.

Lemma p5_adc v c :
  Z.testbit (p c) 5 = true -> Z.testbit (p (cpu_adc v c)) 5 = true.
Proof. intros H. rewrite cpu_adc_p by lia. exact H. Qed.

Lemma p5_sbc v c :
  Z.testbit (p c) 5 = true -> Z.testbit (p (cpu_sbc v c)) 5 = true.
Proof. intros H. unfold cpu_sbc. cbv zeta. now apply p5_adc. Qed.

Lemma p5_compare r v c :
  Z.testbit (p c) 5 = true -> Z.testbit (p (cpu_compare r v c)) 5 = true.
Proof.
  intros H. unfold cpu_compare. cbv zeta. rewrite if_set_p.
  apply p5_set_zn. rewrite p_set_p. change FLAG_CARRY with (2 ^ 0).
  rewrite testbit_assign by lia. exact H.
Qed.

Ltac flags_to_numerals :=
  change FLAG_CARRY with 1; change FLAG_ZERO with 2; change FLAG_INTERRUPT with 4;
  change FLAG_DECIMAL with 8; change FLAG_BREAK with 16; change FLAG_UNUSED with 32;
  change FLAG_OVERFLOW with 64; change FLAG_NEGATIVE with 128.

(** Bit 5 of the [P] an assignment of the interpreter leaves, given bit 5
    of the [P] it starts from. *)
Ltac p5 H :=
  cbn [p a x y sp pc cycles set_p set_a set_x set_y set_sp set_pc set_cycles];
  repeat first
    [ exact H
    | apply p5_sbc | apply p5_adc | apply p5_compare | apply p5_set_zn
    | progress cbn [p a x y sp pc cycles set_p set_a set_x set_y set_sp set_pc
                    set_cycles] ];
  try (flags_to_numerals;
       repeat match goal with |- context [if ?b then _ else _] => destruct b end;
       bits; closed_bits; rewrite ?H; reflexivity).

Ltac head_of t := lazymatch t with ?f _ => head_of f | _ => t end.

(** Structural descent through a computation of the interpreter. *)
Ltac keeps5 :=
  repeat match goal with
    | |- keeps _ (_ ≫= _) => apply keeps_bind; [ | intros ? ]
    | |- keeps _ (mret _) => apply keeps_ret
    | |- keeps _ (gets _) => apply keeps_gets
    | |- keeps _ (if _ then _ else _) => apply keeps_if
    | |- keeps _ (cpu_read _) => apply keeps_cpu_read
    | |- keeps _ (cpu_write _ _) => apply keeps_cpu_write
    | |- keeps _ (cpu_push _) => apply keeps_cpu_push
    | |- keeps _ cpu_pop => apply keeps_cpu_pop
    | |- keeps _ (tick _) => apply keeps_tick
    | |- keeps _ (upd_ppu _) => apply keeps_upd_ppu
    | |- keeps _ (upd_cpu _) =>
        apply keeps_upd_cpu;
        let c := fresh "c" in let H := fresh "H" in intros c H; p5 H
    | |- keeps _ ?m => let h := head_of m in unfold h; cbv zeta
    end.

Lemma keeps_fetch : keeps unused_bit fetch.
Proof. keeps5. Qed.

(** [PLP] sets bit 5 whatever byte it pops. *)
Lemma plp_sets_unused s : unused_bit (snd (cpu_exec 0x28 s)).
Proof.
  change (cpu_exec 0x28) with
    (v ← cpu_pop; upd_cpu (set_p v);; flag_set FLAG_UNUSED;; tick 4).
  unfold unused_bit. nes_simpl. flags_to_numerals. bits. closed_bits. reflexivity.
Qed.

(** Every case of the [switch] other than [0x40] (RTI) leaves bit 5 of [P]
    set if it was set. *)
Lemma keeps_cpu_exec op : op <> 0x40 -> keeps unused_bit (cpu_exec op).
Proof.
  intros Hne. destruct (Z.eq_dec op 0x28) as [->|Hplp].
  { intros s _. apply plp_sets_unused. }
  unfold cpu_exec.
  destruct op as [|q|q]; split_numeral; try (exfalso; congruence); keeps5.
Qed.

Lemma unused_flag_kept_except_rti s :
  fst (fetch s) <> 0x40 -> unused_set s -> unused_set (snd (cpu_step s)).
Proof.
  rewrite !unused_set_iff. intros Hop H. unfold cpu_step.
  pose proof (keeps_fetch s H) as H1.
  destruct (fetch s) as [op s1] eqn:E. cbn [fst snd] in Hop, H1.
  rewrite (bind_eq _ _ _ _ _ E). now apply keeps_cpu_exec.
Qed.

(** *** The unused flag *)

(** C1 fails on the code at this input.  The cartridge [rti_rom] holds
    [LDA #$00; PHA; PHA; PHA; RTI] at its reset vector.  After power-on and
    the first four instructions bit 5 of [P] is set and the next opcode is
    [0x40]; [RTI] then loads [P] with the byte 0 from the stack and does not
    set bit 5 again, whereas [PLP] on the same stack does. *)
Theorem rti_drops_unused_flag :
  match power_on rti_rom with
  | Started s0 =>
      let s4 := run_steps 4 s0 in
      Z.land (p (cpu s0)) 0x20 = 0x20 /\
      Z.land (p (cpu s4)) 0x20 = 0x20 /\
      fst (fetch s4) = 0x40 /\
      Z.land (p (cpu (snd (cpu_step s4)))) 0x20 = 0 /\
      Z.land (p (cpu (snd (cpu_exec 0x28 (snd (fetch s4)))))) 0x20 = 0x20
  | _ => False
  end.
Proof. vm_compute. repeat split. Qed.

(** *** Scenarios of the specification *)

(** Scenario 4: [SBC] with [A = 0x50], [M = 0xB0] and carry set. *)
Example sbc_scenario :
  let c' := cpu_sbc 0xB0 (set_p 0x25 adc_example) in
  a c' = 0xA0 /\ Z.testbit (p c') 0 = false /\ Z.testbit (p c') 6 = true /\
  Z.testbit (p c') 7 = true /\ Z.testbit (p c') 1 = false.
Proof. vm_compute. repeat split. Qed.

(** Scenario 6: 341 x 241 PPU cycles after reset the VBlank bit is set; a
    read of [$2002] returns it and clears it. *)
Example vblank_scenario :
  let u0 := set_status 0 (ppu_reset (ppu nes_zero)) in
  let s := set_ppu (Nat.iter (Z.to_nat (341 * 241)) ppu_step u0) nes_zero in
  let r1 := cpu_read 0x2002 s in
  let r2 := cpu_read 0x2002 (snd r1) in
  Z.testbit (status (Nat.iter (Z.to_nat (341 * 241 - 1)) ppu_step u0)) 7 = false /\
  Z.testbit (fst r1) 7 = true /\ Z.testbit (fst r2) 7 = false /\
  addr_latch (ppu (snd r2)) = 0.
Proof. vm_compute. repeat split. Qed.

End NessyProofs.

(* ===================================================================== *)
(** ** Further properties of DuoVM *)
(* ===================================================================== *)

Module DuoVMLaws.
Import DuoVM DuoVMProofs.

Lemma foldl_field {X Y} (g : VM -> Y) (f : VM -> X -> VM) (l : list X) s :
  (forall s x, g (f s x) = g s) -> g (foldl f s l) = g s.
Proof.
  intros Hf. revert s. induction l as [|x l IH]; intros s; [easy|].
  cbn. rewrite IH. apply Hf.
Qed.

Lemma clear_screen_vm_field {Y} (g : VM -> Y) s :
  (forall s v, g (set_display v s) = g s) ->
  g (clear_screen_vm s) = g s.
Proof.
  intros Hg. unfold clear_screen_vm, refresh. rewrite Hg.
  apply foldl_field. intros s1 y. apply foldl_field. intros s2 x. apply Hg.
Qed.

Section RomKept.
Variable s0 : VM.

Lemma rom_kept_mem_write addr v : preserves (rom_kept s0) (mem_write addr v).
Proof.
  intros s r s' (Hlen & Hrun & Hrom) H.
  destruct (mem_write_cases addr v s) as [[_ E]|[Hge E]]; rewrite E in H;
    [discriminate | inversion H; subst; clear H].
  pose proof (u16_range addr).
  split; [cbn; unfold aset; now rewrite length_insert|].
  split; [exact Hrun|].
  intros a Ha. cbn. rewrite NessyProofs.aget_aset_ne by lia. now apply Hrom.
Qed.

Lemma rom_kept_read_button : preserves (rom_kept s0) read_button.
Proof.
  intros s r s' HP. unfold read_button.
  destruct (scan_keys (keys s)) as [[b rest]|]; [ | discriminate ].
  intros [= _ <-]. exact HP.
Qed.

Lemma rom_kept_clear_screen_vm : preserves (rom_kept s0) (modify clear_screen_vm).
Proof.
  apply preserves_modify. intros s (Hlen & Hrun & Hrom). unfold rom_kept.
  rewrite (clear_screen_vm_field memory), (clear_screen_vm_field running)
    by reflexivity.
  now repeat split.
Qed.

Create HintDb rom.
#[local] Hint Resolve preserves_ret preserves_gets preserves_exit
  preserves_mem_read preserves_mem_read16 rom_kept_mem_write
  rom_kept_read_button rom_kept_clear_screen_vm : rom.

Ltac rom_steps :=
  repeat match goal with
    | |- preserves _ _ => solve [ auto with rom ]
    | |- preserves _ (_ ≫= _) => apply preserves_bind; [ | intros ? ]
    | |- preserves _ (when _ _) => apply preserves_when; intros ?
    | |- preserves _ (if _ then _ else _) => apply preserves_if
    | |- preserves _ (modify _) =>
        apply preserves_modify; let s := fresh "s" in
        let H := fresh "H" in intros s H; exact H
    end.

Lemma rom_kept_fetch : preserves (rom_kept s0) fetch.
Proof. unfold fetch. rom_steps. Qed.

Lemma rom_kept_write_alu_dest dest val :
  preserves (rom_kept s0) (write_alu_dest dest val).
Proof. unfold write_alu_dest. cbv zeta. rom_steps. Qed.

Lemma rom_kept_put_char_vm ch : preserves (rom_kept s0) (put_char_vm ch).
Proof. unfold put_char_vm. cbv zeta. rom_steps. Qed.

#[local] Hint Resolve rom_kept_fetch rom_kept_write_alu_dest rom_kept_put_char_vm : rom.

Lemma rom_kept_execute opcode : preserves (rom_kept s0) (execute opcode).
Proof. unfold execute. cbv zeta. rom_steps. Qed.

Lemma rom_kept_step : preserves (rom_kept s0) step.
Proof.
  unfold step. apply preserves_bind; [apply rom_kept_fetch | apply rom_kept_execute].
Qed.
End RomKept.

Lemma rom_kept_refl s : rom_kept s s.
Proof. now repeat split. Qed.

Lemma rom_kept_reaches allowed s0 s : reaches allowed s0 s -> rom_kept s0 s.
Proof.
  induction 1 as [|s s' _ IH _ Hstep]; [apply rom_kept_refl|].
  exact (rom_kept_step s0 s tt s' IH Hstep).
Qed.

(** X1: no instruction changes the bytes below [SRAM_START]: after any
    number of instructions that returned, the memory has its initial size
    and its first 57344 bytes are those the run started with. *)
Theorem rom_is_never_modified allowed s0 s :
  reaches allowed s0 s ->
  length (memory s) = length (memory s0) /\
  (forall a, 0 <= a < SRAM_START -> aget (memory s) a = aget (memory s0) a).
Proof.
  intros Hr. destruct (rom_kept_reaches allowed s0 s Hr) as (Hlen & _ & Hrom).
  now split.
Qed.

Lemma rom_is_never_modified_witness :
  let s0 := set_A 0xE000 (cold_start rol_image []) in
  let s1 := after (step s0) s0 in
  let s2 := after (step s1) s1 in
  let s3 := after (step s2) s2 in
  (aget (memory s3) 0xE000 = 0x55 /\ aget (memory s0) 0xE000 = 0) /\
  (forall a, 0 <= a < SRAM_START -> aget (memory s3) a = aget (memory s0) a).
Proof.
  intros s0 s1 s2 s3. split; [split; vm_compute; reflexivity|].
  apply (rom_is_never_modified any_state s0 s3).
  apply (reaches_after any_state s0 s2);
    [apply (reaches_after any_state s0 s1);
       [apply (reaches_after any_state s0 s0); [apply reaches_refl | |] | |] | |];
    vm_compute; reflexivity.
Defined.


(** *** The flags of the main loop *)

Lemma wait_mem_write addr v :
  preserves (fun s => waiting_key s = false) (mem_write addr v).
Proof.
  intros s r s' HP H.
  destruct (mem_write_cases addr v s) as [[_ E]|[_ E]]; rewrite E in H;
    [discriminate | inversion H; subst; exact HP].
Qed.

Lemma wait_read_button : preserves (fun s => waiting_key s = false) read_button.
Proof.
  intros s r s' HP. unfold read_button.
  destruct (scan_keys (keys s)) as [[b rest]|]; [ | discriminate ].
  intros [= _ <-]. exact HP.
Qed.

Lemma wait_clear_screen_vm :
  preserves (fun s => waiting_key s = false) (modify clear_screen_vm).
Proof.
  apply preserves_modify. intros s H.
  now rewrite (clear_screen_vm_field waiting_key) by reflexivity.
Qed.

Create HintDb wait.
#[local] Hint Resolve preserves_ret preserves_gets preserves_exit
  preserves_mem_read preserves_mem_read16 wait_mem_write
  wait_read_button wait_clear_screen_vm : wait.

Ltac wait_steps :=
  repeat match goal with
    | |- preserves _ _ => solve [ auto with wait ]
    | |- preserves _ (_ ≫= _) => apply preserves_bind; [ | intros ? ]
    | |- preserves _ (when _ _) => apply preserves_when; intros ?
    | |- preserves _ (if _ then _ else _) => apply preserves_if
    | |- preserves _ (modify _) =>
        apply preserves_modify; let s := fresh "s" in
        let H := fresh "H" in intros s H; exact H
    end.

Lemma wait_fetch : preserves (fun s => waiting_key s = false) fetch.
Proof. unfold fetch. wait_steps. Qed.

Lemma wait_write_alu_dest dest val :
  preserves (fun s => waiting_key s = false) (write_alu_dest dest val).
Proof. unfold write_alu_dest. cbv zeta. wait_steps. Qed.

Lemma wait_put_char_vm ch :
  preserves (fun s => waiting_key s = false) (put_char_vm ch).
Proof. unfold put_char_vm. cbv zeta. wait_steps. Qed.

#[local] Hint Resolve wait_fetch wait_write_alu_dest wait_put_char_vm : wait.

(** The key-wait instruction sets the flag around [read_button] only. *)
Lemma wait_key_block :
  preserves (fun s => waiting_key s = false)
    (modify (set_waiting_key true);;
     b ← read_button;
     a ← gets A; mem_write a b;;
     modify (set_waiting_key false)).
Proof.
  intros s r s' _ H.
  apply bind_inv in H as (r1 & s1 & _ & H).
  apply bind_inv in H as (b & s2 & _ & H).
  apply bind_inv in H as (a & s3 & _ & H).
  apply bind_inv in H as (r4 & s4 & _ & H).
  inversion H; subst. reflexivity.
Qed.

#[local] Hint Resolve wait_key_block : wait.

Lemma wait_execute opcode :
  preserves (fun s => waiting_key s = false) (execute opcode).
Proof. unfold execute. cbv zeta. wait_steps. Qed.

Lemma wait_step : preserves (fun s => waiting_key s = false) step.
Proof.
  unfold step. apply preserves_bind; [apply wait_fetch | apply wait_execute].
Qed.

Lemma burst_steps n s : waiting_key s = false -> burst n s = steps n s.
Proof.
  revert s. induction n as [|n IH]; intros s Hw; [reflexivity|].
  cbn [burst steps]. unfold mbind at 1, M_bind at 1, gets at 1. rewrite Hw.
  unfold mbind, M_bind.
  destruct (step s) as [[] s'| |] eqn:E; try reflexivity.
  apply IH. exact (wait_step s tt s' Hw E).
Qed.

(** X2: no instruction clears [running], and [waiting_key] is false again
    whenever an instruction has returned.  The machine has no halt, and the
    guard [!waiting_key] of the inner loop of [main] never cuts a burst
    short: a burst is its instructions in a row. *)
Theorem machine_never_halts allowed s0 s :
  reaches allowed s0 s ->
  running s = running s0 /\
  (waiting_key s0 = false ->
   waiting_key s = false /\ forall n, burst n s = steps n s).
Proof.
  intros Hr. split; [apply (rom_kept_reaches allowed s0 s Hr)|].
  intros H0.
  assert (Hw : waiting_key s = false).
  { induction Hr as [|s s' _ IH _ Hstep]; [exact H0|].
    exact (wait_step s tt s' IH Hstep). }
  split; [exact Hw|]. intros n. now apply burst_steps.
Qed.

Lemma machine_never_halts_witness :
  let s0 := set_A 0xE000 (cold_start (aset (zeros MEM_SIZE) 0 0xA0) [120; 119]) in
  let s1 := after (step s0) s0 in
  (keys s1 = [] /\ aget (memory s1) 0xE000 = 1) /\
  running s1 = true /\ waiting_key s1 = false /\ burst 2 s1 = steps 2 s1.
Proof.
  intros s0 s1. split; [split; vm_compute; reflexivity|].
  destruct (machine_never_halts any_state s0 s1) as [Hrun Hwait].
  - apply (reaches_after any_state s0 s0); [apply reaches_refl | |];
      vm_compute; reflexivity.
  - split; [rewrite Hrun; vm_compute; reflexivity|].
    destruct Hwait as [Hw Hb]; [vm_compute; reflexivity|].
    split; [exact Hw | apply Hb].
Defined.

(** *** Memory *)

(** X3: a write at or above [SRAM_START] returns, and a read of the same
    address then yields the value written, reduced to a byte; every other
    cell reads as before. *)
Theorem sram_write_then_read addr v s :
  Z.of_nat (length (memory s)) = MEM_SIZE ->
  SRAM_START <= u16 addr ->
  exists s',
    mem_write addr v s = Done tt s' /\
    mem_read addr s' = Done (u8 v) s' /\
    (forall a, u16 a <> u16 addr ->
       mem_read a s' = Done (aget (memory s) (u16 a)) s').
Proof.
  intros Hlen Hge. unfold MEM_SIZE in Hlen. pose proof (u16_range addr).
  destruct (mem_write_cases addr v s) as [[Hlt _]|[_ E]]; [lia|].
  eexists. split; [exact E|]. split.
  - rewrite mem_read_done. cbn [memory set_memory].
    now rewrite NessyProofs.aget_aset_eq by lia.
  - intros a Ha. rewrite mem_read_done. cbn [memory set_memory].
    pose proof (u16_range a). now rewrite NessyProofs.aget_aset_ne by lia.
Qed.

Lemma sram_write_then_read_witness :
  exists s',
    mem_write 0x1E000 0x155 (cold_start rol_image []) = Done tt s' /\
    mem_read 0x1E000 s' = Done 0x55 s' /\
    (forall a, u16 a <> u16 0x1E000 ->
       mem_read a s' = Done (aget (memory (cold_start rol_image [])) (u16 a)) s').
Proof.
  apply (sram_write_then_read 0x1E000 0x155 (cold_start rol_image []));
    vm_compute; [reflexivity | discriminate].
Defined.

(** *** Input *)

Lemma button_range c b : button_of_key c = Some b -> 0 <= b <= 3.
Proof.
  unfold button_of_key.
  repeat match goal with |- context [if ?g then _ else _] => destruct g end;
    intros [= <-]; lia.
Qed.

Lemma scan_keys_spec ks :
  match scan_keys ks with
  | Some (b, rest) =>
      exists dropped c,
        ks = dropped ++ c :: rest /\ Forall unmapped dropped /\
        button_of_key c = Some b
  | None => Forall unmapped ks
  end.
Proof.
  induction ks as [|c ks IH]; cbn [scan_keys]; [constructor|].
  destruct (button_of_key c) as [b|] eqn:E.
  - exists [], c. now repeat split.
  - destruct (scan_keys ks) as [[b rest]|].
    + destruct IH as (dropped & c' & -> & Hd & Hb).
      exists (c :: dropped), c'. repeat split; [now constructor | exact Hb].
    + now constructor.
Qed.

(** X4: [read_button] consumes the pending keys up to and including the
    first one that has a button, returns that button (a number from 0 to 3)
    and changes nothing else; it stays in [getch] exactly when no pending
    key has a button, and it never leaves the program. *)
Theorem read_button_takes_first_mapped_key s :
  match read_button s with
  | Done b s' =>
      exists dropped c,
        keys s = dropped ++ c :: keys s' /\ Forall unmapped dropped /\
        button_of_key c = Some b /\ 0 <= b <= 3 /\ s' = set_keys (keys s') s
  | Blocked => Forall unmapped (keys s)
  | Exit _ => False
  end.
Proof.
  unfold read_button. pose proof (scan_keys_spec (keys s)) as H.
  destruct (scan_keys (keys s)) as [[b rest]|]; [|exact H].
  destruct H as (dropped & c & E & Hd & Hb).
  exists dropped, c. cbn [keys set_keys].
  repeat split; try assumption; apply (button_range c b Hb).
Qed.

(** *** Display *)

(** X5: [put_char_vm] draws the character (a space for the byte 0) at the
    cursor, refreshes, and moves the cursor one cell forward in row-major
    order, from the last cell back to the first; memory and registers are
    left alone. *)
Theorem put_char_advances_cursor ch s :
  cursor_ok s ->
  exists s',
    put_char_vm ch s = Done tt s' /\
    display s' =
      Refresh :: Mvaddch (cur_y s) (cur_x s) (if u8 ch =? 0 then 32 else u8 ch)
              :: display s /\
    cur_y s' * SCREEN_W + cur_x s' =
      (cur_y s * SCREEN_W + cur_x s + 1) mod (SCREEN_W * SCREEN_H) /\
    cursor_ok s' /\
    s' = set_display (display s') (set_cur_x (cur_x s') (set_cur_y (cur_y s') s)).
Proof.
  intros [Hx Hy]. unfold cursor_ok, SCREEN_W, SCREEN_H in *.
  unfold put_char_vm, mbind, M_bind, modify, gets, when. cbn.
  assert (Ex : u8 (cur_x s + 1) = cur_x s + 1)
    by (unfold u8; apply Z.mod_small; lia).
  assert (Ey : u8 (cur_y s + 1) = cur_y s + 1)
    by (unfold u8; apply Z.mod_small; lia).
  rewrite Ex. unfold SCREEN_W, SCREEN_H, truthy.
  destruct (Z.leb_spec 36 (cur_x s + 1)); cbn; [rewrite Ey|];
    [destruct (Z.leb_spec 24 (cur_y s + 1)); cbn|];
    eexists; (split; [reflexivity|]); cbn;
    (split; [destruct (u8 ch =? 0); reflexivity|]);
    (split; [Z.div_mod_to_equations; lia|]);
    (split; [lia|]); reflexivity.
Qed.

Lemma put_char_advances_cursor_witness :
  let s := set_cur_x 35 (set_cur_y 23 (cold_start rol_image [])) in
  exists s',
    put_char_vm 0 s = Done tt s' /\
    display s' = Refresh :: Mvaddch 23 35 32 :: display s /\
    cur_y s' * SCREEN_W + cur_x s' = 0.
Proof.
  intros s.
  destruct (put_char_advances_cursor 0 s) as (s' & E & Hd & Hc & _).
  - unfold cursor_ok, SCREEN_W, SCREEN_H. subst s. cbn [cur_x cur_y set_cur_x set_cur_y]. lia.
  - exists s'. split; [exact E|]. split; [exact Hd|]. rewrite Hc.
    vm_compute. reflexivity.
Defined.

Lemma row_cells_display y cols s :
  display (foldl (fun s x => mvaddch y x 32 s) s cols) =
  rev (map (fun x => Mvaddch y x 32) cols) ++ display s.
Proof.
  revert s. induction cols as [|x cols IH]; intros s; [reflexivity|].
  cbn [foldl map rev]. rewrite IH. cbn [display mvaddch set_display].
  now rewrite <- app_assoc.
Qed.

Lemma grid_cells_display rows cols s :
  display (foldl (fun s y => foldl (fun s x => mvaddch y x 32 s) s cols) s rows) =
  rev (y ← rows; x ← cols; [Mvaddch y x 32]) ++ display s.
Proof.
  revert s. induction rows as [|y rows IH]; intros s; [reflexivity|].
  cbn [foldl]. rewrite IH, row_cells_display.
  change (y :: rows) with ([y] ++ rows).
  rewrite bind_app, rev_app_distr, <- app_assoc. f_equal. f_equal.
  cbn [mbind list_bind app].
  rewrite app_nil_r. clear. induction cols as [|x cols IH]; [reflexivity|].
  cbn. now rewrite IH.
Qed.

(** X6: [clear_screen_vm] writes a space into each of the 36 x 24 cells of
    the screen, once, row by row, and refreshes; it does not move the
    cursor and changes nothing but the terminal. *)
Theorem clear_screen_writes_every_cell s :
  let s' := clear_screen_vm s in
  display s' =
    Refresh :: rev (map (fun c => Mvaddch c.1 c.2 32) screen_cells) ++ display s /\
  length screen_cells = 864%nat /\ NoDup screen_cells /\
  (forall y x, (y, x) ∈ screen_cells <-> 0 <= y < SCREEN_H /\ 0 <= x < SCREEN_W) /\
  s' = set_display (display s') s.
Proof.
  cbv zeta. split; [|split; [|split; [|split]]].
  - unfold clear_screen_vm, refresh. cbn [display set_display].
    rewrite grid_cells_display. reflexivity.
  - vm_compute. reflexivity.
  - unfold screen_cells. apply NoDup_bind; [| |apply NoDup_seqZ].
    + intros y1 y2 c _ _ H1 H2.
      apply list_elem_of_bind in H1 as (x1 & H1 & _).
      apply list_elem_of_bind in H2 as (x2 & H2 & _).
      apply list_elem_of_singleton in H1, H2. congruence.
    + intros y _. apply NoDup_bind; [| |apply NoDup_seqZ].
      * intros x1 x2 c _ _ H1 H2. apply list_elem_of_singleton in H1, H2. congruence.
      * intros x _. apply NoDup_singleton.
  - intros y x. unfold screen_cells. rewrite list_elem_of_bind. split.
    + intros (y' & H & Hy). apply list_elem_of_bind in H as (x' & H & Hx).
      apply list_elem_of_singleton in H. injection H as -> ->.
      apply elem_of_seqZ in Hy, Hx. unfold SCREEN_H, SCREEN_W in *. lia.
    + intros [Hy Hx]. exists y. split; [|apply elem_of_seqZ; lia].
      apply list_elem_of_bind. exists x. split; [|apply elem_of_seqZ; lia].
      now apply list_elem_of_singleton.
  - unfold clear_screen_vm, refresh.
    match goal with |- context [foldl ?f s ?l] => set (t := foldl f s l) end.
    assert (E : forall (Y : Type) (g : VM -> Y),
               (forall s v, g (set_display v s) = g s) -> g t = g s).
    { intros Y g Hg. subst t. apply foldl_field. intros s1 y.
      apply foldl_field. intros s2 x. apply Hg. }
    unfold set_display at 1 3. cbn [display].
    rewrite !E by reflexivity. reflexivity.
Qed.

(** *** The ALU *)

Lemma land_low_bit v : Z.land v 1 = v mod 2.
Proof. change 1 with (Z.ones 1) at 1. now rewrite Z.land_ones by lia. Qed.

(** Evaluation of [execute] at a numeral opcode that reads no memory. *)
Ltac run_alu :=
  unfold execute; cbv zeta; closed_guards;
  cbv beta iota delta [mbind M_bind mret M_ret gets modify when write_alu_dest];
  closed_guards; cbv beta iota.

(** X7: the ALU opcodes [0x63] and [0x65] add and subtract with carry on
    bytes: [D0] becomes [D0 + D1 + C] resp. [D0 - D1 - C] modulo 256 and [C]
    the carry out resp. the borrow; nothing else changes. *)
Theorem alu_add_sub_with_carry s :
  0 <= D0 s < 256 -> 0 <= D1 s < 256 ->
  let c := carry_in s in
  execute 0x63 s =
    Done tt (set_D0 ((D0 s + D1 s + c) mod 256) (set_C (256 <=? D0 s + D1 s + c) s)) /\
  execute 0x65 s =
    Done tt (set_D0 ((D0 s - D1 s - c) mod 256) (set_C (D0 s - D1 s - c <? 0) s)).
Proof.
  intros H0 H1 c.
  assert (Hc : 0 <= c <= 1) by (subst c; unfold carry_in; destruct (C s); lia).
  split; run_alu; fold c; rewrite NessyProofs.land_FF.
  - rewrite (u16_small (D0 s + D1 s + c)) by lia.
    rewrite (u8_small ((D0 s + D1 s + c) mod 256))
      by (apply Z.mod_pos_bound; lia).
    replace (255 <? D0 s + D1 s + c) with (256 <=? D0 s + D1 s + c)
      by (destruct (Z.leb_spec 256 (D0 s + D1 s + c)),
                   (Z.ltb_spec 255 (D0 s + D1 s + c)); lia || reflexivity).
    reflexivity.
  - rewrite (u8_small ((D0 s - D1 s - c) mod 256))
      by (apply Z.mod_pos_bound; lia).
    reflexivity.
Qed.

Lemma alu_add_sub_with_carry_witness :
  let s := set_D0 0xF0 (set_D1 0x20 (set_C true (cold_start rol_image []))) in
  D0 (after (execute 0x63 s) s) = 0x11 /\ C (after (execute 0x63 s) s) = true /\
  D0 (after (execute 0x65 s) s) = 0xCF /\ C (after (execute 0x65 s) s) = false.
Proof.
  intros s.
  destruct (alu_add_sub_with_carry s) as [Ea Es];
    [subst s; cbn [D0 D1 set_D0 set_D1]; lia
    |subst s; cbn [D0 D1 set_D0 set_D1 set_C]; lia|].
  rewrite Ea, Es. repeat split.
Defined.

(** X8: rotating [D0] left through the carry ([0x6F]) and then right
    ([0x71]) gives back the machine it started from: the nine bits of [C]
    and [D0] are rotated, not shifted. *)
Theorem rol_then_ror_restores s :
  0 <= D0 s < 256 ->
  exists s1,
    execute 0x6F s = Done tt s1 /\
    D0 s1 = (2 * D0 s + carry_in s) mod 256 /\ C s1 = (128 <=? D0 s) /\
    execute 0x71 s1 = Done tt s.
Proof.
  intros H0. eexists. split; [run_alu; reflexivity|].
  cbn [D0 C set_D0 set_C]. unfold carry_in.
  assert (Er : u16 (Z.lor (Z.shiftl (D0 s) 1) (if C s then 1 else 0)) =
               2 * D0 s + (if C s then 1 else 0)).
  { rewrite NessyProofs.lor_shiftl_add by (destruct (C s); lia).
    change (2 ^ 1) with 2. rewrite u16_small by (destruct (C s); lia). lia. }
  rewrite Er, NessyProofs.land_FF.
  set (r := 2 * D0 s + (if C s then 1 else 0)).
  assert (Hr : 0 <= r < 512) by (subst r; destruct (C s); lia).
  rewrite (u8_small (r mod 256)) by (apply Z.mod_pos_bound; lia).
  split; [reflexivity|].
  split.
  { destruct (Z.ltb_spec 255 r), (Z.leb_spec 128 (D0 s)); try reflexivity;
      subst r; destruct (C s); lia. }
  run_alu. cbn [D0 C set_D0 set_C].
  rewrite land_low_bit, Z.shiftr_div_pow2 by lia. change (2 ^ 1) with 2.
  assert (Ec : truthy (r mod 256 mod 2) = C s).
  { unfold truthy. subst r. destruct (C s);
      match goal with |- negb (?u =? 0) = _ =>
        destruct (Z.eqb_spec u 0) as [E|E] end;
      try reflexivity; exfalso; Z.div_mod_to_equations; lia. }
  assert (Ed : u8 (Z.lor (r mod 256 / 2) (if 255 <? r then 128 else 0)) = D0 s).
  { destruct (Z.ltb_spec 255 r).
    - rewrite Z.lor_comm. change 128 with (Z.shiftl 1 7).
      rewrite NessyProofs.lor_shiftl_add by (change (2 ^ 7) with 128; Z.div_mod_to_equations; lia).
      change (2 ^ 7) with 128. rewrite u8_small; subst r; destruct (C s);
        Z.div_mod_to_equations; lia.
    - rewrite Z.lor_0_r. rewrite u8_small; subst r; destruct (C s);
        Z.div_mod_to_equations; lia. }
  rewrite Ec, Ed, (u8_small (D0 s) H0). destruct s; reflexivity.
Qed.

Lemma rol_then_ror_restores_witness :
  let s := set_D0 0xAA (cold_start rol_image []) in
  exists s1,
    execute 0x6F s = Done tt s1 /\ D0 s1 = 0x54 /\ C s1 = true /\
    execute 0x71 s1 = Done tt s.
Proof.
  intros s.
  destruct (rol_then_ror_restores s) as (s1 & E1 & Hd & Hc & E2);
    [subst s; cbn [D0 set_D0]; lia|].
  exists s1. split; [exact E1|]. split; [rewrite Hd; vm_compute; reflexivity|].
  split; [rewrite Hc; vm_compute; reflexivity | exact E2].
Defined.

(** *** Undefined opcodes *)

Lemma land_FE v : 0 <= v < 256 -> Z.land v 0xFE = 2 * (v / 2).
Proof.
  intros Hv.
  assert (H : forallb (fun v => Z.land v 0xFE =? 2 * (v / 2)) (seqZ 0 256) = true)
    by (vm_compute; reflexivity).
  rewrite forallb_forall in H. apply Z.eqb_eq, H.
  apply list_elem_of_In, elem_of_seqZ. lia.
Qed.

(** X9: a byte that none of the [if] statements of [step] reacts to is a
    one-byte no-op: the instruction only advances [PC]. *)
Theorem undefined_opcode_is_nop s :
  0 <= next_opcode s < 256 -> decodes (next_opcode s) = false ->
  step s = Done tt (set_PC (u16 (PC s + 1)) s).
Proof.
  intros Hb Hd. unfold step. rewrite (bind_done _ _ _ _ _ (fetch_done s)).
  generalize (set_PC (u16 (PC s + 1)) s). intros t.
  set (op := next_opcode s) in *.
  unfold decodes in Hd.
  repeat match type of Hd with
    | (_ || _) = false => apply orb_false_iff in Hd as [Hd ?]
    end.
  repeat match goal with
    | H : (_ && _) = false |- _ => apply andb_false_iff in H
    end.
  pose proof (land_FE op Hb) as Hl.
  rewrite ?Z.leb_gt in *.
  unfold execute. cbv zeta.
  repeat match goal with
    | |- context [op =? ?k] =>
        is_Z_const k;
        replace (op =? k) with false
          by (symmetry; apply Z.eqb_neq; lia)
    | |- context [Z.land op 254 =? ?k] =>
        is_Z_const k;
        replace (Z.land op 254 =? k) with false
          by (symmetry; apply Z.eqb_neq; rewrite Hl;
              Z.div_mod_to_equations; lia)
    end.
  reflexivity.
Qed.

Lemma undefined_opcode_is_nop_witness :
  let s := cold_start (aset (zeros MEM_SIZE) 0 0x72) [] in
  step s = Done tt (set_PC 1 s).
Proof.
  intros s. apply (undefined_opcode_is_nop s); vm_compute;
    [split; [discriminate | reflexivity] | reflexivity].
Defined.

(** *** The loader *)

Lemma hex_digit_facts v :
  0 <= v < 16 ->
  is_xdigit (hex_digit v) = true /\ xdigit_value (hex_digit v) = v /\
  is_x (hex_digit v) = false /\ (hex_digit v =? 58) = false /\
  (hex_digit v =? 32) = false.
Proof. intros Hv. each_value v 0; vm_compute; repeat split. Qed.

Lemma store_bytes_hex bytes :
  Forall (fun b => 0 <= b < 256) bytes ->
  forall addr mem,
  store_bytes ((b ← bytes; 32 :: hex2 b) ++ [10]) addr mem =
  Some (poke mem addr bytes).
Proof.
  induction 1 as [|b bytes Hb _ IH]; intros addr mem; [reflexivity|].
  change (b :: bytes) with ([b] ++ bytes).
  rewrite bind_app, <- app_assoc. cbn [mbind list_bind app hex2].
  destruct (hex_digit_facts (b / 16)) as (X1 & V1 & N1 & _ & S1);
    [Z.div_mod_to_equations; lia|].
  destruct (hex_digit_facts (b mod 16)) as (X2 & V2 & _);
    [Z.div_mod_to_equations; lia|].
  cbn [store_bytes Z.eqb Pos.eqb]. rewrite S1, X1, X2, V1, V2. cbn [negb].
  replace ((hex_digit (b / 16) =? 48) && is_x (hex_digit (b mod 16))) with false
    by (destruct (hex_digit_facts (b mod 16)) as (_ & _ & -> & _);
        [Z.div_mod_to_equations; lia | now rewrite andb_false_r]).
  replace (16 * (b / 16) + b mod 16) with b by (Z.div_mod_to_equations; lia).
  cbn [poke app]. apply IH.
Qed.

Lemma scan_address_digits c1 c2 l :
  is_x c2 = false ->
  scan_address (c1 :: c2 :: l) =
  (let v := scan_hex (c1 :: c2 :: l) 0 in if v <? 65536 then Some v else None).
Proof.
  intros Hx. unfold scan_address.
  destruct c1 as [|q|q]; try reflexivity.
  repeat (destruct q as [q|q|]; try reflexivity). now rewrite Hx.
Qed.

Lemma hex_digit_range v : 0 <= v < 16 -> 32 < hex_digit v.
Proof. intros Hv. unfold hex_digit. destruct (v <? 10); lia. Qed.

(** A line of program text without its newline: its characters are
    neither newlines nor zeros, and there are five and three for each
    byte. *)
Lemma hex_line_text addr bytes :
  0 <= addr < 65536 -> Forall (fun b => 0 <= b < 256) bytes ->
  exists text,
    hex_line addr bytes = text ++ [10] /\
    Forall (fun c => 32 <= c) text /\
    length text = (5 + 3 * length bytes)%nat.
Proof.
  intros Ha Hb.
  exists (hex2 (addr / 256) ++ hex2 (addr mod 256) ++ [58]
            ++ (b ← bytes; 32 :: hex2 b)).
  split; [unfold hex_line; now rewrite <- !app_assoc|].
  assert (H2 : forall b, 0 <= b < 256 -> Forall (fun c => 32 <= c) (hex2 b)).
  { intros b Hb'. unfold hex2.
    pose proof (hex_digit_range (b / 16)). pose proof (hex_digit_range (b mod 16)).
    repeat constructor; Z.div_mod_to_equations; lia. }
  split.
  - rewrite !Forall_app. split; [apply H2; Z.div_mod_to_equations; lia|].
    split; [apply H2; Z.div_mod_to_equations; lia|].
    split; [repeat constructor; lia|].
    induction Hb as [|b bytes Hb' _ IH]; [constructor|].
    cbn [mbind list_bind app]. constructor; [lia|].
    apply Forall_app. split; [apply H2, Hb' | exact IH].
  - rewrite !length_app. cbn [hex2 length].
    assert (L : length (b ← bytes; 32 :: hex2 b) = (3 * length bytes)%nat).
    { clear. induction bytes as [|b bytes IH]; [reflexivity|].
      cbn [mbind list_bind app length hex2]. cbn [mbind] in IH. rewrite IH. lia. }
    rewrite L. lia.
Qed.

(** A newline within the room of the buffer ends the call of [fgets]. *)
Lemma fgets_lines_newline text : forall cur rest,
  Forall (fun c => c <> 10) text ->
  Z.of_nat (length cur + length text) < LINE_SIZE - 1 ->
  fgets_lines cur (text ++ 10 :: rest) =
  (cur ++ text ++ [10]) :: fgets_lines [] rest.
Proof.
  induction text as [|c text IH]; intros cur rest Hnl Hlen.
  - reflexivity.
  - apply Forall_cons in Hnl as [Hc Hnl]. cbn [app fgets_lines].
    rewrite length_app. cbn [length] in *.
    destruct (Z.eqb_spec c 10); [contradiction|].
    destruct (Z.eqb_spec (Z.of_nat (length cur + 1)) (LINE_SIZE - 1)); [lia|].
    cbn [orb]. rewrite IH by (trivial; rewrite length_app; cbn [length]; lia).
    now rewrite <- app_assoc.
Qed.

Lemma c_string_no_zero buf : Forall (fun c => c <> 0) buf -> c_string buf = buf.
Proof.
  induction 1 as [|c buf Hc _ IH]; [reflexivity|]. cbn [c_string].
  destruct (Z.eqb_spec c 0); [contradiction|]. now rewrite IH.
Qed.

(** A line of program text, handed to the body of the loop. *)
Lemma load_line_hex_line addr bytes mem :
  0 <= addr < 65536 -> Forall (fun b => 0 <= b < 256) bytes ->
  load_line (hex_line addr bytes) mem = Some (poke mem addr bytes).
Proof.
  intros Ha Hb.
  unfold hex_line, hex2. cbn [app].
  set (tail := (b ← bytes; 32 :: [hex_digit (b / 16); hex_digit (b mod 16)]) ++ [10]).
  destruct (hex_digit_facts (addr / 256 / 16)) as (X1 & V1 & N1 & C1 & _);
    [Z.div_mod_to_equations; lia|].
  destruct (hex_digit_facts (addr / 256 mod 16)) as (X2 & V2 & N2 & C2 & _);
    [Z.div_mod_to_equations; lia|].
  destruct (hex_digit_facts (addr mod 256 / 16)) as (X3 & V3 & N3 & C3 & _);
    [Z.div_mod_to_equations; lia|].
  destruct (hex_digit_facts (addr mod 256 mod 16)) as (X4 & V4 & N4 & C4 & _);
    [Z.div_mod_to_equations; lia|].
  unfold load_line. rewrite X1.
  assert (Es : scan_address
                 (hex_digit (addr / 256 / 16) :: hex_digit (addr / 256 mod 16)
                  :: hex_digit (addr mod 256 / 16)
                  :: hex_digit (addr mod 256 mod 16) :: 58 :: tail) = Some addr).
  { rewrite scan_address_digits by exact N2. cbv zeta. cbn [scan_hex].
    rewrite X1, X2, X3, X4, V1, V2, V3, V4.
    change (is_xdigit 58) with false. cbv iota.
    replace (16 * (16 * (16 * (16 * 0 + addr / 256 / 16) + addr / 256 mod 16)
                   + addr mod 256 / 16) + addr mod 256 mod 16)
      with addr by (Z.div_mod_to_equations; lia).
    destruct (Z.ltb_spec addr 65536); [reflexivity | lia]. }
  rewrite Es. cbn [mbind option_bind after_colon].
  rewrite C1, C2, C3, C4. cbn [Z.eqb Pos.eqb].
  subst tail. now apply (store_bytes_hex bytes Hb addr mem).
Qed.

(** X10: the loader reads back what [hex_line] writes.  A line of the file
    made of a four-digit address, a colon, at most 168 two-digit bytes,
    each after a space, and a newline (at most 510 characters, so that
    [fgets] delivers it whole) stores the bytes at the address and the
    following ones, wrapping after [0xFFFF]; nothing keeps it out of the
    bytes below [SRAM_START], and loading goes on with the rest of the
    file.  A line of at most 511 characters whose first character is no
    hexadecimal digit is skipped, and the empty file changes nothing. *)
Theorem load_hex_reads_hex_line addr bytes rest mem :
  0 <= addr < 65536 -> Forall (fun b => 0 <= b < 256) bytes ->
  (length bytes <= 168)%nat ->
  load_hex (hex_line addr bytes ++ rest) mem = load_hex rest (poke mem addr bytes) /\
  (forall text,
     Forall (fun c => c <> 10) text -> (length text <= 510)%nat ->
     match text with c :: _ => is_xdigit c = false | [] => True end ->
     load_hex (text ++ 10 :: rest) mem = load_hex rest mem) /\
  load_hex [] mem = Some mem.
Proof.
  intros Ha Hb Hn. split; [|split; [|reflexivity]].
  - destruct (hex_line_text addr bytes Ha Hb) as (text & E & Hc & Hl).
    pose proof (load_line_hex_line addr bytes mem Ha Hb) as Hline.
    rewrite E in *. rewrite <- app_assoc. cbn [app]. unfold load_hex.
    rewrite fgets_lines_newline
      by (try (eapply Forall_impl; [exact Hc | cbn; intros; lia]);
          cbn [length]; unfold LINE_SIZE; lia).
    cbn [app foldl mbind option_bind].
    rewrite c_string_no_zero
      by (apply Forall_app; split;
          [eapply Forall_impl; [exact Hc | cbn; intros; lia]
          | repeat constructor; lia]).
    now rewrite Hline.
  - intros text Hnl Hlen Hfirst. unfold load_hex.
    rewrite fgets_lines_newline by (trivial; cbn [length]; unfold LINE_SIZE; lia).
    cbn [app foldl mbind option_bind].
    replace (load_line (c_string (text ++ [10])) mem) with (Some mem); [reflexivity|].
    destruct text as [|c text]; [reflexivity|].
    cbn [app c_string]. destruct (Z.eqb_spec c 0); [reflexivity|].
    unfold load_line. now rewrite Hfirst.
Qed.

Lemma load_hex_reads_hex_line_witness :
  hex_line 0xE0FF [0x01; 0x2A] =
    [101; 48; 102; 102; 58; 32; 48; 49; 32; 50; 97; 10] /\
  load_hex (hex_line 0xE0FF [0x01; 0x2A] ++ [59; 10]) (zeros MEM_SIZE) =
    Some (aset (aset (zeros MEM_SIZE) 0xE0FF 0x01) 0xE100 0x2A).
Proof.
  split; [reflexivity|].
  destruct (load_hex_reads_hex_line 0xE0FF [0x01; 0x2A] [59; 10] (zeros MEM_SIZE))
    as (E & _); [lia | repeat constructor; lia | cbn [length]; lia |].
  rewrite E.
  destruct (load_hex_reads_hex_line 0xE0FF [0x01; 0x2A] []
              (poke (zeros MEM_SIZE) 0xE0FF [0x01; 0x2A]))
    as (_ & S & _); [lia | repeat constructor; lia | cbn [length]; lia |].
  etransitivity;
    [apply (S [59]); [repeat constructor; lia | cbn [length]; lia | reflexivity]|].
  reflexivity.
Defined.

End DuoVMLaws.

(* ===================================================================== *)
(** ** Further properties of Nessy *)
(* ===================================================================== *)

Module NessyLaws.
Import Nessy NessyProofs.

(** *** The CPU bus *)

Lemma truthy_land_4 f : truthy (Z.land f 4) = Z.testbit f 2.
Proof. apply (truthy_land_pow2 f 2). lia. Qed.

Lemma land_7FF v : Z.land v 0x7FF = v mod 0x800.
Proof. change 0x7FF with (Z.ones 11). now rewrite Z.land_ones by lia. Qed.

(** X11: the 2 KiB of RAM answer at every address below [0x2000] that is
    congruent modulo [0x800]: a byte written at one of them is read back
    at all of them, the other cells keep their contents, and neither access
    touches anything but the RAM. *)
Theorem ram_write_then_read ad ad' v s :
  Z.of_nat (length (ram s)) = NES_RAM_SIZE ->
  0 <= ad < 0x2000 -> 0 <= ad' < 0x2000 ->
  let s' := snd (cpu_write ad v s) in
  cpu_read ad' s' =
    (if ad' mod 0x800 =? ad mod 0x800 then u8 v else fst (cpu_read ad' s), s') /\
  s' = set_ram (ram s') s.
Proof.
  intros Hlen Ha Ha' s'. unfold NES_RAM_SIZE in Hlen. subst s'.
  unfold cpu_write, cpu_read. cbv zeta. rewrite !u16_small by lia.
  destruct (Z.ltb_spec ad 0x2000); [|lia].
  destruct (Z.ltb_spec ad' 0x2000); [|lia].
  unfold modify, gets. cbn [fst snd ram set_ram]. rewrite !land_7FF.
  pose proof (Z.mod_pos_bound ad 0x800). pose proof (Z.mod_pos_bound ad' 0x800).
  split; [|now destruct s].
  destruct (Z.eqb_spec (ad' mod 0x800) (ad mod 0x800)) as [E|E].
  - rewrite E, aget_aset_eq by lia. reflexivity.
  - rewrite aget_aset_ne by lia. reflexivity.
Qed.

Lemma ram_write_then_read_witness :
  cpu_read 0x1803 (snd (cpu_write 0x0003 0x1AB latch_example)) =
    (0xAB, snd (cpu_write 0x0003 0x1AB latch_example)).
Proof.
  destruct (ram_write_then_read 0x0003 0x1803 0x1AB latch_example) as [E _];
    [vm_compute; reflexivity | lia | lia |].
  rewrite E. reflexivity.
Defined.

Lemma cpu_read_cartridge ad s :
  0x4000 <= ad < 0x10000 ->
  cpu_read ad s =
  (if ad <? 0x8000 then 0
   else aget (prg_rom (cart s)) ((ad - 0x8000) mod prg_rom_size (cart s)), s).
Proof.
  intros Ha. unfold cpu_read. cbv zeta. rewrite u16_small by lia.
  destruct (Z.ltb_spec ad 0x2000); [lia|].
  destruct (Z.ltb_spec ad 0x4000); [lia|].
  destruct (Z.leb_spec 0x8000 ad), (Z.ltb_spec ad 0x8000); try lia; [|reflexivity].
  unfold mbind, M_bind, gets.
  destruct (Z.eqb_spec (prg_rom_size (cart s)) PRG_ROM_BANK_SIZE) as [->|];
    reflexivity.
Qed.

(** X12: the cartridge space as the CPU sees it.  A read at [0x8000] or
    above yields the PRG byte at the offset from [0x8000], reduced modulo
    the PRG size, so that a 16 KiB program also appears at [0xC000]; a read
    between [0x4000] and [0x7FFF] yields 0; a write at [0x4000] or above is
    dropped.  None of these accesses changes the machine. *)
Theorem cartridge_space ad s :
  0x4000 <= ad < 0x10000 -> 0 < prg_rom_size (cart s) ->
  cpu_read ad s =
    (if ad <? 0x8000 then 0
     else aget (prg_rom (cart s)) ((ad - 0x8000) mod prg_rom_size (cart s)), s) /\
  (prg_rom_size (cart s) = PRG_ROM_BANK_SIZE -> 0x8000 <= ad < 0xC000 ->
   cpu_read (ad + 0x4000) s = cpu_read ad s) /\
  (forall v, cpu_write ad v s = (tt, s)).
Proof.
  intros Ha Hsize.
  split; [now apply cpu_read_cartridge|]. split.
  - intros E16 Hlow. rewrite !cpu_read_cartridge by lia.
    rewrite E16. unfold PRG_ROM_BANK_SIZE.
    destruct (Z.ltb_spec (ad + 0x4000) 0x8000), (Z.ltb_spec ad 0x8000); try lia.
    do 2 f_equal. Z.div_mod_to_equations. lia.
  - intros v. unfold cpu_write. cbv zeta. rewrite u16_small by lia.
    destruct (Z.ltb_spec ad 0x2000); [lia|].
    destruct (Z.ltb_spec ad 0x4000); [lia|]. reflexivity.
Qed.

Lemma cartridge_space_witness :
  fst (cpu_read 0xBFFD rti_machine) = 0x80 /\
  cpu_read 0xFFFD rti_machine = cpu_read 0xBFFD rti_machine /\
  cpu_write 0xBFFD 1 rti_machine = (tt, rti_machine).
Proof.
  destruct (cartridge_space 0xBFFD rti_machine) as (E & Hm & Hw);
    [lia | vm_compute; reflexivity |].
  split; [rewrite E; vm_compute; reflexivity|].
  split; [apply Hm; [vm_compute; reflexivity | lia] | apply Hw].
Defined.

(** *** The loader *)




Lemma aget_drop l k i : 0 <= k -> 0 <= i -> aget (drop (Z.to_nat k) l) i = aget l (k + i).
Proof.
  intros Hk Hi. unfold aget. rewrite lookup_drop.
  now rewrite Z2Nat.inj_add by lia.
Qed.

Lemma aget_zeros n i : aget (zeros n) i = 0.
Proof.
  unfold aget, zeros.
  destruct (replicate (Z.to_nat n) 0 !! Z.to_nat i) eqn:E; [|reflexivity].
  apply lookup_replicate in E as [-> _]. reflexivity.
Qed.

(** [memcpy] of [n] bytes that both arrays have. *)
Lemma memcpy_spec dst src n :
  0 <= n <= Z.of_nat (length src) -> n <= Z.of_nat (length dst) ->
  exists out,
    memcpy dst src n = Some out /\
    length out = length dst /\
    (forall i, 0 <= i < n -> aget out i = aget src i) /\
    (forall i, n <= i -> aget out i = aget dst i).
Proof.
  intros Hs Hd. unfold memcpy.
  destruct (Z.leb_spec n (Z.of_nat (length dst))); [|lia].
  destruct (Z.leb_spec n (Z.of_nat (length src))); [|lia].
  cbn [andb]. eexists. split; [reflexivity|].
  assert (Hlen : length (take (Z.to_nat n) src) = Z.to_nat n)
    by (rewrite length_take; lia).
  split; [rewrite length_app, length_drop, Hlen; lia|]. split.
  - intros i Hi. unfold aget.
    rewrite lookup_app_l by lia. now rewrite lookup_take_lt by lia.
  - intros i Hi. unfold aget.
    rewrite lookup_app_r by lia. rewrite lookup_drop, Hlen.
    now replace (Z.to_nat n + (Z.to_nat i - Z.to_nat n))%nat with (Z.to_nat i) by lia.
Qed.

(** X14: a successful [parse_ines] of an image with at most two PRG banks
    and at most one CHR bank copies the PRG bytes that follow the header
    (and the trainer, when bit 2 of byte 6 announces one) to the start of
    [prg_rom] and the CHR bytes after them to the start of [chr_rom]; the
    rest of both arrays is zero, and the recorded sizes are those of the
    banks, with 16384 standing in for an empty PRG. *)
Theorem parse_ines_copies_banks image cart0 :
  fst (parse_ines image cart0) = true ->
  rom_size image = Z.of_nat (length (rom_data image)) ->
  0 <= aget (rom_data image) 4 <= 2 -> 0 <= aget (rom_data image) 5 <= 1 ->
  let h := rom_data image in
  let off := if Z.testbit (aget h 6) 2 then 528 else 16 in
  let prg_size := aget h 4 * PRG_ROM_BANK_SIZE in
  let chr_size := aget h 5 * CHR_ROM_BANK_SIZE in
  exists c,
  snd (parse_ines image cart0) = Some c /\
  (forall i, 0 <= i < prg_size -> aget (prg_rom c) i = aget h (off + i)) /\
  (forall i, prg_size <= i -> aget (prg_rom c) i = 0) /\
  (forall i, 0 <= i < chr_size -> aget (chr_rom c) i = aget h (off + prg_size + i)) /\
  (forall i, chr_size <= i -> aget (chr_rom c) i = 0) /\
  Z.of_nat (length (prg_rom c)) = 2 * PRG_ROM_BANK_SIZE /\
  Z.of_nat (length (chr_rom c)) = CHR_ROM_BANK_SIZE /\
  prg_rom_size c = (if aget h 4 =? 0 then PRG_ROM_BANK_SIZE else prg_size) /\
  chr_rom_size c = chr_size.
Proof.
  intros Hok Hlen Hprg Hchr h off prg_size chr_size.
  subst h off prg_size chr_size. revert Hok.
  unfold parse_ines. cbv zeta.
  rewrite !truthy_land_4.
  destruct (rom_size image <? 16); [discriminate|].
  destruct (negb (bool_decide _)); [discriminate|].
  destruct (negb (u8 (Z.shiftr (aget (rom_data image) 6) 4) =? 0)); [discriminate|].
  unfold PRG_ROM_BANK_SIZE, CHR_ROM_BANK_SIZE in *.
  set (data := rom_data image) in *.
  set (np := aget data 4) in *. set (nc := aget data 5) in *.
  set (off := if Z.testbit (aget data 6) 2 then 16 + 512 else 16).
  assert (Hoff : off = if Z.testbit (aget data 6) 2 then 528 else 16)
    by (subst off; destruct (Z.testbit (aget data 6) 2); reflexivity).
  rewrite <- Hoff.
  assert (H0 : 16 <= off) by (rewrite Hoff; destruct (Z.testbit _ 2); lia).
  destruct (Z.ltb_spec (rom_size image) (off + np * 16384 + nc * 8192));
    [discriminate|]. intros _.
  cbn [prg_rom chr_rom prg_rom_size chr_rom_size set_chr_rom].
  destruct (memcpy_spec (zeros (16384 * 2)) (drop (Z.to_nat off) data) (np * 16384))
    as (prg & -> & Lp & Pin & Pout);
    [rewrite length_drop; lia | unfold zeros; rewrite length_replicate; lia|].
  cbn [snd mbind option_bind prg_rom chr_rom prg_rom_size chr_rom_size].
  assert (Ep : (if truthy (np * 16384) then np * 16384 else 16384) =
               (if np =? 0 then 16384 else np * 16384)).
  { unfold truthy. destruct (Z.eqb_spec np 0) as [->|]; [reflexivity|].
    destruct (Z.eqb_spec (np * 16384) 0); [lia | reflexivity]. }
  rewrite Ep.
  assert (Lz : Z.of_nat (length (zeros (16384 * 2))) = 32768)
    by (unfold zeros; rewrite length_replicate; apply Z2Nat.id; lia).
  assert (Lc : Z.of_nat (length (zeros 8192)) = 8192)
    by (unfold zeros; rewrite length_replicate; apply Z2Nat.id; lia).
  destruct (Z.ltb_spec 0 (nc * 8192)) as [Hpos|Hzero];
    [destruct (memcpy_spec (zeros 8192)
                 (drop (Z.to_nat (off + np * 16384)) data) (nc * 8192))
       as (chr & -> & Lq & Qin & Qout);
       [rewrite length_drop; lia | rewrite Lc; lia|]|];
    cbn [mbind option_bind]; eexists; (split; [reflexivity|]);
    cbn [prg_rom chr_rom prg_rom_size chr_rom_size set_chr_rom];
    (split; [intros i Hi; rewrite Pin, aget_drop by lia; reflexivity|]);
    (split; [intros i Hi; rewrite Pout by lia; apply aget_zeros|]).
  - split; [intros i Hi; rewrite Qin, aget_drop by lia; reflexivity|].
    split; [intros i Hi; rewrite Qout by lia; apply aget_zeros|].
    rewrite Lp, Lq. split; [exact Lz|]. split; [exact Lc|]. split; reflexivity.
  - split; [intros i Hi; lia|].
    split; [intros i Hi; apply aget_zeros|].
    rewrite Lp. split; [exact Lz|]. split; [exact Lc|]. split; reflexivity.
Qed.

Lemma parse_ines_copies_banks_witness :
  exists c,
    snd (parse_ines rti_rom (cart nes_zero)) = Some c /\
    aget (prg_rom c) 5 = 0x40 /\ aget (prg_rom c) 0x3FFD = 0x80 /\
    aget (prg_rom c) 0x4000 = 0 /\
    prg_rom_size c = 16384 /\ chr_rom_size c = 0.
Proof.
  destruct (parse_ines_copies_banks rti_rom (cart nes_zero))
    as (c & Ec & Hin & Hout & _ & _ & _ & _ & Hp & Hc);
    [vm_compute; reflexivity | vm_compute; reflexivity
    | vm_compute; split; discriminate | vm_compute; split; discriminate |].
  exists c. split; [exact Ec|].
  split; [etransitivity; [apply (Hin 5); vm_compute; split; [discriminate | reflexivity]
                         | vm_compute; reflexivity]|].
  split; [etransitivity; [apply (Hin 0x3FFD); vm_compute; split; [discriminate | reflexivity]
                         | vm_compute; reflexivity]|].
  split; [apply (Hout 0x4000); vm_compute; discriminate|].
  split; [etransitivity; [apply Hp | vm_compute; reflexivity]
         |etransitivity; [apply Hc | vm_compute; reflexivity]].
Defined.

(** With at most two PRG banks and one CHR bank, both copies of an
    accepted image stay inside their arrays. *)
Lemma parse_ines_defined image cart0 :
  fst (parse_ines image cart0) = true ->
  rom_size image = Z.of_nat (length (rom_data image)) ->
  0 <= aget (rom_data image) 4 <= 2 -> 0 <= aget (rom_data image) 5 <= 1 ->
  is_Some (snd (parse_ines image cart0)).
Proof.
  intros Hok Hlen Hprg Hchr. revert Hok.
  unfold parse_ines. cbv zeta.
  destruct (rom_size image <? 16); [discriminate|].
  destruct (negb (bool_decide _)); [discriminate|].
  destruct (negb (u8 (Z.shiftr (aget (rom_data image) 6) 4) =? 0)); [discriminate|].
  unfold PRG_ROM_BANK_SIZE, CHR_ROM_BANK_SIZE in *.
  set (data := rom_data image) in *.
  set (np := aget data 4) in *. set (nc := aget data 5) in *.
  set (off := if truthy (Z.land (aget data 6) 4) then 16 + 512 else 16).
  assert (H0 : 16 <= off) by (subst off; destruct (truthy _); lia).
  destruct (Z.ltb_spec (rom_size image) (off + np * 16384 + nc * 8192));
    [discriminate|]. intros _.
  cbn [snd prg_rom chr_rom prg_rom_size chr_rom_size].
  destruct (memcpy_spec (zeros (16384 * 2)) (drop (Z.to_nat off) data) (np * 16384))
    as (prg & -> & _);
    [rewrite length_drop; lia | unfold zeros; rewrite length_replicate; lia|].
  cbn [mbind option_bind prg_rom chr_rom prg_rom_size chr_rom_size].
  destruct (0 <? nc * 8192); [|eauto].
  destruct (memcpy_spec (zeros 8192)
              (drop (Z.to_nat (off + np * 16384)) data) (nc * 8192))
    as (chr & -> & _);
    [rewrite length_drop; lia | unfold zeros; rewrite length_replicate; lia|].
  cbn [mbind option_bind]. eauto.
Qed.

(** X15: [main] from the image to its loop, for an image whose recorded
    size is the number of its bytes.  The run ends before the loop with
    [return 1] exactly when [parse_ines] refuses the image.  An accepted
    image that announces more than two PRG banks or more than one CHR bank
    is copied past the arrays of the cartridge, and nothing is said of the
    machine.  Otherwise the loop starts with the parsed cartridge (whose PRG
    size is at least one bank, so the address reduction of [cpu_read] never
    divides by zero), a reset PPU, zeroed RAM, [A = X = Y = 0], [SP = 0xFD],
    [P = 0x24], 7 cycles on the clock, and [PC] taken little-endian from the
    PRG bytes that answer at [0xFFFC] and [0xFFFD]. *)
Theorem power_on_state image :
  rom_size image = Z.of_nat (length (rom_data image)) ->
  0 <= aget (rom_data image) 4 -> 0 <= aget (rom_data image) 5 ->
  let accepted := fst (parse_ines image (cart nes_zero)) in
  let fits := aget (rom_data image) 4 <= 2 /\ aget (rom_data image) 5 <= 1 in
  match power_on image with
  | Refused => accepted = false
  | Overrun => accepted = true /\ ~ fits
  | Started s =>
      accepted = true /\ fits /\
      snd (parse_ines image (cart nes_zero)) = Some (cart s) /\
      PRG_ROM_BANK_SIZE <= prg_rom_size (cart s) /\
      ppu s = ppu_reset (ppu nes_zero) /\ ram s = zeros NES_RAM_SIZE /\
      let lo := aget (prg_rom (cart s)) (0x7FFC mod prg_rom_size (cart s)) in
      let hi := aget (prg_rom (cart s)) (0x7FFD mod prg_rom_size (cart s)) in
      cpu s = mkCPU 0 0 0 0xFD 0x24 (u16 (Z.lor lo (Z.shiftl hi 8))) 7
  end.
Proof.
  intros Hlen Hb Hc accepted fits. subst accepted fits.
  unfold power_on. cbv zeta.
  pose proof (fun c => parse_ines_sizes image (cart nes_zero) c) as Hs.
  pose proof (parse_ines_defined image (cart nes_zero)) as Hd.
  destruct (parse_ines image (cart nes_zero)) as [ok parsed]. cbn [fst snd] in *.
  destruct ok; cbn [negb]; [|reflexivity].
  destruct parsed as [c|].
  - destruct (Hs c eq_refl eq_refl) as (Hp2 & Hc1 & Hp & _). clear Hs Hd.
    assert (Hfit : aget (rom_data image) 4 <= 2 /\ aget (rom_data image) 5 <= 1)
      by (unfold PRG_ROM_BANK_SIZE, CHR_ROM_BANK_SIZE in *; lia).
    assert (Hpos : PRG_ROM_BANK_SIZE <= prg_rom_size c).
    { rewrite Hp. unfold truthy, PRG_ROM_BANK_SIZE.
      destruct (Z.eqb_spec (aget (rom_data image) 4 * 16384) 0); cbn [negb]; lia. }
    unfold PRG_ROM_BANK_SIZE in Hpos.
    rewrite !cpu_read_cartridge by (cbn [cart set_cart set_ppu]; lia).
    cbn [Z.ltb Z.compare Pos.compare Pos.compare_cont cart set_cart set_ppu ppu ram
         set_cpu cpu].
    split; [reflexivity|]. split; [exact Hfit|]. split; [reflexivity|].
    split; [exact Hpos|]. split; [reflexivity|]. split; reflexivity.
  - split; [reflexivity|]. intros [H4 H5].
    destruct (Hd eq_refl Hlen ltac:(lia) ltac:(lia)) as [x Hx]. discriminate.
Qed.

Lemma power_on_state_witness :
  match power_on rti_rom with
  | Started s => pc (cpu s) = 0x8000 /\ sp (cpu s) = 0xFD /\ p (cpu s) = 0x24
  | _ => False
  end.
Proof.
  assert (Hl : rom_size rti_rom = Z.of_nat (length (rom_data rti_rom)))
    by (vm_compute; reflexivity).
  assert (Hb : 0 <= aget (rom_data rti_rom) 4) by (vm_compute; discriminate).
  assert (Hc : 0 <= aget (rom_data rti_rom) 5) by (vm_compute; discriminate).
  pose proof (power_on_state rti_rom Hl Hb Hc) as H1. cbv zeta in H1.
  destruct (power_on rti_rom) as [| |s].
  - vm_compute in H1. discriminate.
  - destruct H1 as [_ Hn]. apply Hn. vm_compute. split; discriminate.
  - destruct H1 as (_ & _ & Hcart & _ & _ & _ & Hcpu).
    rewrite Hcpu. cbn [pc sp p].
    split; [|split; reflexivity].
    assert (Ec : cart s =
                 default (cart nes_zero) (snd (parse_ines rti_rom (cart nes_zero))))
      by (rewrite Hcart; reflexivity).
    rewrite Ec. vm_compute. reflexivity.
Defined.

(** *** PPU memory *)

Lemma land_3FFF v : Z.land (u16 v) 0x3FFF = v mod 0x4000.
Proof.
  change 0x3FFF with (Z.ones 14). rewrite Z.land_ones by lia.
  unfold u16. change (2 ^ 14) with 0x4000. Z.div_mod_to_equations. lia.
Qed.

Lemma land_1F v : Z.land v 0x1F = v mod 0x20.
Proof. change 0x1F with (Z.ones 5). now rewrite Z.land_ones by lia. Qed.

(** A masked value does not exceed the mask. *)
Lemma land_le_mask x m : 0 <= m -> 0 <= Z.land x m <= m.
Proof.
  intros Hm.
  assert (Hd : Z.land (Z.land x m) (Z.land (Z.lnot x) m) = 0).
  { apply Z.bits_inj'. intros n Hn.
    rewrite !Z.land_spec, Z.lnot_spec, Z.bits_0 by lia.
    destruct (Z.testbit x n), (Z.testbit m n); reflexivity. }
  assert (Hs : Z.land x m + Z.land (Z.lnot x) m = m).
  { rewrite Z.add_nocarry_lxor, Z.lxor_lor by exact Hd.
    rewrite <- Z.land_lor_distr_l, Z.lor_lnot_diag. apply Z.land_m1_l. }
  assert (0 <= Z.land x m) by (apply Z.land_nonneg; now right).
  assert (0 <= Z.land (Z.lnot x) m) by (apply Z.land_nonneg; now right).
  lia.
Qed.

(** The mask of [ppu_mirror_vram_addr] leaves nothing for its test. *)
Lemma mirror_mask_below x : Z.land x 0x2FFF < 0x3000.
Proof. pose proof (land_le_mask x 0x2FFF). lia. Qed.

Lemma ppu_mirror_vram_addr_mask ad :
  ppu_mirror_vram_addr ad = Z.land (u16 ad) 0x2FFF.
Proof.
  unfold ppu_mirror_vram_addr. cbv zeta.
  pose proof (mirror_mask_below (u16 ad)).
  destruct (Z.leb_spec 0x3000 (Z.land (u16 ad) 0x2FFF)); [lia | reflexivity].
Qed.

Lemma vram_index a : Z.land (ppu_mirror_vram_addr a) 0x7FF = a mod 0x800.
Proof.
  rewrite ppu_mirror_vram_addr_mask, <- Z.land_assoc.
  change (Z.land 0x2FFF 0x7FF) with 0x7FF. rewrite land_7FF.
  unfold u16. Z.div_mod_to_equations. lia.
Qed.

Lemma palette_index a : Z.land (Z.lor 0x3F00 (Z.land a 0x1F)) 0x1F = a mod 0x20.
Proof.
  rewrite Z.land_lor_distr_l, <- Z.land_assoc.
  change (Z.land 0x3F00 0x1F) with 0. change (Z.land 0x1F 0x1F) with 0x1F.
  rewrite Z.lor_0_l. apply land_1F.
Qed.

Lemma ppu_read_decoded s ad :
  ppu_read s ad =
  let a := ad mod 0x4000 in
  if a <? 0x2000 then
    if chr_rom_size (cart s) =? 0 then 0
    else aget (chr_rom (cart s)) (a mod chr_rom_size (cart s))
  else if a <? 0x3F00 then aget (vram (ppu s)) (a mod 0x800)
  else aget (palette (ppu s)) (a mod 0x20).
Proof.
  unfold ppu_read. cbv zeta. rewrite land_3FFF, vram_index, palette_index.
  reflexivity.
Qed.

Lemma ppu_write_decoded s ad v :
  ppu_write ad v s =
  let a := ad mod 0x4000 in
  if a <? 0x2000 then
    if chr_rom_size (cart s) =? 0 then s
    else set_cart (set_chr_rom (aset (chr_rom (cart s))
                                     (a mod chr_rom_size (cart s)) (u8 v))
                               (cart s)) s
  else if a <? 0x3F00 then
    set_ppu (set_vram (aset (vram (ppu s)) (a mod 0x800) (u8 v)) (ppu s)) s
  else
    set_ppu (set_palette (aset (palette (ppu s)) (a mod 0x20) (u8 v)) (ppu s)) s.
Proof.
  unfold ppu_write. cbv zeta. rewrite land_3FFF, vram_index, palette_index.
  reflexivity.
Qed.

(** X16: the address space of the PPU.  [ppu_read] looks at the low 14
    bits of the address only.  Below [0x2000] the byte comes from CHR, at
    the address reduced modulo the CHR size (0 when the cartridge has no
    CHR); from [0x2000] to [0x3EFF] it is the VRAM byte at the address
    modulo [0x800], so the four nametables are two and [0x3000] repeats
    [0x2000]; from [0x3F00] on it is the palette byte at the address modulo
    32.  The mask of [ppu_mirror_vram_addr] already brings the address below
    [0x3000]: its subtraction is never taken.  [ppu_write] stores through
    the same decoding, into CHR as well: a byte written is read back at the
    same address, unless the cartridge has no CHR there to hold it. *)
Theorem ppu_memory_map s ad v :
  let a := ad mod 0x4000 in
  ppu_read s ad =
    (if a <? 0x2000 then
       if chr_rom_size (cart s) =? 0 then 0
       else aget (chr_rom (cart s)) (a mod chr_rom_size (cart s))
     else if a <? 0x3F00 then aget (vram (ppu s)) (a mod 0x800)
     else aget (palette (ppu s)) (a mod 0x20)) /\
  ppu_mirror_vram_addr ad = Z.land (u16 ad) 0x2FFF /\
  (Z.of_nat (length (vram (ppu s))) = PPU_VRAM_SIZE ->
   Z.of_nat (length (palette (ppu s))) = PPU_PALETTE_SIZE ->
   0 <= chr_rom_size (cart s) <= Z.of_nat (length (chr_rom (cart s))) ->
   ppu_read (ppu_write ad v s) ad =
     (if (a <? 0x2000) && (chr_rom_size (cart s) =? 0) then 0 else u8 v)).
Proof.
  cbv zeta. split; [apply ppu_read_decoded|].
  split; [apply ppu_mirror_vram_addr_mask|].
  unfold PPU_VRAM_SIZE, PPU_PALETTE_SIZE. intros Hv Hp Hc.
  rewrite ppu_read_decoded, ppu_write_decoded. cbv zeta.
  pose proof (Z.mod_pos_bound ad 0x4000).
  pose proof (Z.mod_pos_bound (ad mod 0x4000) 0x800).
  pose proof (Z.mod_pos_bound (ad mod 0x4000) 0x20).
  destruct (Z.ltb_spec (ad mod 0x4000) 0x2000); cbn [andb].
  - destruct (Z.eqb_spec (chr_rom_size (cart s)) 0) as [E|E]; [now rewrite E|].
    cbn [cart set_cart chr_rom_size chr_rom set_chr_rom].
    destruct (Z.eqb_spec (chr_rom_size (cart s)) 0); [contradiction|].
    pose proof (Z.mod_pos_bound (ad mod 0x4000) (chr_rom_size (cart s))).
    now rewrite aget_aset_eq by lia.
  - destruct (Z.ltb_spec (ad mod 0x4000) 0x3F00);
      cbn [ppu set_ppu vram set_vram palette set_palette];
      now rewrite aget_aset_eq by lia.
Qed.

(** *** PPU registers *)

Lemma ppu_read_register_low ad ad' s :
  Z.land (u16 ad) 7 = Z.land (u16 ad') 7 ->
  ppu_read_register ad s = ppu_read_register ad' s.
Proof. intros E. unfold ppu_read_register. cbv zeta. now rewrite E. Qed.

Lemma ppu_write_register_low ad ad' v s :
  Z.land (u16 ad) 7 = Z.land (u16 ad') 7 ->
  ppu_write_register ad v s = ppu_write_register ad' v s.
Proof. intros E. unfold ppu_write_register. cbv zeta. now rewrite E. Qed.

(** X17: the eight PPU registers repeat every 8 bytes from [0x2000] to
    [0x3FFF], for reads and for writes; a read of a register other than 2,
    4 and 7 yields 0 and changes nothing. *)
Theorem ppu_registers_repeat ad v s :
  0x2000 <= ad < 0x4000 ->
  cpu_read ad s = cpu_read (0x2000 + ad mod 8) s /\
  cpu_write ad v s = cpu_write (0x2000 + ad mod 8) v s /\
  (ad mod 8 <> 2 -> ad mod 8 <> 4 -> ad mod 8 <> 7 -> cpu_read ad s = (0, s)).
Proof.
  intros Ha. pose proof (Z.mod_pos_bound ad 8).
  assert (E : Z.land (u16 ad) 7 = Z.land (u16 (0x2000 + ad mod 8)) 7).
  { rewrite !land7_mod8, !u16_small by lia. Z.div_mod_to_equations. lia. }
  rewrite !cpu_read_ppu, !cpu_write_ppu by lia.
  split; [now apply ppu_read_register_low|].
  split; [now apply ppu_write_register_low|].
  intros H2 H4 H7. unfold ppu_read_register. cbv zeta.
  rewrite land7_mod8, u16_small by lia.
  assert (Hk : 0 <= ad mod 8 < 8) by lia.
  revert H2 H4 H7. generalize dependent (ad mod 8). intros k _ _ Hk H2 H4 H7.
  each_value k 0; reflexivity.
Qed.

Lemma ppu_registers_repeat_witness :
  cpu_read 0x3FFA latch_example = cpu_read 0x2002 latch_example /\
  cpu_read 0x3FF9 latch_example = (0, latch_example).
Proof.
  destruct (ppu_registers_repeat 0x3FFA 0 latch_example) as (E & _ & _); [lia|].
  destruct (ppu_registers_repeat 0x3FF9 0 latch_example) as (_ & _ & Z0); [lia|].
  split; [exact E | apply Z0; vm_compute; discriminate].
Defined.

Lemma land_3F v : Z.land v 0x3F = v mod 64.
Proof. change 0x3F with (Z.ones 6). now rewrite Z.land_ones by lia. Qed.

Lemma ctrl_increment u :
  vram_addr_advance u =
  set_vram_addr (u16 (vram_addr u + (if Z.testbit (ctrl u) 2 then 32 else 1))) u.
Proof.
  unfold vram_addr_advance.
  now rewrite truthy_land_4.
Qed.

(** The two kinds of write to register 6. *)
Lemma address_write_first v s :
  addr_latch (ppu s) = 0 ->
  ppu_write_register 0x2006 v s =
  (tt, set_ppu (set_addr_latch 1
         (set_temp_addr
            (u16 (Z.lor (Z.land (temp_addr (ppu s)) 0x00FF)
                        (Z.shiftl (Z.land (u8 v) 0x3F) 8))) (ppu s))) s).
Proof.
  intros Hl. unfold ppu_write_register. cbv zeta.
  change (Z.land (u16 0x2006) 7) with 6. cbv iota.
  unfold mbind at 1, M_bind at 1, gets at 1. rewrite Hl. reflexivity.
Qed.

Lemma address_write_second v s :
  addr_latch (ppu s) <> 0 ->
  ppu_write_register 0x2006 v s =
  (tt, let t := u16 (Z.lor (Z.land (temp_addr (ppu s)) 0xFF00) (u8 v)) in
       set_ppu (set_addr_latch 0 (set_vram_addr t (set_temp_addr t (ppu s)))) s).
Proof.
  intros Hl. unfold ppu_write_register. cbv zeta.
  change (Z.land (u16 0x2006) 7) with 6. cbv iota.
  unfold mbind at 1, M_bind at 1, gets at 1. unfold truthy.
  destruct (Z.eqb_spec (addr_latch (ppu s)) 0); [contradiction|]. reflexivity.
Qed.

(** Two writes to register 6, starting with the latch clear. *)
Lemma address_pair s hi lo :
  addr_latch (ppu s) = 0 -> 0 <= hi < 256 -> 0 <= lo < 256 ->
  snd (cpu_write 0x2006 lo (snd (cpu_write 0x2006 hi s))) =
  set_ppu (set_vram_addr (hi mod 64 * 256 + lo)
             (set_temp_addr (hi mod 64 * 256 + lo) (ppu s))) s.
Proof.
  intros Hl Hhi Hlo. rewrite !cpu_write_ppu by lia.
  rewrite (address_write_first hi s Hl). cbn [snd].
  rewrite address_write_second by (cbn; lia). cbv zeta.
  cbn [snd ppu set_ppu temp_addr set_temp_addr set_addr_latch set_vram_addr].
  rewrite !(u8_small hi), !(u8_small lo), land_3F by lia.
  pose proof (Z.mod_pos_bound hi 64).
  set (t1 := u16 (Z.lor (Z.land (temp_addr (ppu s)) 255) (Z.shiftl (hi mod 64) 8))).
  pose proof (Z.mod_pos_bound (temp_addr (ppu s)) 256).
  assert (E1 : t1 = hi mod 64 * 256 + temp_addr (ppu s) mod 256).
  { subst t1. rewrite Z.lor_comm, land_FF.
    rewrite lor_shiftl_add by (change (2 ^ 8) with 256; lia).
    change (2 ^ 8) with 256. apply u16_small. lia. }
  assert (E2 : u16 (Z.lor (Z.land t1 0xFF00) lo) = hi mod 64 * 256 + lo).
  { rewrite land_FF00 by lia.
    rewrite lor_shiftl_add by (change (2 ^ 8) with 256; lia).
    change (2 ^ 8) with 256. rewrite u16_small by (Z.div_mod_to_equations; lia).
    rewrite E1. Z.div_mod_to_equations. lia. }
  rewrite E2. destruct s as [c u k r]. destruct u. cbn in Hl. subst. reflexivity.
Qed.

(** X18: the address and data ports of the PPU, for the nametable
    addresses [0x2000] to [0x3DFF].  With the address latch clear, two
    writes to [$2006] (a high byte [hi] from [0x20] to [0x3D], then a low
    byte [lo]) point the PPU at [hi * 256 + lo]; a write to [$2007] stores a
    byte there and moves the address on by 1, or by 32 when bit 2 of [ctrl]
    is set.  After pointing at the same address again, the first read of
    [$2007] returns the stale read buffer and the second one the byte that
    was stored.  (Pattern and palette addresses behave differently and are
    not covered.) *)
Theorem ppu_data_port_round_trip s hi lo v :
  addr_latch (ppu s) = 0 ->
  Z.of_nat (length (vram (ppu s))) = PPU_VRAM_SIZE ->
  0x20 <= hi < 0x3E -> 0 <= lo < 256 ->
  let point := fun s => snd (cpu_write 0x2006 lo (snd (cpu_write 0x2006 hi s))) in
  let s1 := snd (cpu_write 0x2007 v (point s)) in
  let r1 := cpu_read 0x2007 (point s1) in
  let r2 := cpu_read 0x2007 (snd r1) in
  vram_addr (ppu (point s)) = hi * 256 + lo /\
  vram_addr (ppu s1) = hi * 256 + lo + (if Z.testbit (ctrl (ppu s)) 2 then 32 else 1) /\
  ppu_read s1 (hi * 256 + lo) = u8 v /\
  fst r1 = read_buffer (ppu s) /\
  fst r2 = u8 v.
Proof.
  intros Hl Hlen Hhi Hlo point s1 r1 r2. unfold PPU_VRAM_SIZE in Hlen.
  assert (Eh : hi mod 64 = hi) by (apply Z.mod_small; lia).
  set (A := hi * 256 + lo).
  assert (HA : 0x2000 <= A < 0x3E00) by (subst A; lia).
  assert (Ep : forall t, addr_latch (ppu t) = 0 ->
               point t = set_ppu (set_vram_addr A (set_temp_addr A (ppu t))) t).
  { intros t Ht. subst point. cbv beta. rewrite address_pair by lia.
    now rewrite Eh. }
  assert (Ew : forall t, snd (cpu_write 0x2007 v t) =
               (let t' := ppu_write (vram_addr (ppu t)) (u8 v) t in
                set_ppu (vram_addr_advance (ppu t')) t')).
  { intros t. rewrite cpu_write_ppu by lia. unfold ppu_write_register. cbv zeta.
    change (Z.land (u16 0x2007) 7) with 7. cbv iota. reflexivity. }
  assert (Er : forall t, vram_addr (ppu t) < 0x3F00 ->
               cpu_read 0x2007 t =
               (read_buffer (ppu t),
                set_ppu (vram_addr_advance
                           (set_read_buffer (ppu_read t (vram_addr (ppu t))) (ppu t))) t)).
  { intros t Ht. rewrite cpu_read_ppu by lia. unfold ppu_read_register. cbv zeta.
    change (Z.land (u16 0x2007) 7) with 7. cbv iota.
    unfold mbind at 1 2, M_bind at 1 2, gets at 1 2. cbv beta iota.
    destruct (Z.ltb_spec (vram_addr (ppu t)) 0x3F00); [|lia]. reflexivity. }
  set (inc := if Z.testbit (ctrl (ppu s)) 2 then 32 else 1).
  assert (Hinc : 1 <= inc <= 32) by (subst inc; destruct (Z.testbit _ 2); lia).
  pose proof (Z.mod_pos_bound A 0x800 ltac:(lia)).
  assert (Am : A mod 0x4000 = A) by (apply Z.mod_small; lia).
  (* the machine after the data write *)
  assert (E1 : s1 =
    set_ppu (set_vram_addr (A + inc)
               (set_vram (aset (vram (ppu s)) (A mod 0x800) (u8 v))
                  (set_vram_addr A (set_temp_addr A (ppu s))))) s).
  { subst s1. rewrite Ew, (Ep s Hl). cbv zeta.
    cbn [ppu set_ppu vram_addr set_vram_addr set_temp_addr].
    rewrite ppu_write_decoded. cbv zeta. rewrite u8_u8, Am.
    destruct (Z.ltb_spec A 0x2000); [lia|]. destruct (Z.ltb_spec A 0x3F00); [|lia].
    rewrite ctrl_increment.
    cbn [ppu set_ppu vram set_vram vram_addr set_vram_addr set_temp_addr ctrl
         temp_addr].
    fold inc. rewrite u16_small by lia.
    destruct s as [c u k r]. destruct u. reflexivity. }
  assert (Hl1 : addr_latch (ppu s1) = 0) by (rewrite E1; exact Hl).
  assert (Hv1 : ppu_read s1 A = u8 v).
  { rewrite ppu_read_decoded. cbv zeta. rewrite Am.
    destruct (Z.ltb_spec A 0x2000); [lia|]. destruct (Z.ltb_spec A 0x3F00); [|lia].
    rewrite E1. cbn [ppu set_ppu vram set_vram set_vram_addr set_temp_addr].
    now rewrite aget_aset_eq by lia. }
  split; [rewrite (Ep s Hl); reflexivity|].
  split; [rewrite E1; reflexivity|].
  split; [exact Hv1|].
  pose proof (Ep s1 Hl1) as Ep1.
  assert (Hr1 : r1 = (read_buffer (ppu s),
                      set_ppu (set_vram_addr (A + inc)
                                 (set_read_buffer (u8 v) (ppu (point s1)))) (point s1))).
  { subst r1. rewrite Er by (rewrite Ep1; cbn; lia).
    rewrite ctrl_increment.
    assert (Eq : ppu_read (point s1) (vram_addr (ppu (point s1))) = u8 v).
    { rewrite Ep1. cbn [ppu set_ppu vram_addr set_vram_addr].
      rewrite ppu_read_decoded in Hv1 |- *. exact Hv1. }
    rewrite Eq. f_equal; [rewrite Ep1, E1; reflexivity|].
    f_equal. cbn [vram_addr set_read_buffer ctrl].
    rewrite Ep1 at 1 2. cbn [ppu set_ppu vram_addr set_vram_addr ctrl set_temp_addr].
    rewrite E1 at 1. cbn [ppu set_ppu ctrl set_vram_addr set_vram set_temp_addr].
    fold inc. now rewrite u16_small by lia. }
  split; [rewrite Hr1; reflexivity|].
  subst r2. rewrite Hr1. cbn [snd]. rewrite Er by (cbn; lia). reflexivity.
Qed.

Lemma ppu_data_port_round_trip_witness :
  let point := fun s => snd (cpu_write 0x2006 0x41 (snd (cpu_write 0x2006 0x21 s))) in
  let s1 := snd (cpu_write 0x2007 0x5A (point latch_example)) in
  vram_addr (ppu s1) = 0x2142 /\
  fst (cpu_read 0x2007 (snd (cpu_read 0x2007 (point s1)))) = 0x5A.
Proof.
  destruct (ppu_data_port_round_trip latch_example 0x21 0x41 0x5A)
    as (_ & Ha & _ & _ & Hr); [reflexivity | vm_compute; reflexivity | lia | lia |].
  cbv zeta in Ha, Hr |- *. split; [rewrite Ha; vm_compute; reflexivity | exact Hr].
Defined.

(** X19: the OAM port.  A write to [$2003] selects a sprite byte, a write
    to [$2004] stores there and moves the selection on by one, modulo 256;
    a read of [$2004] returns the selected byte and leaves the selection
    where it is. *)
Theorem oam_port_round_trip s k v :
  Z.of_nat (length (oam (ppu s))) = OAM_SIZE -> 0 <= k < 256 ->
  let s2 := snd (cpu_write 0x2004 v (snd (cpu_write 0x2003 k s))) in
  aget (oam (ppu s2)) k = u8 v /\
  (forall i, 0 <= i -> i <> k -> aget (oam (ppu s2)) i = aget (oam (ppu s)) i) /\
  oam_addr (ppu s2) = (k + 1) mod 256 /\
  cpu_read 0x2004 s2 = (aget (oam (ppu s2)) ((k + 1) mod 256), s2) /\
  cpu_read 0x2004 (snd (cpu_write 0x2003 k s2)) = (u8 v, snd (cpu_write 0x2003 k s2)).
Proof.
  intros Hlen Hk s2. unfold OAM_SIZE in Hlen. subst s2.
  rewrite !cpu_write_ppu, !cpu_read_ppu by lia.
  unfold ppu_write_register, ppu_read_register. cbv zeta.
  change (Z.land (u16 0x2003) 7) with 3. change (Z.land (u16 0x2004) 7) with 4.
  cbv iota. nes_simpl.
  cbn [oam oam_addr set_oam set_oam_addr]. rewrite (u8_small k) by lia.
  split; [now rewrite aget_aset_eq by lia|].
  split; [intros i Hi Hne; now rewrite aget_aset_ne by lia|].
  split; [reflexivity|]. split; [reflexivity|].
  unfold gets. cbn [oam oam_addr set_oam set_oam_addr ppu set_ppu].
  now rewrite aget_aset_eq by lia.
Qed.

Lemma oam_port_round_trip_witness :
  let s2 := snd (cpu_write 0x2004 0x77 (snd (cpu_write 0x2003 0xFF latch_example))) in
  aget (oam (ppu s2)) 0xFF = 0x77 /\ oam_addr (ppu s2) = 0.
Proof.
  destruct (oam_port_round_trip latch_example 0xFF 0x77) as (Hv & _ & Ha & _);
    [vm_compute; reflexivity | lia |].
  cbv zeta in Hv, Ha |- *. split; [exact Hv | exact Ha].
Defined.

(** *** PPU timing *)

(** X20: [ppu_step] is a counter of 341 x 262 positions that starts over
    after the last one.  The VBlank bit of [status] is set on entering
    scanline 241 and cleared on entering scanline 0; the NMI request is
    raised on entering scanline 241 if bit 7 of [ctrl] is set, and dropped
    on entering scanline 0.  Nothing else changes. *)
Theorem ppu_step_counts_dots u :
  in_frame u ->
  let u' := ppu_step u in
  dot u' = (dot u + 1) mod DOTS_PER_FRAME /\ in_frame u' /\
  Z.testbit (status u') 7 =
    (if dot u' =? 241 * 341 then true
     else if dot u' =? 0 then false else Z.testbit (status u) 7) /\
  (forall n, 0 <= n < 7 -> Z.testbit (status u') n = Z.testbit (status u) n) /\
  nmi_triggered u' =
    (if dot u' =? 241 * 341 then Z.testbit (ctrl u) 7 || nmi_triggered u
     else if dot u' =? 0 then false else nmi_triggered u) /\
  u' = set_nmi_triggered (nmi_triggered u')
         (set_status (status u') (set_scanline (scanline u') (set_cycle (cycle u') u))).
Proof.
  intros [Hc Hs]. unfold ppu_step, dot, in_frame, DOTS_PER_FRAME. cbv zeta.
  cbn [cycle set_cycle]. change 128 with (2 ^ 7). rewrite truthy_land_pow2 by lia.
  assert (Hbit : forall v n, 0 <= n < 7 ->
            Z.testbit (u8 (Z.lor v (2 ^ 7))) n = Z.testbit v n).
  { intros v n Hn. bits. rewrite Z.pow2_bits_eqb by lia.
    destruct (Z.ltb_spec n 8); [|lia]. destruct (Z.eqb_spec 7 n); [lia|].
    cbn [andb negb orb]. now rewrite orb_false_r. }
  assert (Hbit' : forall v n, 0 <= n < 7 ->
            Z.testbit (u8 (Z.land v (Z.lnot (2 ^ 7)))) n = Z.testbit v n).
  { intros v n Hn. bits. rewrite Z.pow2_bits_eqb by lia.
    destruct (Z.ltb_spec n 8); [|lia]. destruct (Z.eqb_spec 7 n); [lia|].
    cbn [andb negb orb]. now rewrite andb_true_r. }
  assert (Hset : forall v, Z.testbit (u8 (Z.lor v (2 ^ 7))) 7 = true)
    by (intros v; bits; rewrite Z.pow2_bits_true by lia; apply orb_true_r).
  assert (Hclr : forall v, Z.testbit (u8 (Z.land v (Z.lnot (2 ^ 7)))) 7 = false)
    by (intros v; bits; rewrite Z.pow2_bits_true by lia; cbn; apply andb_false_r).
  destruct u as [ctrl0 mask0 status0 oam_addr0 scroll_latch0 addr_latch0
                 vram_addr0 temp_addr0 fine_x0 read_buffer0 vram0 palette0 oam0
                 framebuffer0 scanline0 cycle0 nmi0].
  cbn [cycle scanline status ctrl nmi_triggered set_cycle set_scanline set_status
       set_nmi_triggered] in *.
  destruct (Z.leb_spec 341 (cycle0 + 1)) as [Hwrap|Hstay];
    cbn [cycle scanline status ctrl nmi_triggered set_cycle set_scanline set_status
         set_nmi_triggered];
    [destruct (Z.eqb_spec (scanline0 + 1) 241) as [E241|N241];
       [destruct (Z.testbit ctrl0 7)|];
       cbn [cycle scanline status ctrl nmi_triggered set_cycle set_scanline
            set_status set_nmi_triggered];
       destruct (Z.leb_spec 262 (scanline0 + 1)) as [Hlast|Hmid];
       cbn [cycle scanline status ctrl nmi_triggered set_cycle set_scanline
            set_status set_nmi_triggered]|];
    try lia;
    repeat match goal with
      | |- context [?a =? ?b] =>
          destruct (Z.eqb_spec a b); try (exfalso; lia)
      end;
    (split; [Z.div_mod_to_equations; lia|]);
    (split; [lia|]);
    (split; [first [reflexivity | apply Hset | apply Hclr]|]);
    (split; [first [reflexivity | let k := fresh "k" in intros k ?; solve [apply Hbit; lia | apply Hbit'; lia]]|]);
    split; reflexivity.
Qed.

Lemma ppu_step_counts_dots_witness :
  let u := set_cycle 340 (set_scanline 261 (ppu latch_example)) in
  dot (ppu_step u) = 0 /\ Z.testbit (status (ppu_step u)) 7 = false.
Proof.
  intros u.
  destruct (ppu_step_counts_dots u) as (Hd & _ & Hv & _);
    [subst u; unfold in_frame; cbn [cycle scanline set_cycle set_scanline]; lia|].
  cbv zeta in Hd, Hv. rewrite Hv, Hd. split; vm_compute; reflexivity.
Defined.

(** *** The stack and the flag arithmetic *)

(** X21: [cpu_push] stores a byte at [0x100 + SP] and moves [SP] down by
    one, [cpu_pop] moves it up by one and reads there, both modulo 256: the
    stack stays in page one, a pop after a push returns the pushed byte and
    restores the registers, also across the wrap of [SP] from 0 to [0xFF]. *)
Theorem push_then_pop s v :
  0 <= sp (cpu s) < 256 -> Z.of_nat (length (ram s)) = NES_RAM_SIZE ->
  let s1 := snd (cpu_push v s) in
  sp (cpu s1) = (sp (cpu s) - 1) mod 256 /\
  aget (ram s1) (0x100 + sp (cpu s)) = u8 v /\
  (forall i, 0 <= i -> i <> 0x100 + sp (cpu s) -> aget (ram s1) i = aget (ram s) i) /\
  cpu_pop s1 = (u8 v, set_ram (ram s1) s).
Proof.
  intros Hsp Hlen s1. subst s1. unfold NES_RAM_SIZE in Hlen.
  unfold cpu_push, cpu_pop. cbv zeta. nes_simpl.
  assert (E : u8 (u8 (sp (cpu s) - 1) + 1) = sp (cpu s))
    by (unfold u8; Z.div_mod_to_equations; lia).
  rewrite E.
  split; [reflexivity|].
  split; [now rewrite aget_aset_eq by lia|].
  split; [intros i Hi Hne; now rewrite aget_aset_ne by lia|].
  rewrite aget_aset_eq by lia. f_equal.
  destruct s as [c u k r]. destruct c. cbn in *. reflexivity.
Qed.

Lemma push_then_pop_witness :
  let s := set_cpu (set_sp 0 (cpu latch_example)) latch_example in
  sp (cpu (snd (cpu_push 0x1C3 s))) = 0xFF /\
  fst (cpu_pop (snd (cpu_push 0x1C3 s))) = 0xC3 /\
  cpu (snd (cpu_pop (snd (cpu_push 0x1C3 s)))) = cpu s.
Proof.
  intros s.
  destruct (push_then_pop s 0x1C3) as (Hsp & _ & _ & Hpop);
    [subst s; cbn [sp cpu set_cpu set_sp]; lia | vm_compute; reflexivity |].
  cbv zeta in Hsp, Hpop. rewrite Hsp, Hpop.
  repeat split; vm_compute; reflexivity.
Defined.

(** X22: [cpu_compare] of a register byte [r] with a memory byte [m] sets
    the carry when [r >= m], the zero flag when [r = m] and the negative
    flag from bit 7 of [r - m] modulo 256; it changes no other flag and no
    register. *)
Theorem compare_spec (c : CPU) (r m : Z) :
  0 <= r < 256 -> 0 <= m < 256 ->
  let c' := cpu_compare r m c in
  Z.testbit (p c') 0 = (m <=? r) /\
  Z.testbit (p c') 1 = (r =? m) /\
  Z.testbit (p c') 7 = (128 <=? (r - m) mod 256) /\
  (forall n, 2 <= n <= 6 -> Z.testbit (p c') n = Z.testbit (p c) n) /\
  c' = set_p (p c') c.
Proof.
  intros Hr Hm c'. subst c'. unfold cpu_compare. cbv zeta.
  rewrite if_set_p, (u8_small r), (u8_small m) by lia.
  assert (Ed : u8 (u16 (r - m)) = (r - m) mod 256)
    by (unfold u8, u16; Z.div_mod_to_equations; lia).
  rewrite Ed.
  assert (Hp : forall n, 0 <= n -> Z.testbit (p (cpu_set_zn ((r - m) mod 256)
                  (set_p (if m <=? r then u8 (Z.lor (p c) FLAG_CARRY)
                          else u8 (Z.land (p c) (Z.lnot FLAG_CARRY))) c))) n = _)
    by (intros n Hn; exact (cpu_set_zn_p _ _ n Hn)).
  rewrite p_set_p in Hp. change FLAG_CARRY with (2 ^ 0) in *.
  pose proof (Z.mod_pos_bound (r - m) 256 ltac:(lia)) as Hd.
  rewrite (u8_small ((r - m) mod 256)) in Hp by lia.
  split; [rewrite Hp, testbit_assign by lia; reflexivity|].
  split.
  { rewrite Hp by lia. cbn [Z.eqb Pos.eqb].
    destruct (Z.eqb_spec ((r - m) mod 256) 0), (Z.eqb_spec r m); try reflexivity;
      exfalso; Z.div_mod_to_equations; lia. }
  split; [rewrite Hp by lia; apply testbit7_byte; lia|].
  split.
  { intros n Hn. rewrite Hp, testbit_assign by lia.
    destruct (Z.eqb_spec n 1), (Z.eqb_spec n 7), (Z.eqb_spec n 0),
      (Z.ltb_spec n 8); try lia. reflexivity. }
  destruct (cpu_set_zn_frame ((r - m) mod 256)
              (set_p (if m <=? r then u8 (Z.lor (p c) (2 ^ 0))
                      else u8 (Z.land (p c) (Z.lnot (2 ^ 0)))) c))
    as (Ea & Ex & Ey & Es & Epc & Ecy).
  destruct (cpu_set_zn _ _) as [a1 x1 y1 sp1 p1 pc1 cy1]. destruct c.
  cbn in *. now subst.
Qed.

Lemma compare_spec_witness :
  let c' := cpu_compare 0x10 0x20 adc_example in
  Z.testbit (p c') 0 = false /\ Z.testbit (p c') 1 = false /\
  Z.testbit (p c') 7 = true /\ a c' = 0x50.
Proof.
  destruct (compare_spec adc_example 0x10 0x20) as (HC & HZ & HN & _ & Hf);
    [lia | lia |].
  cbv zeta in *. rewrite HC, HZ, HN. rewrite Hf. repeat split.
Defined.

Lemma lnot_byte m : 0 <= m < 256 -> u8 (Z.lnot m) = 255 - m.
Proof.
  intros Hm. unfold Z.lnot, u8. Z.div_mod_to_equations. lia.
Qed.

(** X23: [cpu_sbc] subtracts the operand and the borrow (the inverted
    carry) from [A].  With [d = A - M - (1 - C)], the new [A] is [d] modulo
    256, the carry is set exactly when no borrow occurs ([d >= 0]), the
    overflow flag exactly when the two's-complement difference leaves
    [-128, 127], [Z] and [N] describe the new [A]; the other flags and
    registers keep their values. *)
Theorem sbc_spec (c : CPU) (m : Z) :
  0 <= a c < 256 -> 0 <= m < 256 ->
  let borrow := if Z.testbit (p c) 0 then 0 else 1 in
  let d := a c - m - borrow in
  let signed_d := s8 (a c) - s8 m - borrow in
  let c' := cpu_sbc m c in
  a c' = d mod 256 /\
  Z.testbit (p c') 0 = (0 <=? d) /\
  Z.testbit (p c') 6 = negb ((-128 <=? signed_d) && (signed_d <=? 127)) /\
  Z.testbit (p c') 1 = (a c' =? 0) /\
  Z.testbit (p c') 7 = Z.testbit (a c') 7 /\
  (forall n, 2 <= n <= 5 -> Z.testbit (p c') n = Z.testbit (p c) n) /\
  x c' = x c /\ y c' = y c /\ sp c' = sp c /\ pc c' = pc c /\
  cycles c' = cycles c.
Proof.
  intros Ha Hm borrow d signed_d c'. subst c'. unfold cpu_sbc. cbv zeta.
  rewrite (u8_small m Hm), (lnot_byte m Hm).
  set (m' := 255 - m). assert (Hm' : 0 <= m' < 256) by (subst m'; lia).
  set (cin := if Z.testbit (p c) 0 then 1 else 0).
  assert (Hcin : cin = 1 - borrow)
    by (subst cin borrow; destruct (Z.testbit (p c) 0); reflexivity).
  assert (Hb : 0 <= borrow <= 1)
    by (subst borrow; destruct (Z.testbit (p c) 0); lia).
  set (r := a c + m' + cin).
  assert (Hsum : u16 (a c + u8 m' + cin) = r)
    by (rewrite (u8_small m' Hm'); apply u16_small; subst r; lia).
  assert (Hrd : r = d + 256) by (subst r d m'; lia).
  destruct (cpu_adc_frame m' c) as (Ea & Ex & Ey & Es & Epc & Ecy).
  fold cin in Ea. rewrite Hsum in Ea.
  assert (Hp : forall n, 0 <= n -> Z.testbit (p (cpu_adc m' c)) n = _)
    by (intros n Hn; exact (cpu_adc_p m' c n Hn)).
  cbv zeta in Hp. fold cin in Hp. rewrite Hsum in Hp.
  assert (Eu : u8 r = d mod 256)
    by (unfold u8; rewrite Hrd; Z.div_mod_to_equations; lia).
  rewrite Eu in Ea, Hp.
  split; [exact Ea|].
  split.
  { rewrite Hp by lia. cbn [Z.eqb].
    destruct (Z.ltb_spec 255 r), (Z.leb_spec 0 d); try reflexivity; lia. }
  split.
  { rewrite Hp by lia. cbn [Z.eqb]. subst signed_d. unfold s8.
    rewrite (u8_small m Hm), (u8_small (a c) Ha), (u8_small m' Hm').
    rewrite (testbit7_byte (a c) Ha), (testbit7_byte m' Hm'),
      (testbit7_byte (d mod 256) (Z.mod_pos_bound d 256 ltac:(lia))).
    destruct (Z.leb_spec 128 (a c)), (Z.leb_spec 128 m'),
      (Z.leb_spec 128 (d mod 256)), (Z.ltb_spec (a c) 128), (Z.ltb_spec m 128);
      try lia; cbn [xorb negb andb];
      match goal with |- _ = negb ((?u <=? ?v) && (?w <=? ?z)) =>
        destruct (Z.leb_spec u v), (Z.leb_spec w z) end;
      cbn [negb andb]; try reflexivity; exfalso; subst d m';
      Z.div_mod_to_equations; lia. }
  split; [rewrite Hp, Ea by lia; reflexivity|].
  split; [rewrite Hp, Ea by lia; reflexivity|].
  split; [|now repeat split].
  intros n Hn. rewrite Hp by lia.
  destruct (Z.eqb_spec n 1), (Z.eqb_spec n 7), (Z.eqb_spec n 6),
    (Z.eqb_spec n 0), (Z.ltb_spec n 8); try lia. reflexivity.
Qed.

Lemma sbc_spec_witness :
  let c' := cpu_sbc 0xB0 (set_p 0x25 adc_example) in
  a c' = 0xA0 /\ Z.testbit (p c') 0 = false /\ Z.testbit (p c') 6 = true.
Proof.
  destruct (sbc_spec (set_p 0x25 adc_example) 0xB0) as (Ha & HC & HV & _);
    [cbn; lia | lia |].
  cbv zeta in *. rewrite Ha, HC, HV. repeat split.
Defined.

(** *** Interrupts *)

Lemma cpu_exec_rti :
  cpu_exec 0x40 =
  (v ← cpu_pop; upd_cpu (set_p v);;
   lo ← cpu_pop; upd_cpu (set_pc lo);;
   hi ← cpu_pop; upd_cpu (fun c => set_pc (u16 (Z.lor (pc c) (Z.shiftl hi 8))) c);;
   tick 6).
Proof. reflexivity. Qed.

(** X24: entering an NMI pushes [PC] (high byte first) and [P] with the
    break flag clear, sets the interrupt-disable flag and loads [PC] from
    the vector at [0xFFFA]; an [RTI] executed on that stack resumes at the
    interrupted [PC] with the stack pointer and the other registers as they
    were, and with the interrupted [P] except for the break flag, which
    comes back clear. *)
Theorem nmi_then_rti s :
  0 <= sp (cpu s) < 256 -> 0 <= p (cpu s) < 256 -> 0 <= pc (cpu s) < 65536 ->
  Z.of_nat (length (ram s)) = NES_RAM_SIZE ->
  let s1 := snd (cpu_nmi s) in
  let s2 := snd (cpu_exec 0x40 s1) in
  (sp (cpu s1) = (sp (cpu s) - 3) mod 256 /\
   Z.testbit (p (cpu s1)) 2 = true /\
   pc (cpu s1) = u16 (Z.lor (Z.shiftl (fst (cpu_read 0xFFFB s)) 8)
                            (fst (cpu_read 0xFFFA s)))) /\
  pc (cpu s2) = pc (cpu s) /\ sp (cpu s2) = sp (cpu s) /\
  (forall n, 0 <= n ->
     Z.testbit (p (cpu s2)) n = if n =? 4 then false else Z.testbit (p (cpu s)) n) /\
  a (cpu s2) = a (cpu s) /\ x (cpu s2) = x (cpu s) /\ y (cpu s2) = y (cpu s).
Proof.
  intros Hsp Hp Hpc Hlen s1 s2. unfold NES_RAM_SIZE in Hlen.
  set (sp0 := sp (cpu s)) in *.
  set (sp1 := u8 (sp0 - 1)). set (sp2 := u8 (sp1 - 1)). set (sp3 := u8 (sp2 - 1)).
  assert (H1 : sp1 = (sp0 - 1) mod 256) by reflexivity.
  assert (H2 : sp2 = (sp0 - 2) mod 256)
    by (subst sp2 sp1; unfold u8; Z.div_mod_to_equations; lia).
  assert (H3 : sp3 = (sp0 - 3) mod 256)
    by (subst sp3; rewrite H2; unfold u8; Z.div_mod_to_equations; lia).
  assert (U1 : u8 (sp3 + 1) = sp2)
    by (rewrite H3, H2; unfold u8; Z.div_mod_to_equations; lia).
  assert (U2 : u8 (sp2 + 1) = sp1)
    by (rewrite H2, H1; unfold u8; Z.div_mod_to_equations; lia).
  assert (U3 : u8 (sp1 + 1) = sp0)
    by (rewrite H1; unfold u8; Z.div_mod_to_equations; lia).
  pose proof (Z.mod_pos_bound (sp0 - 1) 256 ltac:(lia)).
  pose proof (Z.mod_pos_bound (sp0 - 2) 256 ltac:(lia)).
  pose proof (Z.mod_pos_bound (sp0 - 3) 256 ltac:(lia)).
  (* the machine after the interrupt entry *)
  set (ram1 := aset (aset (aset (ram s) (0x100 + sp0) (u8 (u8 (Z.shiftr (pc (cpu s)) 8))))
                          (0x100 + sp1) (u8 (u8 (Z.land (pc (cpu s)) 0xFF))))
                    (0x100 + sp2) (u8 (Z.land (p (cpu s)) (Z.lnot FLAG_BREAK)))).
  assert (E1 : s1 =
    set_cpu (set_pc (u16 (Z.lor (Z.shiftl (fst (cpu_read 0xFFFB s)) 8)
                                (fst (cpu_read 0xFFFA s))))
               (set_p (u8 (Z.lor (p (cpu s)) FLAG_INTERRUPT)) (set_sp sp3 (cpu s))))
            (set_ram ram1 s)).
  { subst s1. unfold cpu_nmi. nes_simpl.
    rewrite !cpu_read_cartridge by lia. cbv iota beta. nes_simpl.
    reflexivity. }
  split.
  { rewrite E1. cbn [cpu set_cpu sp p pc set_pc set_p set_sp].
    split; [exact H3|]. split; [|reflexivity].
    flags_to_numerals. bits. closed_bits. reflexivity. }
  subst s2. rewrite E1, cpu_exec_rti. nes_simpl.
  fold sp0 sp1. rewrite U1, U2, U3.
  assert (Hlen1 : Z.of_nat (length ram1) = 0x800)
    by (subst ram1; now rewrite !length_aset).
  assert (R2 : aget ram1 (0x100 + sp2) = u8 (Z.land (p (cpu s)) (Z.lnot FLAG_BREAK)))
    by (subst ram1; rewrite aget_aset_eq by (rewrite !length_aset; lia); reflexivity).
  assert (N01 : sp0 <> sp1) by (rewrite H1; Z.div_mod_to_equations; lia).
  assert (N12 : sp1 <> sp2) by (rewrite H1, H2; Z.div_mod_to_equations; lia).
  assert (N02 : sp0 <> sp2) by (rewrite H2; Z.div_mod_to_equations; lia).
  assert (R1 : aget ram1 (0x100 + sp1) = u8 (u8 (Z.land (pc (cpu s)) 0xFF))).
  { subst ram1. rewrite aget_aset_ne by lia.
    rewrite aget_aset_eq by (rewrite !length_aset; lia). reflexivity. }
  assert (R0 : aget ram1 (0x100 + sp0) = u8 (u8 (Z.shiftr (pc (cpu s)) 8))).
  { subst ram1. rewrite !aget_aset_ne by lia.
    rewrite aget_aset_eq by lia. reflexivity. }
  rewrite R0, R1, R2, !u8_u8.
  split; [rewrite bytes_of_word; now apply u16_small|].
  split; [reflexivity|].
  split; [|repeat split].
  intros n Hn. flags_to_numerals. change 16 with (2 ^ 4). bits.
  rewrite Z.pow2_bits_eqb by lia. rewrite (Z.eqb_sym 4 n).
  destruct (Z.eqb_spec n 4) as [->|Hne]; cbn [negb andb];
    [now rewrite !andb_false_r|].
  rewrite andb_true_r. destruct (Z.ltb_spec n 8); [reflexivity|].
  cbn [andb]. symmetry. apply (testbit_above (p (cpu s)) 8 n); lia.
Qed.

Lemma nmi_then_rti_witness :
  let s1 := snd (cpu_nmi rti_machine) in
  sp (cpu s1) = 0xFA /\ pc (cpu (snd (cpu_exec 0x40 s1))) = 0x8000 /\
  sp (cpu (snd (cpu_exec 0x40 s1))) = 0xFD.
Proof.
  assert (A1 : 0 <= sp (cpu rti_machine) < 256)
    by (split; vm_compute; first [reflexivity | discriminate]).
  assert (A2 : 0 <= p (cpu rti_machine) < 256)
    by (split; vm_compute; first [reflexivity | discriminate]).
  assert (A3 : 0 <= pc (cpu rti_machine) < 65536)
    by (split; vm_compute; first [reflexivity | discriminate]).
  assert (A4 : Z.of_nat (length (ram rti_machine)) = NES_RAM_SIZE)
    by (vm_compute; reflexivity).
  pose proof (nmi_then_rti rti_machine A1 A2 A3 A4) as H. cbv zeta in H.
  destruct H as ((Hsp & _) & Hpc & Hsp2 & _).
  cbv zeta. rewrite Hsp, Hpc, Hsp2. repeat split; vm_compute; reflexivity.
Defined.

(** *** What the CPU cannot change *)

Section Untouched.
Variable s0 : NES.

Lemma untouched_ppu_read_register ad : keeps (untouched s0) (ppu_read_register ad).
Proof.
  intros s H. unfold ppu_read_register. cbv zeta.
  destruct (Z.land (u16 ad) 7) as [|q|q]; split_numeral; try exact H.
  unfold mbind, M_bind, gets, upd_ppu, modify, mret, M_ret.
  destruct (vram_addr (ppu s) <? 16128); exact H.
Qed.

Lemma untouched_ppu_write ad v s : untouched s0 s -> untouched s0 (ppu_write ad v s).
Proof.
  intros H. unfold ppu_write. cbv zeta.
  repeat match goal with |- context [if ?b then _ else _] => destruct b end;
    exact H.
Qed.

Lemma untouched_ppu_write_register ad v :
  keeps (untouched s0) (ppu_write_register ad v).
Proof.
  intros s H. unfold ppu_write_register. cbv zeta.
  destruct (Z.land (u16 ad) 7) as [|q|q]; split_numeral; try exact H;
    unfold mbind, M_bind, gets, upd_ppu, modify; cbn [fst snd].
  - exact (untouched_ppu_write _ _ s H).
  - destruct (negb (truthy (scroll_latch (ppu s)))); exact H.
  - destruct (negb (truthy (addr_latch (ppu s)))); exact H.
Qed.

Lemma untouched_cpu_read ad : keeps (untouched s0) (cpu_read ad).
Proof.
  intros s H. unfold cpu_read. cbv zeta.
  destruct (u16 ad <? 8192); [exact H|].
  destruct (u16 ad <? 16384); [now apply untouched_ppu_read_register|].
  destruct (32768 <=? u16 ad); [|exact H].
  unfold mbind, M_bind, gets.
  destruct (prg_rom_size (cart s) =? PRG_ROM_BANK_SIZE); exact H.
Qed.

Lemma untouched_cpu_write ad v : keeps (untouched s0) (cpu_write ad v).
Proof.
  intros s H. unfold cpu_write. cbv zeta.
  destruct (u16 ad <? 8192); [exact H|].
  destruct (u16 ad <? 16384); [now apply untouched_ppu_write_register | exact H].
Qed.

Lemma untouched_upd_cpu f : keeps (untouched s0) (upd_cpu f).
Proof. intros s H. exact H. Qed.

Lemma untouched_cpu_push v : keeps (untouched s0) (cpu_push v).
Proof. intros s H. exact H. Qed.

Lemma untouched_cpu_pop : keeps (untouched s0) cpu_pop.
Proof. intros s H. exact H. Qed.

Lemma untouched_tick n : keeps (untouched s0) (tick n).
Proof. intros s H. exact H. Qed.

(** Structural descent through a computation of the interpreter. *)
Ltac untouched_steps :=
  repeat match goal with
    | |- keeps _ (_ ≫= _) => apply keeps_bind; [ | intros ? ]
    | |- keeps _ (mret _) => apply keeps_ret
    | |- keeps _ (gets _) => apply keeps_gets
    | |- keeps _ (if _ then _ else _) => apply keeps_if
    | |- keeps _ (cpu_read _) => apply untouched_cpu_read
    | |- keeps _ (cpu_write _ _) => apply untouched_cpu_write
    | |- keeps _ (cpu_push _) => apply untouched_cpu_push
    | |- keeps _ cpu_pop => apply untouched_cpu_pop
    | |- keeps _ (tick _) => apply untouched_tick
    | |- keeps _ (upd_cpu _) => apply untouched_upd_cpu
    | |- keeps _ ?m => let h := head_of m in unfold h; cbv zeta
    end.

Lemma untouched_fetch : keeps (untouched s0) fetch.
Proof. untouched_steps. Qed.

Lemma untouched_cpu_exec op : keeps (untouched s0) (cpu_exec op).
Proof.
  unfold cpu_exec. destruct op as [|q|q]; split_numeral; untouched_steps.
Qed.

Lemma untouched_cpu_step : keeps (untouched s0) cpu_step.
Proof.
  unfold cpu_step. apply keeps_bind; [apply untouched_fetch|].
  intros op. apply untouched_cpu_exec.
Qed.

Lemma untouched_cpu_nmi : keeps (untouched s0) cpu_nmi.
Proof. untouched_steps. Qed.
End Untouched.

Lemma untouched_refl s : untouched s s.
Proof. now repeat split. Qed.

(** X25: the program ROM is read-only for the CPU.  No instruction and no
    interrupt entry changes a byte of [prg_rom] or the recorded PRG and CHR
    sizes, whatever address it writes to. *)
Theorem program_rom_is_read_only s :
  let kept := fun s' =>
    prg_rom (cart s') = prg_rom (cart s) /\
    prg_rom_size (cart s') = prg_rom_size (cart s) /\
    chr_rom_size (cart s') = chr_rom_size (cart s) in
  kept (snd (cpu_step s)) /\ kept (snd (cpu_nmi s)) /\
  forall ad v, kept (snd (cpu_write ad v s)).
Proof.
  cbv zeta.
  destruct (untouched_cpu_step s s (untouched_refl s)) as (H1 & H2 & H3 & _).
  destruct (untouched_cpu_nmi s s (untouched_refl s)) as (H4 & H5 & H6 & _).
  split; [now repeat split|]. split; [now repeat split|].
  intros ad v.
  destruct (untouched_cpu_write s ad v s (untouched_refl s)) as (H7 & H8 & H9 & _).
  now repeat split.
Qed.

(** *** The loop of [main] *)

Lemma ppu_step_dot u :
  in_frame u ->
  in_frame (ppu_step u) /\
  dot (ppu_step u) = (dot u + 1) mod DOTS_PER_FRAME /\
  framebuffer (ppu_step u) = framebuffer u.
Proof.
  intros [Hc Hs]. unfold ppu_step, dot, in_frame, DOTS_PER_FRAME. cbv zeta.
  destruct u as [ctrl0 mask0 status0 oam_addr0 scroll_latch0 addr_latch0
                 vram_addr0 temp_addr0 fine_x0 read_buffer0 vram0 palette0 oam0
                 framebuffer0 scanline0 cycle0 nmi0].
  cbn [cycle scanline status ctrl nmi_triggered set_cycle set_scanline set_status
       set_nmi_triggered framebuffer] in *.
  destruct (Z.leb_spec 341 (cycle0 + 1)) as [Hwrap|Hstay];
    cbn [cycle scanline status ctrl nmi_triggered set_cycle set_scanline set_status
         set_nmi_triggered framebuffer];
    [destruct (Z.eqb_spec (scanline0 + 1) 241) as [E241|N241];
       [destruct (truthy (Z.land ctrl0 128))|];
       cbn [cycle scanline status ctrl nmi_triggered set_cycle set_scanline
            set_status set_nmi_triggered framebuffer];
       destruct (Z.leb_spec 262 (scanline0 + 1)) as [Hlast|Hmid];
       cbn [cycle scanline status ctrl nmi_triggered set_cycle set_scanline
            set_status set_nmi_triggered framebuffer]|];
    try lia;
    (split; [lia|]); (split; [Z.div_mod_to_equations; lia | reflexivity]).
Qed.

(** One iteration of the loop, seen from the PPU: whatever the CPU does,
    the PPU takes three steps. *)
Lemma run_instruction_ppu s :
  exists t,
    (framebuffer (ppu t) = framebuffer (ppu s) /\
     scanline (ppu t) = scanline (ppu s) /\ cycle (ppu t) = cycle (ppu s)) /\
    snd (run_instruction s) = set_ppu (ppu_step (ppu_step (ppu_step (ppu t)))) t.
Proof.
  unfold run_instruction.
  unfold mbind at 1, M_bind at 1, gets at 1.
  set (before := if nmi_triggered (ppu s) : bool
                 then cpu_nmi;; upd_ppu (set_nmi_triggered false) else mret tt).
  assert (Hb : framebuffer (ppu (snd (before s))) = framebuffer (ppu s) /\
               scanline (ppu (snd (before s))) = scanline (ppu s) /\
               cycle (ppu (snd (before s))) = cycle (ppu s)).
  { subst before. destruct (nmi_triggered (ppu s)); [|now repeat split].
    destruct (untouched_cpu_nmi s s (untouched_refl s)) as (_ & _ & _ & F & S & C & _).
    unfold mbind, M_bind, upd_ppu, modify.
    destruct (cpu_nmi s) as [[] t]. cbn [snd] in *. now repeat split. }
  unfold mbind, M_bind. destruct (before s) as [[] t1]. cbn [snd] in Hb.
  destruct (untouched_cpu_step t1 t1 (untouched_refl t1))
    as (_ & _ & _ & F & S & C & _).
  destruct (cpu_step t1) as [[] t2]. cbn [snd] in F, S, C.
  exists t2. destruct Hb as (F1 & S1 & C1).
  split; [rewrite F, S, C; now repeat split | reflexivity].
Qed.

Lemma run_instruction_dots s :
  in_frame (ppu s) ->
  let s' := snd (run_instruction s) in
  in_frame (ppu s') /\
  dot (ppu s') = (dot (ppu s) + 3) mod DOTS_PER_FRAME /\
  framebuffer (ppu s') = framebuffer (ppu s).
Proof.
  intros Hin. cbv zeta.
  destruct (run_instruction_ppu s) as (t & (F & S & C) & ->).
  cbn [ppu set_ppu].
  assert (Hin0 : in_frame (ppu t)) by (unfold in_frame; rewrite S, C; exact Hin).
  assert (Hd0 : dot (ppu t) = dot (ppu s)) by (unfold dot; now rewrite S, C).
  destruct (ppu_step_dot _ Hin0) as (Hin1 & Hd1 & F1).
  destruct (ppu_step_dot _ Hin1) as (Hin2 & Hd2 & F2).
  destruct (ppu_step_dot _ Hin2) as (Hin3 & Hd3 & F3).
  split; [exact Hin3|]. split; [|now rewrite F3, F2, F1].
  rewrite Hd3, Hd2, Hd1, Hd0. unfold DOTS_PER_FRAME.
  Z.div_mod_to_equations. lia.
Qed.

(** What the loop maintains. *)
Lemma main_iteration_invariant s n :
  in_frame (ppu s) ->
  let d := Nat.iter n main_iteration (main_start s) in
  in_frame (ppu (machine d)) /\
  dot (ppu (machine d)) = (dot (ppu s) + 3 * Z.of_nat n) mod DOTS_PER_FRAME /\
  rendered d = (dot (ppu s) + 3 * Z.of_nat n) / DOTS_PER_FRAME /\
  last_scanline d = scanline (ppu (machine d)) /\
  framebuffer (ppu (machine d)) = framebuffer (ppu s) /\
  Z.of_nat (length (frames_out d)) = rendered d /\
  Forall (fun f => f.2 = render_frame s) (frames_out d).
Proof.
  intros Hin. cbv zeta. induction n as [|n IH].
  - change (Nat.iter 0 main_iteration (main_start s)) with (main_start s).
    cbn [main_start machine rendered last_scanline frames_out length].
    assert (Hd : 0 <= dot (ppu s) < DOTS_PER_FRAME)
      by (destruct Hin; unfold dot, DOTS_PER_FRAME; lia).
    split; [exact Hin|]. rewrite Z.mul_0_r, Z.add_0_r.
    split; [now rewrite Z.mod_small|].
    split; [now rewrite Z.div_small|].
    split; [reflexivity|]. split; [reflexivity|].
    split; [reflexivity | constructor].
  - rewrite Nat.iter_succ. destruct IH as (Hi & Hd & Hr & Hl & Hf & Hn & Ha).
    set (d := Nat.iter n main_iteration (main_start s)) in *.
    destruct (run_instruction_dots (machine d) Hi) as (Hi' & Hd' & Hf').
    cbv zeta in Hi', Hd', Hf'. unfold main_iteration. cbv zeta.
    cbn [machine rendered last_scanline frames_out].
    set (s' := snd (run_instruction (machine d))) in *.
    assert (Hfb : render_frame s' = render_frame s)
      by (unfold render_frame; now rewrite Hf', Hf).
    assert (Hhit : (scanline (ppu s') =? 0) && (last_scanline d =? 261) =
                   (DOTS_PER_FRAME <=? dot (ppu (machine d)) + 3)).
    { rewrite Hl. destruct Hi as [Hc Hs], Hi' as [Hc' Hs'].
      unfold dot, DOTS_PER_FRAME in *.
      destruct (Z.eqb_spec (scanline (ppu s')) 0),
        (Z.eqb_spec (scanline (ppu (machine d))) 261),
        (Z.leb_spec (262 * 341) (scanline (ppu (machine d)) * 341 +
                                 cycle (ppu (machine d)) + 3));
        cbn [andb]; try reflexivity; exfalso; Z.div_mod_to_equations; lia. }
    rewrite Hhit.
    assert (Hdb : 0 <= dot (ppu (machine d)) < DOTS_PER_FRAME)
      by (destruct Hi; unfold dot, DOTS_PER_FRAME; lia).
    assert (H0 : 0 <= dot (ppu s))
      by (destruct Hin; unfold dot; lia).
    split; [exact Hi'|].
    split; [rewrite Hd', Hd; unfold DOTS_PER_FRAME;
            Z.div_mod_to_equations; lia|].
    split.
    { rewrite Hr. rewrite Hd in Hdb |- *. unfold DOTS_PER_FRAME in *.
      destruct (Z.leb_spec (262 * 341)
                  ((dot (ppu s) + 3 * Z.of_nat n) mod (262 * 341) + 3));
        Z.div_mod_to_equations; lia. }
    split; [reflexivity|].
    split; [now rewrite Hf'|].
    destruct (DOTS_PER_FRAME <=? dot (ppu (machine d)) + 3).
    + split; [cbn [length]; lia|]. constructor; [exact Hfb | exact Ha].
    + split; [exact Hn | exact Ha].
Qed.

Lemma main_loop_unroll frames k :
  forall fuel d,
  (forall j, (j < k)%nat -> rendered (Nat.iter j main_iteration d) < frames) ->
  (k <= fuel)%nat ->
  main_loop fuel frames d =
  main_loop (fuel - k) frames (Nat.iter k main_iteration d).
Proof.
  induction k as [|k IH]; intros fuel d Hlt Hfuel.
  - now rewrite Nat.sub_0_r.
  - destruct fuel as [|fuel]; [lia|]. cbn [main_loop].
    pose proof (Hlt 0%nat ltac:(lia)) as H0.
    change (Nat.iter 0 main_iteration d) with d in H0.
    destruct (Z.ltb_spec (rendered d) frames); [|lia].
    rewrite Nat.iter_succ_r. change (S fuel - S k)%nat with (fuel - k)%nat.
    apply IH; [|lia]. intros j Hj. rewrite <- Nat.iter_succ_r. apply Hlt. lia.
Qed.

Lemma main_loop_done fuel frames d :
  frames <= rendered d -> main_loop fuel frames d = d.
Proof.
  intros H. destruct fuel; [reflexivity|]. cbn [main_loop].
  destruct (Z.ltb_spec (rendered d) frames); [lia | reflexivity].
Qed.

(** X26: the pace of [main].  Each iteration of the loop runs one
    instruction and three PPU steps, whatever the instruction costs in
    cycles, so after [n] iterations the PPU is [3 n] positions further in
    its frame of 89342 and [main] has written one frame for each time that
    count passed the end of a frame.  Asked for [frames] frames, the loop
    therefore ends, whatever the program does, after the number of
    iterations that takes the PPU to the end of frame [frames]. *)
Theorem frame_pacing s n frames fuel :
  in_frame (ppu s) -> 0 < frames ->
  let d := Nat.iter n main_iteration (main_start s) in
  let last := Z.to_nat ((frames * DOTS_PER_FRAME - dot (ppu s) + 2) / 3) in
  (dot (ppu (machine d)) = (dot (ppu s) + 3 * Z.of_nat n) mod DOTS_PER_FRAME /\
   rendered d = (dot (ppu s) + 3 * Z.of_nat n) / DOTS_PER_FRAME /\
   Z.of_nat (length (frames_out d)) = rendered d) /\
  ((last <= fuel)%nat ->
   main_loop fuel frames (main_start s) =
     Nat.iter last main_iteration (main_start s) /\
   rendered (Nat.iter last main_iteration (main_start s)) = frames).
Proof.
  intros Hin Hfr. cbv zeta. split.
  { destruct (main_iteration_invariant s n Hin) as (_ & Hd & Hr & _ & _ & Hn & _).
    now repeat split. }
  intros Hfuel.
  assert (Hd0 : 0 <= dot (ppu s) < DOTS_PER_FRAME)
    by (destruct Hin; unfold dot, DOTS_PER_FRAME; lia).
  set (last := Z.to_nat ((frames * DOTS_PER_FRAME - dot (ppu s) + 2) / 3)) in *.
  assert (Hlast : Z.of_nat last = (frames * DOTS_PER_FRAME - dot (ppu s) + 2) / 3)
    by (subst last; unfold DOTS_PER_FRAME in *; rewrite Z2Nat.id;
        [reflexivity | Z.div_mod_to_equations; lia]).
  assert (Hend : rendered (Nat.iter last main_iteration (main_start s)) = frames).
  { destruct (main_iteration_invariant s last Hin) as (_ & _ & Hr & _).
    rewrite Hr, Hlast. unfold DOTS_PER_FRAME in *. Z.div_mod_to_equations. lia. }
  split; [|exact Hend].
  rewrite (main_loop_unroll frames last fuel (main_start s)); [|  | exact Hfuel].
  - apply main_loop_done. lia.
  - intros j Hj.
    destruct (main_iteration_invariant s j Hin) as (_ & _ & Hr & _).
    rewrite Hr. unfold DOTS_PER_FRAME in *.
    assert (Z.of_nat j < Z.of_nat last) by lia.
    Z.div_mod_to_equations. lia.
Qed.

Lemma frame_pacing_witness :
  let d := Nat.iter 2 main_iteration (main_start rti_machine) in
  dot (ppu (machine d)) = 6 /\ rendered d = 0 /\ frames_out d = [].
Proof.
  assert (Hin : in_frame (ppu rti_machine))
    by (unfold in_frame; split; split; vm_compute; first [reflexivity | discriminate]).
  pose proof (frame_pacing rti_machine 2 1 0 Hin ltac:(lia)) as H. cbv zeta in H.
  destruct H as ((Hd & Hr & Hn) & _). cbv zeta. rewrite Hd, Hr.
  split; [vm_compute; reflexivity|]. split; [vm_compute; reflexivity|].
  rewrite Hr in Hn. destruct (frames_out _); [reflexivity|].
  exfalso. revert Hn. cbn [length]. vm_compute. discriminate.
Defined.

Lemma shades_of_zeros (fb : list Z) (l : list Z) :
  (forall i, aget fb i = 0) ->
  (i ← l; let shade := aget fb i in [shade; shade; shade]) =
  replicate (3 * length l) 0.
Proof.
  intros H. induction l as [|i l IH]; [reflexivity|].
  change (i :: l) with ([i] ++ l). rewrite bind_app, IH. cbn [mbind list_bind app].
  rewrite H. replace (3 * length (i :: l))%nat with (S (S (S (3 * length l))))
    by (cbn [length]; lia).
  reflexivity.
Qed.

(** X27: the picture never changes.  Nothing in the loop of [main] writes
    the framebuffer, so every frame file holds the picture the loop started
    with; after [ppu_reset] that is the 15-byte header followed by 184320
    zero bytes. *)
Theorem every_frame_is_the_first_picture s n :
  in_frame (ppu s) ->
  let d := Nat.iter n main_iteration (main_start s) in
  framebuffer (ppu (machine d)) = framebuffer (ppu s) /\
  Forall (fun f => f.2 = render_frame s) (frames_out d) /\
  (framebuffer (ppu s) = zeros (FRAME_WIDTH * FRAME_HEIGHT) ->
   render_frame s = ppm_header ++ zeros (3 * (FRAME_WIDTH * FRAME_HEIGHT))).
Proof.
  intros Hin.
  destruct (main_iteration_invariant s n Hin) as (_ & _ & _ & _ & Hf & _ & Ha).
  cbv zeta. split; [exact Hf|]. split; [exact Ha|].
  intros Hz. unfold render_frame. apply (f_equal (app ppm_header)). rewrite Hz.
  rewrite shades_of_zeros by apply aget_zeros.
  rewrite length_seqZ. unfold zeros.
  apply (f_equal (fun k => replicate k 0)).
  apply Nat2Z.inj. rewrite Nat2Z.inj_mul.
  rewrite !Z2Nat.id by (unfold FRAME_WIDTH, FRAME_HEIGHT; lia).
  reflexivity.
Qed.

Lemma every_frame_is_the_first_picture_witness :
  render_frame latch_example = ppm_header ++ zeros (3 * (FRAME_WIDTH * FRAME_HEIGHT)).
Proof.
  assert (Hin : in_frame (ppu latch_example))
    by (unfold in_frame, latch_example, ppu_reset;
        cbn [ppu set_ppu cycle scanline]; lia).
  destruct (every_frame_is_the_first_picture latch_example 0 Hin) as (_ & _ & H).
  apply H. unfold latch_example, ppu_reset. cbn [ppu set_ppu framebuffer].
  reflexivity.
Defined.

(** *** Branches *)

Lemma same_page v w :
  0 <= v < 65536 -> 0 <= w < 65536 ->
  (Z.land v 0xFF00 =? Z.land w 0xFF00) = (v / 256 =? w / 256).
Proof.
  intros Hv Hw. rewrite !land_FF00, !Z.shiftl_mul_pow2 by lia.
  change (2 ^ 8) with 256.
  destruct (Z.eqb_spec (v / 256 * 256) (w / 256 * 256)),
    (Z.eqb_spec (v / 256) (w / 256)); try reflexivity; exfalso; lia.
Qed.

Lemma u64_add_twice c i j : u64 (u64 (c + i) + j) = u64 (c + (i + j)).
Proof. unfold u64. Z.div_mod_to_equations. lia. Qed.

(** [cpu_branch] followed by the two cycles every branch case adds. *)
Lemma cpu_branch_spec (cond : bool) s :
  let off := s8 (fst (fetch s)) in
  let next := u16 (pc (cpu s) + 1) in
  let target := u16 (next + off) in
  let s' := snd ((cpu_branch cond;; tick 2) s) in
  pc (cpu s') = (if cond then target else next) /\
  cycles (cpu s') =
    u64 (cycles (cpu s) +
         (if cond then if next / 256 =? target / 256 then 3 else 4 else 2)) /\
  a (cpu s') = a (cpu s) /\ x (cpu s') = x (cpu s) /\ y (cpu s') = y (cpu s) /\
  sp (cpu s') = sp (cpu s) /\ p (cpu s') = p (cpu s).
Proof.
  cbv zeta. unfold cpu_branch.
  destruct (fetch_spec s) as [(Ec & _ & _) _].
  destruct (fetch s) as [b s1] eqn:E. cbn [fst snd] in Ec |- *.
  rewrite bind_assoc, (bind_eq _ _ _ _ _ E). cbv zeta.
  destruct cond.
  - nes_simpl. rewrite Ec. cbn [pc cycles set_pc a x y sp p].
    rewrite (same_page _ _ (u16_range _) (u16_range _)).
    destruct (u16 (pc (cpu s) + 1) / 256 =? u16 (u16 (pc (cpu s) + 1) + s8 b) / 256);
      cbn [negb]; nes_simpl; rewrite ?u64_add_twice; repeat split.
  - nes_simpl. rewrite Ec. repeat split.
Qed.

(** X28: a branch instruction tests one flag of [P].  When the flag has the
    value it branches on, [PC] becomes the address after the instruction
    plus the operand read as a signed byte, at a cost of 3 cycles, or 4 when
    that address lies in another page than the instruction's successor;
    otherwise the instruction falls through in 2 cycles.  No other register
    changes. *)
Theorem branch_instruction op flag wanted s :
  branch_test op = Some (flag, wanted) ->
  let taken := Bool.eqb (Z.testbit (p (cpu s)) flag) wanted in
  let off := s8 (fst (fetch s)) in
  let next := u16 (pc (cpu s) + 1) in
  let target := u16 (next + off) in
  let s' := snd (cpu_exec op s) in
  -128 <= off <= 127 /\
  pc (cpu s') = (if taken then target else next) /\
  cycles (cpu s') =
    u64 (cycles (cpu s) +
         (if taken then if next / 256 =? target / 256 then 3 else 4 else 2)) /\
  a (cpu s') = a (cpu s) /\ x (cpu s') = x (cpu s) /\ y (cpu s') = y (cpu s) /\
  sp (cpu s') = sp (cpu s) /\ p (cpu s') = p (cpu s).
Proof.
  intros Hop. cbv zeta.
  split.
  { unfold s8. pose proof (u8_range (fst (fetch s))).
    destruct (u8 (fst (fetch s)) <? 128) eqn:E;
      [apply Z.ltb_lt in E | apply Z.ltb_ge in E]; lia. }
  assert (Hb : forall k, 0 <= k ->
            (branch_if (2 ^ k);; tick 2) s =
              (cpu_branch (Z.testbit (p (cpu s)) k);; tick 2) s /\
            (branch_unless (2 ^ k);; tick 2) s =
              (cpu_branch (negb (Z.testbit (p (cpu s)) k));; tick 2) s).
  { intros k Hk. unfold branch_if, branch_unless, mbind, M_bind, gets.
    rewrite truthy_land_pow2 by lia. split; reflexivity. }
  destruct op as [|q|q]; try discriminate; revert Hop; cbn [branch_test];
    split_numeral; try discriminate; intros [= <- <-];
    unfold cpu_exec;
    match goal with
    | |- context [branch_if ?f] =>
        let k := eval vm_compute in (Z.log2 f) in
        change f with (2 ^ k); rewrite (proj1 (Hb k ltac:(lia)))
    | |- context [branch_unless ?f] =>
        let k := eval vm_compute in (Z.log2 f) in
        change f with (2 ^ k); rewrite (proj2 (Hb k ltac:(lia)))
    end;
    match goal with
    | |- context [cpu_branch ?c] =>
        replace (Bool.eqb _ _) with c
          by (destruct (Z.testbit (p (cpu s)) _); reflexivity);
        exact (cpu_branch_spec c s)
    end.
Qed.

Lemma branch_instruction_witness :
  let s := snd (fetch (ram_example 0x02FD [(0x2FD, 0xD0); (0x2FE, 0x05)])) in
  let s' := snd (cpu_exec 0xD0 s) in
  pc (cpu s') = 0x0304 /\ cycles (cpu s') = 7 + 4.
Proof.
  intros s s'.
  destruct (branch_instruction 0xD0 1 false s eq_refl) as (_ & Hpc & Hcy & _).
  cbv zeta in Hpc, Hcy. subst s'. rewrite Hpc, Hcy. split; vm_compute; reflexivity.
Defined.

(** *** Bytes without a [case] *)

(** X29: a byte that has no [case] in the [switch] of [cpu_step] (105 of
    the 256) is executed as a one-byte instruction of two cycles that
    changes nothing else, exactly like [0xEA]. *)
Theorem undecoded_opcode_is_nop op s :
  is_decoded op = false ->
  cpu_exec op s = (tt, set_cpu (set_cycles (u64 (cycles (cpu s) + 2)) (cpu s)) s) /\
  cpu_exec op s = cpu_exec 0xEA s /\
  Z.of_nat (length decoded_opcodes) = 151 /\ NoDup decoded_opcodes.
Proof.
  intros H.
  assert (E : cpu_exec op = tick 2).
  { destruct op as [|q|q]; try reflexivity; revert H; unfold cpu_exec;
      split_numeral; first [reflexivity | intros H; vm_compute in H; discriminate H]. }
  rewrite E. split; [reflexivity|]. split; [reflexivity|].
  split; [reflexivity|]. apply (bool_decide_unpack _). vm_compute. exact I.
Qed.

Lemma undecoded_opcode_is_nop_witness :
  cpu_exec 0x02 latch_example = cpu_exec 0xEA latch_example.
Proof. apply (undecoded_opcode_is_nop 0x02 latch_example). reflexivity. Defined.

(** *** Addressing modes *)

Lemma cpu_read_zero_page ad s :
  0 <= ad < 256 -> cpu_read ad s = (aget (ram s) ad, s).
Proof.
  intros Ha. unfold cpu_read. cbv zeta. rewrite u16_small by lia.
  destruct (Z.ltb_spec ad 0x2000); [|lia]. unfold gets.
  now rewrite land_7FF, Z.mod_small by lia.
Qed.

Lemma crossed_iff_carry hi lo i :
  0 <= hi < 256 -> 0 <= lo < 256 -> 0 <= i < 256 ->
  negb (Z.land (u16 (hi * 256 + lo + i)) 0xFF00 =? Z.land (hi * 256 + lo) 0xFF00) =
  (256 <=? lo + i).
Proof.
  intros Hh Hl Hi.
  rewrite (same_page _ _ (u16_range _)) by lia. unfold u16.
  destruct (Z.eqb_spec ((hi * 256 + lo + i) mod 65536 / 256) ((hi * 256 + lo) / 256)),
    (Z.leb_spec 256 (lo + i)); cbn [negb]; try reflexivity; exfalso;
    Z.div_mod_to_equations; lia.
Qed.

(** X30: the indexed addressing modes.  With [lo] and [hi] the operand
    bytes: zero-page indexing wraps inside page zero; absolute indexing adds
    the index to [hi * 256 + lo] modulo [2 ^ 16] and reports a page crossing
    exactly when the index carries out of [lo]; both indirect modes fetch
    their pointer from page zero, the second byte from the next cell
    modulo 256, and indirect-indexed reports a crossing when [Y] carries out
    of the pointer's low byte. *)
Theorem indexed_addressing s :
  bytes_ok s -> 0 <= x (cpu s) < 256 -> 0 <= y (cpu s) < 256 ->
  let lo := fst (fetch s) in
  let hi := fst (fetch (snd (fetch s))) in
  let base := hi * 256 + lo in
  let word := fun q => aget (ram s) ((q + 1) mod 256) * 256 + aget (ram s) q in
  (addr (fst (addr_zero_page_x s)) = (lo + x (cpu s)) mod 256 /\
   addr (fst (addr_zero_page_y s)) = (lo + y (cpu s)) mod 256) /\
  (addr (fst (addr_absolute_x s)) = (base + x (cpu s)) mod 65536 /\
   page_crossed (fst (addr_absolute_x s)) = (256 <=? lo + x (cpu s))) /\
  (addr (fst (addr_absolute_y s)) = (base + y (cpu s)) mod 65536 /\
   page_crossed (fst (addr_absolute_y s)) = (256 <=? lo + y (cpu s))) /\
  addr (fst (addr_indexed_indirect s)) = word ((lo + x (cpu s)) mod 256) /\
  (addr (fst (addr_indirect_indexed s)) = (word lo + y (cpu s)) mod 65536 /\
   page_crossed (fst (addr_indirect_indexed s)) = (256 <=? aget (ram s) lo + y (cpu s))).
Proof.
  intros Hok Hx Hy. cbv zeta.
  unfold addr_zero_page_x, addr_zero_page_y, addr_absolute_x, addr_absolute_y,
    addr_indexed_indirect, addr_indirect_indexed.
  destruct (fetch_spec s) as [(Ec1 & Er1 & _) H1].
  destruct (H1 Hok) as [Hlo Hok1]. clear H1.
  destruct (fetch s) as [lo s1] eqn:E1. cbn [fst snd] in *.
  destruct (fetch_spec s1) as [(Ec2 & Er2 & _) H2].
  destruct (H2 Hok1) as [Hhi _]. clear H2.
  destruct (fetch s1) as [hi s2] eqn:E2. cbn [fst snd] in *.
  assert (X1 : x (cpu s1) = x (cpu s)) by now rewrite Ec1.
  assert (Y1 : y (cpu s1) = y (cpu s)) by now rewrite Ec1.
  assert (X2 : x (cpu s2) = x (cpu s)) by now rewrite Ec2, Ec1.
  assert (Y2 : y (cpu s2) = y (cpu s)) by now rewrite Ec2, Ec1.
  assert (Hram : all_u8 (ram s) = true) by apply Hok.
  assert (Eb : u16 (Z.lor (Z.shiftl hi 8) lo) = hi * 256 + lo).
  { rewrite lor_shiftl_add by (change (2 ^ 8) with 256; lia).
    change (2 ^ 8) with 256. apply u16_small. lia. }
  assert (Ew : forall q, 0 <= q < 256 ->
            u16 (Z.lor (aget (ram s) q) (Z.shiftl (aget (ram s) (u8 (q + 1))) 8)) =
            aget (ram s) ((q + 1) mod 256) * 256 + aget (ram s) q).
  { intros q Hq. pose proof (aget_u8 (ram s) q Hram).
    pose proof (aget_u8 (ram s) (u8 (q + 1)) Hram).
    rewrite Z.lor_comm, lor_shiftl_add by (change (2 ^ 8) with 256; lia).
    change (2 ^ 8) with 256. unfold u8 in *. apply u16_small. lia. }
  repeat rewrite ?bind_assoc, ?(bind_eq _ _ _ _ _ E1), ?(bind_eq _ _ _ _ _ E2).
  cbv zeta. unfold mbind, M_bind, gets, mret, M_ret. cbn [fst snd addr page_crossed].
  rewrite X1, Y1, X2, Y2, Eb, (u8_small lo) by lia.
  split; [split; reflexivity|].
  split; [split; [reflexivity | now apply crossed_iff_carry]|].
  split; [split; [reflexivity | now apply crossed_iff_carry]|].
  pose proof (u8_range (lo + x (cpu s))) as Hp. pose proof (u8_range (lo + 1)) as Hq.
  pose proof (u8_range (u8 (lo + x (cpu s)) + 1)) as Hr.
  rewrite !cpu_read_zero_page by assumption. cbn [fst snd].
  rewrite ?cpu_read_zero_page by assumption. cbn [fst snd addr page_crossed].
  rewrite Er1. rewrite !Ew by assumption || lia.
  split; [reflexivity|]. rewrite Y1.
  split; [reflexivity|].
  pose proof (aget_u8 (ram s) lo Hram). pose proof (aget_u8 (ram s) ((lo + 1) mod 256) Hram).
  now apply crossed_iff_carry.
Qed.

Lemma indexed_addressing_witness :
  let s := set_cpu (set_x 0x10 (cpu (ram_example 0x0200 [(0x200, 0xF8); (0x201, 0x12)])))
             (ram_example 0x0200 [(0x200, 0xF8); (0x201, 0x12)]) in
  addr (fst (addr_absolute_x s)) = 0x1308 /\ page_crossed (fst (addr_absolute_x s)) = true /\
  addr (fst (addr_zero_page_x s)) = 0x08.
Proof.
  intros s.
  assert (Hok : bytes_ok s)
    by (repeat split; solve [vm_compute; reflexivity | vm_compute; discriminate]).
  assert (Hx : 0 <= x (cpu s) < 256) by (subst s; cbn [x cpu set_cpu set_x]; lia).
  assert (Hy : 0 <= y (cpu s) < 256)
    by (split; solve [vm_compute; reflexivity | vm_compute; discriminate]).
  pose proof (indexed_addressing s Hok Hx Hy) as H. cbv zeta in H.
  destruct H as ((Hz & _) & (Ha & Hc) & _).
  rewrite Ha, Hc, Hz. repeat split; vm_compute; reflexivity.
Defined.

End NessyLaws.
